(** * People counter: multi-object tracking and line-crossing counting

    Shallow embedding of the tracking core of [src/lib/supabase.ts]
    (lines 176-604: [detectPeople], [calculateDistance], [calculateIoU],
    [findClosestPerson], [cleanupTrackedPeople], [detectPeopleWithCrossing],
    [resetTracking]) and the properties of it that the specification states.

    Modelling conventions.
    - A JavaScript [number] holding a coordinate, a size or a confidence is a
      real number: rounding, overflow and signed zeros of IEEE doubles are not
      modelled.  The two divisions whose divisor can be zero
      ([intersectionArea / unionArea] and the size ratio) return a [number],
      which adds [NaN] and the two infinities to the reals, with the
      arithmetic and the comparison JavaScript gives them.  What the code
      computes in binary64 can differ from the real number by a rounding
      error: the intersection over union of a box with itself, 1 here, is
      1.0000000000000004 there for the box [0.1, 0.1, 0.2, 0.2], and a score
      that is exactly 0.3 here can be 0.30000000000000004 there.  An
      equation between such numbers in this file is an equation of real
      numbers.
    - [framesSinceCrossing] is a natural number, timestamps ([Date.now()], in
      milliseconds) are integers.
    - [Date.now()] and [Math.random()] are oracles: the k-th call returns
      [clock k], resp. the suffix [random k]; the state counts the calls.
    - The module-level [Map] [trackedPeople] is a list of tracks in insertion
      order, keyed by the [id] field of each track.  A reference to a track
      object is its key.
    - The two [console.log] lines "COUNTED IN" / "COUNTED OUT", which name the
      track that is counted, are the event log of a frame.

    Around the core, the file also embeds [drawDetections] (lines 517-597) as
    the list of the calls it makes on the 2D context; the error predicates
    [isInvalidKeyError] (lines 71-89) and [isTableError]; and, of the
    [LiveFeed] component of [src/pages/Analytics.tsx], [loadCameras],
    [runDetection], [logCount] and [resetCount] (lines 407-451, 476-545 and
    620-705).  There
    - what a call of [runDetection] finds in the refs and the state of the
      component is its argument, and what the model predicts on the current
      frame comes with the video element;
    - the requests made of the client are functions from the request to what
      awaiting it gives, an object with [data] and [error] or an exception;
    - an item of the local storage is absent, the text of an array, or a text
      on which [JSON.parse] or the array method applied to its result
      throws; [localStorage.setItem] can throw; an exception that no [catch]
      block handles, or that a [catch] block throws, rejects the promise of
      the [async] function, and what was set before it stays set;
    - the identifier and the timestamps of a log are left out. *)

From Stdlib Require Import Reals Lra Lia ZArith List String Bool.
From Stdlib Require Import Sorted Permutation.
Import ListNotations.

Open Scope R_scope.

(** ** Comparisons of real numbers as booleans *)

Definition Rlt_b (x y : R) : bool := if Rlt_dec x y then true else false.
Definition Rgt_b (x y : R) : bool := Rlt_b y x.
Definition Rge_b (x y : R) : bool := if Rge_dec x y then true else false.

(** ** JavaScript numbers that may be the result of a division by zero *)

Inductive number : Type :=
| Fin (r : R)
| PosInf
| NegInf
| NaN.

(** [a / b] on finite operands. *)
Definition num_div (a b : R) : number :=
  if Req_dec_T b 0 then
    if Req_dec_T a 0 then NaN
    else if Rlt_dec 0 a then PosInf else NegInf
  else Fin (a / b).

Definition num_mul (a b : number) : number :=
  match a, b with
  | NaN, _ | _, NaN => NaN
  | Fin x, Fin y => Fin (x * y)
  | Fin x, PosInf | PosInf, Fin x =>
      if Rlt_dec 0 x then PosInf else if Rlt_dec x 0 then NegInf else NaN
  | Fin x, NegInf | NegInf, Fin x =>
      if Rlt_dec 0 x then NegInf else if Rlt_dec x 0 then PosInf else NaN
  | PosInf, PosInf | NegInf, NegInf => PosInf
  | PosInf, NegInf | NegInf, PosInf => NegInf
  end.

Definition num_add (a b : number) : number :=
  match a, b with
  | NaN, _ | _, NaN => NaN
  | Fin x, Fin y => Fin (x + y)
  | PosInf, NegInf | NegInf, PosInf => NaN
  | PosInf, _ | _, PosInf => PosInf
  | NegInf, _ | _, NegInf => NegInf
  end.

(** [a > b]; false as soon as one side is [NaN]. *)
Definition num_gt (a b : number) : bool :=
  match a, b with
  | NaN, _ | _, NaN => false
  | Fin x, Fin y => Rgt_b x y
  | PosInf, PosInf => false
  | PosInf, _ => true
  | _, PosInf => false
  | NegInf, _ => false
  | Fin _, NegInf => true
  end.

(** ** Data model (lines 179-204) *)

(** [[x, y, width, height]] *)
Record BBox : Type := mkBBox { bx : R; by_ : R; bw : R; bh : R }.

Record Detection : Type := mkDetection {
  d_bbox : BBox;
  d_class : string;
  d_score : R
}.

Record DetectionResult : Type := mkDetectionResult {
  detections : list Detection;
  peopleCount : nat;
  timestamp : Z
}.

Inductive Direction : Type := dir_in | dir_out.

(** The identifier [`person_${Date.now()}_${Math.random().toString(36).substr(2, 9)}`]:
    the timestamp and the random suffix it is built from. *)
Record PersonId : Type := mkPersonId { id_stamp : Z; id_suffix : string }.

Record TrackedPerson : Type := mkTrackedPerson {
  id : PersonId;
  bbox : BBox;
  centerX : R;
  centerY : R;
  previousY : R;
  lastSeen : Z;
  crossed : bool;
  direction : option Direction;
  framesSinceCrossing : nat
}.

Definition CROSSING_LINE_POSITION : R := 0.5.
Definition TRACKING_THRESHOLD : R := 400.
Definition TRACKING_TIMEOUT : Z := 3000.
Definition MIN_CONFIDENCE : R := 0.2.
Definition CROSSING_COOLDOWN : nat := 15.
Definition MIN_DISTANCE_FOR_CROSSING : R := 5.
(** The literal [500] of the grace period (line 484). *)
Definition GRACE_PERIOD : Z := 500.
(** The literal [0.3] that initialises [maxScore] (line 298). *)
Definition MIN_MATCH_SCORE : R := 0.3.

(** ** The [Map<string, TrackedPerson>] and the [Set<string>] *)

Definition id_eqb (a b : PersonId) : bool :=
  (id_stamp a =? id_stamp b)%Z && String.eqb (id_suffix a) (id_suffix b).

Definition Registry : Type := list TrackedPerson.

Definition keys (m : Registry) : list PersonId := map id m.

Definition map_get (m : Registry) (k : PersonId) : option TrackedPerson :=
  find (fun p => id_eqb (id p) k) m.

(** [Map.prototype.set]: an existing key keeps its place, a new key goes last.
    The value stored under [k] is always a track whose [id] is [k]. *)
Fixpoint map_set (m : Registry) (v : TrackedPerson) : Registry :=
  match m with
  | [] => [v]
  | p :: rest => if id_eqb (id p) (id v) then v :: rest else p :: map_set rest v
  end.

Definition map_delete (m : Registry) (k : PersonId) : Registry :=
  filter (fun p => negb (id_eqb (id p) k)) m.

Definition set_has (s : list PersonId) (k : PersonId) : bool :=
  existsb (fun k' => id_eqb k' k) s.

Definition set_add (s : list PersonId) (k : PersonId) : list PersonId :=
  if set_has s k then s else s ++ [k].

(** ** Geometry (lines 258-287) *)

Definition calculateDistance (x1 y1 x2 y2 : R) : R :=
  sqrt ((x2 - x1) ^ 2 + (y2 - y1) ^ 2).

Definition calculateIoU (bbox1 bbox2 : BBox) : number :=
  let '(mkBBox x1 y1 w1 h1) := bbox1 in
  let '(mkBBox x2 y2 w2 h2) := bbox2 in
  let xLeft := Rmax x1 x2 in
  let yTop := Rmax y1 y2 in
  let xRight := Rmin (x1 + w1) (x2 + w2) in
  let yBottom := Rmin (y1 + h1) (y2 + h2) in
  if Rlt_b xRight xLeft || Rlt_b yBottom yTop then Fin 0
  else
    let intersectionArea := (xRight - xLeft) * (yBottom - yTop) in
    let bbox1Area := w1 * h1 in
    let bbox2Area := w2 * h2 in
    let unionArea := bbox1Area + bbox2Area - intersectionArea in
    num_div intersectionArea unionArea.

(** ** Association score (lines 292-327) *)

Definition sizeRatio (b1 b2 : BBox) : number :=
  num_div (Rmin (bw b1 * bh b1) (bw b2 * bh b2))
          (Rmax (bw b1 * bh b1) (bw b2 * bh b2)).

Definition distanceScore (distance : R) : R :=
  Rmax 0 (1 - distance / TRACKING_THRESHOLD).

Definition matchScore (b : BBox) (cx cy : R) (person : TrackedPerson) : number :=
  let distance := calculateDistance cx cy (centerX person) (centerY person) in
  let iou := calculateIoU b (bbox person) in
  num_add (num_add (num_mul iou (Fin 0.5))
                   (num_mul (Fin (distanceScore distance)) (Fin 0.3)))
          (num_mul (sizeRatio b (bbox person)) (Fin 0.2)).

(** The body of the [forEach] callback: the pair is [(closest, maxScore)]. *)
Definition considerPerson (b : BBox) (cx cy : R)
    (acc : option TrackedPerson * number) (person : TrackedPerson)
    : option TrackedPerson * number :=
  let distance := calculateDistance cx cy (centerX person) (centerY person) in
  if Rgt_b distance TRACKING_THRESHOLD then acc
  else
    let score := matchScore b cx cy person in
    if num_gt score (snd acc) then (Some person, score) else acc.

Definition findClosestPerson (m : Registry) (b : BBox) (cx cy : R)
    : option TrackedPerson :=
  fst (fold_left (considerPerson b cx cy) m (None, Fin MIN_MATCH_SCORE)).

(** The track is not skipped by the test [distance > TRACKING_THRESHOLD]. *)
Definition withinThreshold (cx cy : R) (person : TrackedPerson) : Prop :=
  calculateDistance cx cy (centerX person) (centerY person) <= TRACKING_THRESHOLD.

(** ** Crossing evaluation of a matched track (lines 411-457)

    [person] is the matched track after its position was updated, so
    [previousY person] is the centre it had in the previous frame;
    [previousCenterX] is the local of the same name.  The result is the track
    and the direction that was counted, if any. *)
Definition checkCrossing (crossingLineY previousCenterX : R)
    (person : TrackedPerson) : TrackedPerson * option Direction :=
  if negb (crossed person) then
    let crossedDown :=
      Rlt_b (previousY person) crossingLineY && Rgt_b (centerY person) crossingLineY in
    let crossedUp :=
      Rgt_b (previousY person) crossingLineY && Rlt_b (centerY person) crossingLineY in
    let verticalMovement := Rabs (centerY person - previousY person) in
    let horizontalMovement := Rabs (centerX person - previousCenterX) in
    let isVerticalMovement := Rgt_b verticalMovement (horizontalMovement * 0.1) in
    if Rgt_b verticalMovement MIN_DISTANCE_FOR_CROSSING && isVerticalMovement then
      if crossedDown then
        (mkTrackedPerson (id person) (bbox person) (centerX person) (centerY person)
           (previousY person) (lastSeen person) true (Some dir_in) 0,
         Some dir_in)
      else if crossedUp then
        (mkTrackedPerson (id person) (bbox person) (centerX person) (centerY person)
           (previousY person) (lastSeen person) true (Some dir_out) 0,
         Some dir_out)
      else (person, None)
    else (person, None)
  else (person, None).

(** ** Cooldown pass (lines 363-374) *)

Definition cooldownTick (person : TrackedPerson) : TrackedPerson :=
  if crossed person then
    let n := S (framesSinceCrossing person) in
    if (CROSSING_COOLDOWN <=? n)%nat then
      mkTrackedPerson (id person) (bbox person) (centerX person) (centerY person)
        (previousY person) (lastSeen person) false None 0
    else
      mkTrackedPerson (id person) (bbox person) (centerX person) (centerY person)
        (previousY person) (lastSeen person) (crossed person) (direction person) n
  else person.

(** ** Sorting by confidence (line 380)

    [Array.prototype.sort] is stable; with the comparator [b.score - a.score]
    it yields the stable arrangement by descending score. *)
Fixpoint insertByScore (d : Detection) (l : list Detection) : list Detection :=
  match l with
  | [] => [d]
  | x :: rest =>
      if Rge_b (d_score d) (d_score x) then d :: x :: rest
      else x :: insertByScore d rest
  end.

Definition sortByScore (l : list Detection) : list Detection :=
  fold_right insertByScore [] l.

(** ** State *)

Record Event : Type := mkEvent { ev_id : PersonId; ev_dir : Direction }.

(** The module state, with the number of calls made so far to [Date.now()]
    and to [Math.random()]. *)
Record World : Type := mkWorld {
  trackedPeople : Registry;
  clockReads : nat;
  randomDraws : nat
}.

(** The locals of [detectPeopleWithCrossing] during the association loop. *)
Record FrameState : Type := mkFrameState {
  fs_world : World;
  matchedPeople : list PersonId;
  countIn : nat;
  countOut : nat;
  fs_events : list Event
}.

Record FrameOutput : Type := mkFrameOutput {
  out_detections : list Detection;
  out_peopleCount : nat;
  out_countIn : nat;
  out_countOut : nat
}.

(** ** Per-frame processing *)

Section Tracker.

(** [clock k] is what the k-th call of [Date.now()] returns, [random k] the
    suffix [Math.random().toString(36).substr(2, 9)] of the k-th draw. *)
Variable clock : nat -> Z.
Variable random : nat -> string.

Definition withRegistry (w : World) (m : Registry) : World :=
  mkWorld m (clockReads w) (randomDraws w).

(** [detectPeople] (lines 230-253), applied to the predictions of the model. *)
Definition isPerson (prediction : Detection) : bool :=
  String.eqb (d_class prediction) "person"
  && Rge_b (d_score prediction) MIN_CONFIDENCE.

Definition detectPeople (predictions : list Detection) (w : World)
    : DetectionResult * World :=
  let peopleDetections := filter isPerson predictions in
  (mkDetectionResult peopleDetections (List.length peopleDetections)
     (clock (clockReads w)),
   mkWorld (trackedPeople w) (S (clockReads w)) (randomDraws w)).

(** [cleanupTrackedPeople] (lines 332-339). *)
Definition isStale (now : Z) (person : TrackedPerson) : bool :=
  (now - lastSeen person >? TRACKING_TIMEOUT)%Z.

Definition cleanupTrackedPeople (w : World) : World :=
  let now := clock (clockReads w) in
  mkWorld (filter (fun person => negb (isStale now person)) (trackedPeople w))
          (S (clockReads w)) (randomDraws w).

(** The cooldown pass over the whole registry (lines 364-374). *)
Definition cooldownPass (w : World) : World :=
  withRegistry w (map cooldownTick (trackedPeople w)).

Definition countEvent (ev : option Direction) (d : Direction) (n : nat) : nat :=
  match ev, d with
  | Some dir_in, dir_in => S n
  | Some dir_out, dir_out => S n
  | _, _ => n
  end.

Definition logEvent (k : PersonId) (ev : option Direction) (log : list Event)
    : list Event :=
  match ev with
  | Some d => log ++ [mkEvent k d]
  | None => log
  end.

(** The position update of a matched track (lines 396-402). *)
Definition moveTo (existingPerson : TrackedPerson) (b : BBox) (cx cy : R) (now : Z)
    : TrackedPerson :=
  mkTrackedPerson (id existingPerson) b cx cy (centerY existingPerson) now
    (crossed existingPerson) (direction existingPerson)
    (framesSinceCrossing existingPerson).

(** The track of a detection that matched nothing (lines 460-471). *)
Definition newPerson (k : PersonId) (b : BBox) (cx cy : R) (now : Z)
    : TrackedPerson :=
  mkTrackedPerson k b cx cy cy now false None 0.

Definition detCenterX (detection : Detection) : R :=
  bx (d_bbox detection) + bw (d_bbox detection) / 2.
Definition detCenterY (detection : Detection) : R :=
  by_ (d_bbox detection) + bh (d_bbox detection) / 2.

(** The body of [sortedDetections.forEach] (lines 383-477). *)
Definition processDetection (crossingLineY : R) (st : FrameState)
    (detection : Detection) : FrameState :=
  let w := fs_world st in
  let cx := detCenterX detection in
  let cy := detCenterY detection in
  match findClosestPerson (trackedPeople w) (d_bbox detection) cx cy with
  | Some existingPerson =>
      if negb (set_has (matchedPeople st) (id existingPerson)) then
        let previousCenterX := centerX existingPerson in
        let moved :=
          moveTo existingPerson (d_bbox detection) cx cy (clock (clockReads w)) in
        let '(person, ev) := checkCrossing crossingLineY previousCenterX moved in
        mkFrameState
          (mkWorld (map_set (trackedPeople w) person)
                   (S (clockReads w)) (randomDraws w))
          (set_add (matchedPeople st) (id existingPerson))
          (countEvent ev dir_in (countIn st))
          (countEvent ev dir_out (countOut st))
          (logEvent (id existingPerson) ev (fs_events st))
      else st
  | None =>
      let k := mkPersonId (clock (clockReads w)) (random (randomDraws w)) in
      let person :=
        newPerson k (d_bbox detection) cx cy (clock (S (clockReads w))) in
      mkFrameState
        (mkWorld (map_set (trackedPeople w) person)
                 (S (S (clockReads w))) (S (randomDraws w)))
        (set_add (matchedPeople st) k)
        (countIn st) (countOut st) (fs_events st)
  end.

Definition associate (crossingLineY : R) (sortedDetections : list Detection)
    (w : World) : FrameState :=
  fold_left (processDetection crossingLineY) sortedDetections
            (mkFrameState w [] 0%nat 0%nat []).

(** The first loop of the removal (lines 480-488): one clock read for each
    track that was not matched. *)
Fixpoint collectUnmatched (matched : list PersonId) (m : Registry) (reads : nat)
    : list PersonId * nat :=
  match m with
  | [] => ([], reads)
  | person :: rest =>
      if set_has matched (id person) then collectUnmatched matched rest reads
      else
        let timeSinceLastSeen := (clock reads - lastSeen person)%Z in
        let '(ids, reads') := collectUnmatched matched rest (S reads) in
        if (timeSinceLastSeen >? GRACE_PERIOD)%Z
        then (id person :: ids, reads') else (ids, reads')
  end.

(** The second loop (lines 490-496). *)
Definition deleteAll (m : Registry) (ids : list PersonId) : Registry :=
  fold_left (fun m' k => match map_get m' k with
                         | Some _ => map_delete m' k
                         | None => m'
                         end) ids m.

Definition removeUnmatched (matched : list PersonId) (w : World) : World :=
  let '(unmatchedPeople, reads) :=
    collectUnmatched matched (trackedPeople w) (clockReads w) in
  mkWorld (deleteAll (trackedPeople w) unmatchedPeople) reads (randomDraws w).

(** The world in which the association loop starts: after [detectPeople],
    [cleanupTrackedPeople] and the cooldown pass. *)
Definition beforeAssociation (predictions : list Detection) (w : World) : World :=
  cooldownPass (cleanupTrackedPeople (snd (detectPeople predictions w))).

Definition frameState (predictions : list Detection) (frameHeight : R) (w : World)
    : FrameState :=
  associate (frameHeight * CROSSING_LINE_POSITION)
            (sortByScore (detections (fst (detectPeople predictions w))))
            (beforeAssociation predictions w).

(** [detectPeopleWithCrossing] (lines 344-512): the returned object, the
    state it leaves and the events it counted. *)
Definition detectPeopleWithCrossing (predictions : list Detection)
    (frameHeight : R) (w : World) : FrameOutput * World * list Event :=
  let result := fst (detectPeople predictions w) in
  let st := frameState predictions frameHeight w in
  (mkFrameOutput (detections result) (peopleCount result)
     (countIn st) (countOut st),
   removeUnmatched (matchedPeople st) (fs_world st),
   fs_events st).

(** [resetTracking] (lines 602-604). *)
Definition resetTracking (w : World) : World := withRegistry w [].

(** A run of frames, each given by the predictions of the model and the frame
    height; the events of each frame are kept apart. *)
Fixpoint run (frames : list (list Detection * R)) (w : World)
    : World * list (list Event) :=
  match frames with
  | [] => (w, [])
  | (predictions, frameHeight) :: rest =>
      let '(_, w', evs) := detectPeopleWithCrossing predictions frameHeight w in
      let '(w'', log) := run rest w' in
      (w'', evs :: log)
  end.

End Tracker.

(** ** Notions used to state the properties *)

Definition isEntering (e : Event) : bool :=
  match ev_dir e with dir_in => true | dir_out => false end.

Definition isExiting (e : Event) : bool :=
  match ev_dir e with dir_in => false | dir_out => true end.

(** The events of a log that name the track [k]. *)
Definition eventsOf (k : PersonId) (log : list Event) : list Event :=
  filter (fun e => id_eqb (ev_id e) k) log.

(** The crossing state of a track is consistent: out of cooldown it has no
    direction and a zero counter, in cooldown it has a direction, and the
    counter is below the cooldown window. *)
Definition crossingStateOk (person : TrackedPerson) : Prop :=
  (crossed person = false ->
   framesSinceCrossing person = 0%nat /\ direction person = None)
  /\ (crossed person = true ->
      direction person = Some dir_in \/ direction person = Some dir_out)
  /\ (framesSinceCrossing person < CROSSING_COOLDOWN)%nat.

(** What holds of the locals of the association loop, whatever detections
    were processed so far; [reg0] is the registry the loop started with. *)
Record assocInv (reg0 : Registry) (st : FrameState) : Prop := mkAssocInv {
  (* a track that is not claimed is as it was when the loop started *)
  inv_unclaimed_old :
    forall q, In q (trackedPeople (fs_world st)) ->
              set_has (matchedPeople st) (id q) = false -> In q reg0;
  inv_unclaimed_kept :
    forall p, In p reg0 -> set_has (matchedPeople st) (id p) = false ->
              In p (trackedPeople (fs_world st));
  inv_claimed_present :
    forall k, In k (matchedPeople st) -> In k (keys (trackedPeople (fs_world st)));
  inv_keys_kept :
    forall k, In k (keys reg0) -> In k (keys (trackedPeople (fs_world st)));
  (* every event names a claimed track that was there, out of cooldown *)
  inv_events_claimed :
    forall e, In e (fs_events st) -> In (ev_id e) (matchedPeople st);
  inv_events_old :
    forall e, In e (fs_events st) ->
              exists p, In p reg0 /\ id p = ev_id e /\ crossed p = false;
  inv_events_nodup : NoDup (map ev_id (fs_events st));
  inv_countIn : countIn st = List.length (filter isEntering (fs_events st));
  inv_countOut : countOut st = List.length (filter isExiting (fs_events st))
}.

(** Every track stored under the key [k] is in cooldown, with counter [c]
    and direction [d]. *)
Definition coolingAt (k : PersonId) (c : nat) (d : option Direction)
    (m : Registry) : Prop :=
  forall q, In q m -> id q = k ->
            crossed q = true /\ framesSinceCrossing q = c /\ direction q = d.

(** No draw of [random] from the [n]-th on gives the suffix of [k]. *)
Definition notRedrawn (random : nat -> string) (k : PersonId) (n : nat) : Prop :=
  forall j, (n <= j)%nat -> random j <> id_suffix k.

(** The order [sortedDetections] is in: no later detection is more confident. *)
Definition byScoreDesc (a b : Detection) : Prop := d_score a >= d_score b.

(** The track [p] has the key [k] and the box and centre of the detection
    [d]: what a track is for [findClosestPerson] once [d] has claimed it. *)
Definition placedAs (p : TrackedPerson) (k : PersonId) (d : Detection) : Prop :=
  id p = k /\ bbox p = d_bbox d
  /\ centerX p = detCenterX d /\ centerY p = detCenterY d.

(** ** Instances

    A clock that stands at 1000 ms, one that stands at 1500 ms, a random
    source, and the tracks and detections of the examples: boxes are 40 by 40
    and the frame height is 200, so that the line is at y = 100. *)

Definition clock0 : nat -> Z := fun _ => 1000%Z.
Definition clockLate : nat -> Z := fun _ => 1500%Z.
Definition random0 : nat -> string := fun _ => "x7k2m9q4z"%string.

(** A clock that advances by 100 ms at every read, from 1000 ms on. *)
Definition clockTick : nat -> Z := fun j => (1000 + 100 * Z.of_nat j)%Z.

(** A track last seen at 900 ms with its centre at (100, 40). *)
Definition walker : TrackedPerson :=
  mkTrackedPerson (mkPersonId 900 "a1b2c3d4e") (mkBBox 80 20 40 40)
    100 40 40 900 false None 0.

(** Detections centred at (100, 120), at (100, 122) and at (620, 40). *)
Definition seenBelow : Detection :=
  mkDetection (mkBBox 80 100 40 40) "person" 0.9.
Definition seenBelowAgain : Detection :=
  mkDetection (mkBBox 80 102 40 40) "person" 0.8.
Definition seenFarRight : Detection :=
  mkDetection (mkBBox 600 20 40 40) "person" 0.9.

Definition world1 : World := mkWorld [walker] 0 0.

(** A track with its centre at (100, 98) and a detection at (100, 102). *)
Definition loiterer : TrackedPerson :=
  mkTrackedPerson (mkPersonId 900 "a1b2c3d4e") (mkBBox 80 78 40 40)
    100 98 98 900 false None 0.
Definition nudged : Detection :=
  mkDetection (mkBBox 80 82 40 40) "person" 0.9.

(** A detection whose box has no area, and the key of its track. *)
Definition speck : Detection := mkDetection (mkBBox 5 5 0 0) "person" 0.9.
Definition speckId : PersonId := mkPersonId 900 "k3l4m5n6o".

(** Two people 500 pixels apart: A goes from y = 30 to y = 130, B from
    y = 170 to y = 60. *)
Definition personA : TrackedPerson :=
  mkTrackedPerson (mkPersonId 900 "a1b2c3d4e") (mkBBox 80 10 40 40)
    100 30 30 900 false None 0.
Definition personB : TrackedPerson :=
  mkTrackedPerson (mkPersonId 900 "f5g6h7i8j") (mkBBox 580 150 40 40)
    600 170 170 900 false None 0.
Definition seenA : Detection :=
  mkDetection (mkBBox 80 110 40 40) "person" 0.9.
Definition seenB : Detection :=
  mkDetection (mkBBox 580 40 40 40) "person" 0.8.
(** The frame before: the two people are detected for the first time.  The
    clock reads 900 ms during that frame (six reads) and 1000 ms afterwards;
    the two draws of the random source differ. *)
Definition firstA : Detection :=
  mkDetection (mkBBox 80 10 40 40) "person" 0.9.
Definition firstB : Detection :=
  mkDetection (mkBBox 580 150 40 40) "person" 0.8.
Definition clockAB : nat -> Z :=
  fun k => if (k <? 6)%nat then 900%Z else 1000%Z.
Definition randomAB : nat -> string :=
  fun k => match k with
           | O => "a1b2c3d4e"%string
           | S _ => "f5g6h7i8j"%string
           end.
Definition world2 : World := mkWorld [personA; personB] 6 2.

(** The same two people 200 pixels apart: B at (300, 170), then at (300, 60). *)
Definition nearB1 : Detection :=
  mkDetection (mkBBox 280 150 40 40) "person" 0.8.
Definition nearB2 : Detection :=
  mkDetection (mkBBox 280 40 40 40) "person" 0.8.

(** ** Further notions *)

(** The detection has the confidence [c]. *)
Definition sameScore (c : R) (d : Detection) : bool :=
  if Req_dec_T (d_score d) c then true else false.

(** A track with the position of the walker under another key. *)
Definition walkerTwin : TrackedPerson :=
  mkTrackedPerson (mkPersonId 900 "p7q8r9s0t") (mkBBox 80 20 40 40)
    100 40 40 900 false None 0.


(** The stored centre of the track is the centre of its stored box. *)
Definition centred (person : TrackedPerson) : Prop :=
  centerX person = bx (bbox person) + bw (bbox person) / 2
  /\ centerY person = by_ (bbox person) + bh (bbox person) / 2.

(** The walker after it was counted entering at (100, 120). *)
Definition walkerCounted : TrackedPerson :=
  mkTrackedPerson (mkPersonId 900 "a1b2c3d4e") (mkBBox 80 100 40 40)
    100 120 40 1000 true (Some dir_in) 0.

(** The track reflected in the horizontal line at [lineY], and the opposite
    direction. *)
Definition mirrored (lineY : R) (person : TrackedPerson) : TrackedPerson :=
  mkTrackedPerson (id person)
    (mkBBox (bx (bbox person))
       (2 * lineY - by_ (bbox person) - bh (bbox person))
       (bw (bbox person)) (bh (bbox person)))
    (centerX person) (2 * lineY - centerY person) (2 * lineY - previousY person)
    (lastSeen person) (crossed person) (direction person)
    (framesSinceCrossing person).

Definition opposite (d : Direction) : Direction :=
  match d with dir_in => dir_out | dir_out => dir_in end.

(** Through the frames of a run, the cleanup keeps the track under the key
    [k], and in each frame a detection claims it or the removal pass finds it
    within the grace period. *)
Fixpoint keptAlive (clock : nat -> Z) (random : nat -> string) (k : PersonId)
    (frames : list (list Detection * R)) (w : World) : Prop :=
  match frames with
  | [] => True
  | (predictions, frameHeight) :: rest =>
      let st := frameState clock random predictions frameHeight w in
      let w' := snd (fst (detectPeopleWithCrossing clock random predictions
                                                   frameHeight w)) in
      (forall p, In p (trackedPeople w) -> id p = k ->
         (clock (S (clockReads w)) - lastSeen p <= TRACKING_TIMEOUT)%Z
         /\ (In k (matchedPeople st)
             \/ forall j, (clockReads (fs_world st) <= j < clockReads w')%nat ->
                          (clock j - lastSeen p <= GRACE_PERIOD)%Z))
      /\ keptAlive clock random k rest w'
  end.

(** ** The overlay (lines 517-597)

    What [drawDetections] does to the 2D context of the canvas, as the list
    of the calls it makes and the properties it sets, in order. *)

Record Canvas : Type := mkCanvas {
  canvas_width : R;
  canvas_height : R;
  (* [getContext('2d')] returns a context *)
  canvas_context : bool
}.

Inductive CanvasOp : Type :=
| op_clearRect (x y w h : R)
| op_fillStyle (style : string)
| op_strokeStyle (style : string)
| op_lineWidth (n : R)
| op_setLineDash (segments : list R)
| op_font (f : string)
| op_fillRect (x y w h : R)
| op_beginPath
| op_moveTo (x y : R)
| op_lineTo (x y : R)
| op_stroke
| op_strokeText (text : string) (x y : R)
| op_fillText (text : string) (x y : R).

Definition CROSSING_THRESHOLD_PERCENT : R := 0.18.

Definition drawDetections (canvas : Canvas) (detections : list Detection)
    (showCrossingLine : bool) : list CanvasOp :=
  if negb (canvas_context canvas) then []
  else
    op_clearRect 0 0 (canvas_width canvas) (canvas_height canvas)
    :: if showCrossingLine then
         let lineY := canvas_height canvas * CROSSING_LINE_POSITION in
         let thresholdZone := canvas_height canvas * CROSSING_THRESHOLD_PERCENT in
         [ op_fillStyle "rgba(239, 68, 68, 0.15)";
           op_fillRect 0 0 (canvas_width canvas) (lineY - thresholdZone);
           op_fillStyle "rgba(59, 130, 246, 0.2)";
           op_fillRect 0 (lineY - thresholdZone) (canvas_width canvas)
             (thresholdZone * 2);
           op_fillStyle "rgba(34, 197, 94, 0.15)";
           op_fillRect 0 (lineY + thresholdZone) (canvas_width canvas)
             (canvas_height canvas - (lineY + thresholdZone));
           op_strokeStyle "rgba(59, 130, 246, 0.5)";
           op_lineWidth 1;
           op_setLineDash [5; 3];
           op_beginPath;
           op_moveTo 0 (lineY - thresholdZone);
           op_lineTo (canvas_width canvas) (lineY - thresholdZone);
           op_stroke;
           op_beginPath;
           op_moveTo 0 (lineY + thresholdZone);
           op_lineTo (canvas_width canvas) (lineY + thresholdZone);
           op_stroke;
           op_setLineDash [];
           op_strokeStyle "#3b82f6";
           op_lineWidth 4;
           op_setLineDash [15; 8];
           op_beginPath;
           op_moveTo 0 lineY;
           op_lineTo (canvas_width canvas) lineY;
           op_stroke;
           op_setLineDash [];
           op_fillStyle "#ffffff";
           op_strokeStyle "#000000";
           op_lineWidth 3;
           op_font "bold 18px Arial";
           op_strokeText "↑ EXIT ZONE" (canvas_width canvas - 150)
             (lineY - thresholdZone - 15);
           op_fillStyle "#ef4444";
           op_fillText "↑ EXIT ZONE" (canvas_width canvas - 150)
             (lineY - thresholdZone - 15);
           op_fillStyle "#ffffff";
           op_strokeText "↓ ENTRY ZONE" (canvas_width canvas - 150)
             (lineY + thresholdZone + 30);
           op_fillStyle "#22c55e";
           op_fillText "↓ ENTRY ZONE" (canvas_width canvas - 150)
             (lineY + thresholdZone + 30);
           op_font "bold 16px Arial";
           op_fillStyle "#ffffff";
           op_strokeText "CROSSING LINE" 15 (lineY - 10);
           op_fillStyle "#3b82f6";
           op_fillText "CROSSING LINE" 15 (lineY - 10) ]
       else [].

(** ** Errors of the backend (lines 71-89; Analytics.tsx, lines 638-650) *)

(** An error object: its [message], [code] and [status], each possibly
    absent. *)
Record ErrorObj : Type := mkErrorObj {
  err_message : option string;
  err_code : option string;
  err_status : option Z
}.

(** [String.prototype.toLowerCase] on the letters A to Z; other characters
    are left as they are. *)
Definition toLowerAscii (c : Ascii.ascii) : Ascii.ascii :=
  let n := Ascii.nat_of_ascii c in
  if ((65 <=? n) && (n <=? 90))%nat then Ascii.ascii_of_nat (n + 32) else c.

Fixpoint toLowerCase (s : string) : string :=
  match s with
  | EmptyString => EmptyString
  | String c rest => String (toLowerAscii c) (toLowerCase rest)
  end.

Definition includes (s sub : string) : bool :=
  match String.index 0 sub s with Some _ => true | None => false end.

Definition codeIs (e : ErrorObj) (c : string) : bool :=
  match err_code e with Some c' => String.eqb c' c | None => false end.

Definition statusIs (e : ErrorObj) (n : Z) : bool :=
  match err_status e with Some n' => (n' =? n)%Z | None => false end.

(** [error.message?.toLowerCase() || ''] *)
Definition lowerMessage (e : ErrorObj) : string :=
  match err_message e with Some m => toLowerCase m | None => "" end.

(** The argument is [None] for a value that is not an object. *)
Definition isInvalidKeyError (error : option ErrorObj) : bool :=
  match error with
  | Some err =>
      let message := lowerMessage err in
      includes message "invalid api key"
      || includes message "invalid key"
      || includes message "api key"
      || includes message "could not find the table"
      || includes message "relation" && includes message "does not exist"
      || includes message "schema cache"
      || codeIs err "PGRST116"
      || statusIs err 401
      || statusIs err 403
      || statusIs err 404
  | None => false
  end.

Definition isTableError (err : option ErrorObj) : bool :=
  match err with
  | Some error =>
      let message := lowerMessage error in
      includes message "could not find the table"
      || includes message "schema cache"
      || includes message "relation" && includes message "does not exist"
      || codeIs error "PGRST116"
  | None => false
  end.

(** ** The live feed (Analytics.tsx, lines 367-705) *)

Inductive VideoSource : Type := webcam | upload | stream.

(** A video element: its dimensions, whether it is paused, and what the
    model predicts on its current frame. *)
Record VideoElement : Type := mkVideoElement {
  videoHeight : R;
  videoWidth : R;
  paused : bool;
  currentPredictions : list Detection
}.

(** What a call of [runDetection] finds in the state and the refs of the
    component. *)
Record Env : Type := mkEnv {
  videoSource : VideoSource;
  (* [webcamRef.current && webcamRef.current.video] *)
  webcamVideo : option VideoElement;
  videoRef : option VideoElement;
  canvasRef : option Canvas;
  selectedCamera : option string
}.

(** The three refs, the three state variables that are displayed, and the
    state of the tracking module. *)
Record Feed : Type := mkFeed {
  countInRef : Z;
  countOutRef : Z;
  totalCountRef : Z;
  countInShown : Z;
  countOutShown : Z;
  totalCountShown : Z;
  tracking : World
}.

Inductive Effect : Type :=
| eff_play
| eff_draw (ops : list CanvasOp)
| eff_logCount (currentCountIn currentCountOut currentTotal : Z).

(** A string or [null] used as a condition. *)
Definition truthy (s : option string) : bool :=
  match s with
  | Some s' => negb (String.eqb s' "")
  | None => false
  end.

Definition pickVideo (env : Env) : option VideoElement :=
  match videoSource env, webcamVideo env with
  | webcam, Some video => Some video
  | webcam, None => None
  | _, _ => videoRef env
  end.

Definition isZero (x : R) : bool := if Req_dec_T x 0 then true else false.

Definition fromFile (source : VideoSource) : bool :=
  match source with webcam => false | upload | stream => true end.

(** The update of the refs from the result of a frame (lines 515-524). *)
Definition applyResult (result : FrameOutput) (s : Feed) : Feed :=
  let cIn := Z.of_nat (out_countIn result) in
  let cOut := Z.of_nat (out_countOut result) in
  let s1 :=
    if (cIn >? 0)%Z then
      mkFeed (countInRef s + cIn) (countOutRef s) (totalCountRef s + cIn)
        (countInShown s) (countOutShown s) (totalCountShown s) (tracking s)
    else s in
  if (cOut >? 0)%Z then
    mkFeed (countInRef s1) (countOutRef s1 + cOut)
      (Z.max 0 (totalCountRef s1 - cOut))
      (countInShown s1) (countOutShown s1) (totalCountShown s1) (tracking s1)
  else s1.

(** [setCountIn], [setCountOut] and [setTotalCount] with the refs. *)
Definition display (s : Feed) : Feed :=
  mkFeed (countInRef s) (countOutRef s) (totalCountRef s)
    (countInRef s) (countOutRef s) (totalCountRef s) (tracking s).

Section LiveFeed.

Variable clock : nat -> Z.
Variable random : nat -> string.

(** [runDetection] (lines 476-545), the model being loaded. *)
Definition runDetection (env : Env) (s : Feed) : Feed * list Effect :=
  match pickVideo env with
  | None => (s, [])
  | Some videoElement =>
      let frameHeight := videoHeight videoElement in
      let frameWidth := videoWidth videoElement in
      if isZero frameHeight || isZero frameWidth then (s, [])
      else if fromFile (videoSource env) && paused videoElement then (s, [eff_play])
      else
        let '(result, w', _) :=
          detectPeopleWithCrossing clock random
            (currentPredictions videoElement) frameHeight (tracking s) in
        let s1 := applyResult result s in
        let s2 := display s1 in
        let s3 :=
          mkFeed (countInRef s2) (countOutRef s2) (totalCountRef s2)
            (countInShown s2) (countOutShown s2) (totalCountShown s2) w' in
        let drawn :=
          match canvasRef env with
          | Some canvas =>
              [eff_draw (drawDetections
                           (mkCanvas frameWidth frameHeight (canvas_context canvas))
                           (out_detections result) true)]
          | None => []
          end in
        let logged :=
          if ((Z.of_nat (out_countIn result) >? 0)%Z
              || (Z.of_nat (out_countOut result) >? 0)%Z)
             && truthy (selectedCamera env)
          then [eff_logCount (countInRef s3) (countOutRef s3) (totalCountRef s3)]
          else [] in
        (s3, (drawn ++ logged)%list)
  end.

(** [resetCount] (lines 689-705), with what it does to the canvas. *)
Definition resetCount (canvas : option Canvas) (s : Feed) : Feed * list CanvasOp :=
  (mkFeed 0 0 0 0 0 0 (resetTracking (tracking s)),
   match canvas with
   | Some c =>
       if canvas_context c
       then [op_clearRect 0 0 (canvas_width c) (canvas_height c)]
       else []
   | None => []
   end).

(** The calls of [runDetection] one after the other, each call finding the
    component as [envs] has it. *)
Definition runFeed (envs : list Env) (s : Feed) : Feed :=
  fold_left (fun s' env => fst (runDetection env s')) envs s.

End LiveFeed.

(** ** Logging a count (Analytics.tsx, lines 620-687) *)

Record CountLog : Type := mkCountLog {
  camera_id : string;
  count_in : Z;
  count_out : Z;
  total_count : Z
}.

Record Setting : Type := mkSetting {
  threshold_limit : Z;
  alert_enabled : bool
}.

Record Alert : Type := mkAlert {
  alert_camera_id : string;
  count_value : Z;
  threshold_value : Z
}.

(** What awaiting a request gives: the object with [data] and [error], or an
    exception. *)
Inductive Response (A : Type) : Type :=
| resolved (data : option A) (error : option ErrorObj)
| thrown.
Arguments resolved {A} data error.
Arguments thrown {A}.

(** The three requests [logCount] makes of the client. *)
Record Client : Type := mkClient {
  insertCountLog : CountLog -> Response unit;
  selectSettings : string -> Response Setting;
  insertAlert : Alert -> Response unit
}.

(** The client [createMockClient] builds (lines 7-68): every insertion and
    every [maybeSingle] resolves to [{ data: null, error: null }]. *)
Definition createMockClient : Client :=
  mkClient (fun _ => resolved None None)
           (fun _ => resolved None None)
           (fun _ => resolved None None).

(** An item of the local storage, as the code takes what
    [localStorage.getItem] gives: nothing ([null], or the empty string), the
    text of a JSON array, or any other text, on which [JSON.parse] or the
    array method applied to its result throws. *)
Inductive Item (A : Type) : Type :=
| item_absent
| item_array (l : list A)
| item_malformed.
Arguments item_absent {A}.
Arguments item_array {A} l.
Arguments item_malformed {A}.

(** The item [people_counter_count_logs]; the values of it that
    [localStorage.setItem] accepts (it throws when the quota is exceeded or
    the storage is disabled); and the alerts that were inserted. *)
Record Stores : Type := mkStores {
  storedLogs : Item CountLog;
  accepts : list CountLog -> bool;
  alerts : list Alert
}.

(** [existingLogs.slice(-n)] *)
Definition slice_last {A : Type} (n : nat) (l : list A) : list A :=
  skipn (List.length l - n) l.

(** Reading the item, parsing it, pushing the log and writing the last 1000
    back (lines 654-658, 661-664 and 682-685): [None] when [JSON.parse],
    [push] or [setItem] throws, in which case nothing is written. *)
Definition storeLog (countLog : CountLog) (st : Stores) : option Stores :=
  let parsed :=
    match storedLogs st with
    | item_absent => Some []
    | item_array l => Some l
    | item_malformed => None
    end in
  match parsed with
  | Some existingLogs =>
      let logs := slice_last 1000 (existingLogs ++ [countLog])%list in
      if accepts st logs
      then Some (mkStores (item_array logs) (accepts st) (alerts st))
      else None
  | None => None
  end.

(** How the promise of an [async] function settles, with the state it
    leaves. *)
Inductive Settled : Type :=
| fulfilled (st : Stores)
| rejected (st : Stores).

Definition stateOf (outcome : Settled) : Stores :=
  match outcome with fulfilled st | rejected st => st end.

(** The [catch] block (lines 680-686), entered in the state [st]: it writes
    the log, and what it throws rejects the promise. *)
Definition catchBlock (countLog : CountLog) (st : Stores) : Settled :=
  match storeLog countLog st with
  | Some st' => fulfilled st'
  | None => rejected st
  end.

(** The rest of the [try] block, after the insertion of the log left [st1]:
    the settings are read and the alert is inserted (lines 667-679). *)
Definition afterInsertion (supabase : Client) (camera : string)
    (countLog : CountLog) (currentTotal : Z) (st1 : Stores) : Settled :=
  match selectSettings supabase camera with
  | thrown => catchBlock countLog st1
  | resolved None _ => fulfilled st1
  | resolved (Some settings) _ =>
      if alert_enabled settings && (currentTotal >? threshold_limit settings)%Z
      then
        let alert := mkAlert camera currentTotal (threshold_limit settings) in
        match insertAlert supabase alert with
        | thrown => catchBlock countLog st1
        | resolved _ _ =>
            fulfilled (mkStores (storedLogs st1) (accepts st1)
                         (alerts st1 ++ [alert])%list)
        end
      else fulfilled st1
  end.

Definition logCount (supabase : Client) (selectedCamera : option string)
    (currentCountIn currentCountOut currentTotal : Z) (st : Stores) : Settled :=
  match selectedCamera with
  | None => fulfilled st
  | Some camera =>
      if String.eqb camera "" then fulfilled st
      else
        let countLog :=
          mkCountLog camera currentCountIn currentCountOut currentTotal in
        match insertCountLog supabase countLog with
        | thrown => catchBlock countLog st
        | resolved _ error =>
            let written :=
              match error with
              | Some err =>
                  if isTableError (Some err) then storeLog countLog st
                  else Some st
              | None => storeLog countLog st
              end in
            match written with
            | Some st1 => afterInsertion supabase camera countLog currentTotal st1
            | None => catchBlock countLog st
            end
        end
  end.

(** What the refs satisfy, and that the counts shown are the refs. *)
Definition countersOk (s : Feed) : Prop :=
  (0 <= countOutRef s)%Z
  /\ (0 <= totalCountRef s <= countInRef s)%Z
  /\ (countInRef s - countOutRef s <= totalCountRef s)%Z
  /\ countInShown s = countInRef s
  /\ countOutShown s = countOutRef s
  /\ totalCountShown s = totalCountRef s.

(** What the webcam shows in the examples: the frame, 300 by 200, in which
    the walker is seen below the line; a paused upload of the same frame; and
    a feed that tracks the walker. *)
Definition webcamFrame : VideoElement :=
  mkVideoElement 200 300 false [seenBelow].
Definition webcamEnv : Env :=
  mkEnv webcam (Some webcamFrame) None (Some (mkCanvas 0 0 true))
    (Some "demo-camera"%string).
Definition pausedUploadEnv : Env :=
  mkEnv upload None (Some (mkVideoElement 200 300 true [seenBelow])) None
    (Some "demo-camera"%string).
Definition feed1 : Feed := mkFeed 0 0 0 0 0 0 world1.

(** A client whose insertions are rejected, for the examples. *)
Definition rejectingClient : Client :=
  mkClient
    (fun _ => resolved None
                (Some (mkErrorObj (Some "permission denied"%string)
                         (Some "42501"%string) (Some 403%Z))))
    (fun _ => resolved None None)
    (fun _ => resolved None None).

(** ** Loading the cameras (Analytics.tsx, lines 407-451) *)

(** A camera as the component keeps it, and as the local storage has it. *)
Record CameraChoice : Type := mkCameraChoice {
  choice_id : string;
  choice_name : string
}.

Record StoredCamera : Type := mkStoredCamera {
  stored_id : string;
  stored_name : string;
  is_active : bool
}.

Definition demoCamera : CameraChoice :=
  mkCameraChoice "demo-camera" "Demo Camera".

(** What the [else] branch and the [catch] block both do with the item
    [people_counter_cameras]: the active cameras of it, or else the demo
    camera; [None] when [JSON.parse] or [filter] throws. *)
Definition camerasFromStorage (stored : Item StoredCamera)
    : option (list CameraChoice * option string) :=
  match stored with
  | item_malformed => None
  | item_absent => Some ([demoCamera], Some (choice_id demoCamera))
  | item_array storedCameras =>
      let activeCameras :=
        map (fun cam => mkCameraChoice (stored_id cam) (stored_name cam))
            (filter is_active storedCameras) in
      match activeCameras with
      | first :: _ => Some (activeCameras, Some (choice_id first))
      | [] => Some ([demoCamera], Some (choice_id demoCamera))
      end
  end.

(** [loadCameras]: the state [cameras] and [selectedCamera] it sets, given
    what the request for the active cameras gives and the item of the local
    storage; [None] when it rejects, having set nothing: an exception in the
    [else] branch enters the [catch] block, which parses the item again. *)
Definition loadCameras (response : Response (list CameraChoice))
    (stored : Item StoredCamera) : option (list CameraChoice * option string) :=
  match response with
  | resolved (Some (first :: rest)) None =>
      Some (first :: rest, Some (choice_id first))
  | resolved _ _ => camerasFromStorage stored
  | thrown => camerasFromStorage stored
  end.

(** * Properties *)

(** ** Booleans and identifiers *)

Lemma Rlt_b_true (x y : R) : Rlt_b x y = true <-> x < y.
Proof. unfold Rlt_b; destruct (Rlt_dec x y); split; intros; try easy. Qed.

Lemma Rlt_b_false (x y : R) : Rlt_b x y = false <-> y <= x.
Proof.
  unfold Rlt_b; destruct (Rlt_dec x y); split; intros; try easy; lra.
Qed.

Lemma Rgt_b_true (x y : R) : Rgt_b x y = true <-> x > y.
Proof. unfold Rgt_b; rewrite Rlt_b_true; lra. Qed.

Lemma Rgt_b_false (x y : R) : Rgt_b x y = false <-> x <= y.
Proof. unfold Rgt_b; rewrite Rlt_b_false; lra. Qed.

Lemma Rge_b_true (x y : R) : Rge_b x y = true <-> x >= y.
Proof. unfold Rge_b; destruct (Rge_dec x y); split; intros; try easy. Qed.

Lemma Rge_b_false (x y : R) : Rge_b x y = false <-> x < y.
Proof.
  unfold Rge_b; destruct (Rge_dec x y); split; intros; try easy; lra.
Qed.

Lemma num_div_nonzero (a b : R) : b <> 0 -> num_div a b = Fin (a / b).
Proof. intros Hb; unfold num_div; destruct (Req_dec_T b 0); easy. Qed.

Lemma num_div_zero_zero (a b : R) : a = 0 -> b = 0 -> num_div a b = NaN.
Proof.
  intros Ha Hb; unfold num_div.
  destruct (Req_dec_T b 0); [| easy]. destruct (Req_dec_T a 0); easy.
Qed.

Lemma num_div_neg_zero (a b : R) : a < 0 -> b = 0 -> num_div a b = NegInf.
Proof.
  intros Ha Hb; unfold num_div.
  destruct (Req_dec_T b 0); [| easy].
  destruct (Req_dec_T a 0); [lra |]. destruct (Rlt_dec 0 a); [lra | easy].
Qed.

(** Evaluation of comparisons, [Rmin] and [Rmax] whose operands [lra] can
    order. *)
Ltac eval_real :=
  repeat match goal with
  | |- context [Rmin ?a ?b] =>
      first [rewrite (Rmin_left a b) by lra | rewrite (Rmin_right a b) by lra]
  | |- context [Rmax ?a ?b] =>
      first [rewrite (Rmax_left a b) by lra | rewrite (Rmax_right a b) by lra]
  | |- context [Rlt_b ?a ?b] =>
      first [rewrite (proj2 (Rlt_b_true a b)) by lra
            | rewrite (proj2 (Rlt_b_false a b)) by lra]
  | |- context [Rgt_b ?a ?b] =>
      first [rewrite (proj2 (Rgt_b_true a b)) by lra
            | rewrite (proj2 (Rgt_b_false a b)) by lra]
  | |- context [Rge_b ?a ?b] =>
      first [rewrite (proj2 (Rge_b_true a b)) by lra
            | rewrite (proj2 (Rge_b_false a b)) by lra]
  | |- context [num_div ?a ?b] =>
      first [rewrite (num_div_nonzero a b) by lra
            | rewrite (num_div_zero_zero a b) by lra
            | rewrite (num_div_neg_zero a b) by lra]
  | |- context [Rabs ?a] =>
      first [rewrite (Rabs_pos_eq a) by lra | rewrite (Rabs_left a) by lra]
  end.

(** ** Geometry *)

Lemma calculateDistance_eq (x1 y1 x2 y2 d : R) :
  0 <= d -> (x2 - x1) ^ 2 + (y2 - y1) ^ 2 = d * d ->
  calculateDistance x1 y1 x2 y2 = d.
Proof.
  intros Hd Hs. unfold calculateDistance. rewrite Hs. now apply sqrt_square.
Qed.

Lemma calculateDistance_nonneg (x1 y1 x2 y2 : R) :
  0 <= calculateDistance x1 y1 x2 y2.
Proof. apply sqrt_pos. Qed.

Lemma calculateDistance_sqr (x1 y1 x2 y2 : R) :
  calculateDistance x1 y1 x2 y2 * calculateDistance x1 y1 x2 y2
  = (x2 - x1) ^ 2 + (y2 - y1) ^ 2.
Proof.
  unfold calculateDistance. apply sqrt_sqrt.
  pose proof (pow2_ge_0 (x2 - x1)). pose proof (pow2_ge_0 (y2 - y1)). lra.
Qed.

Lemma calculateDistance_gt (x1 y1 x2 y2 t : R) :
  0 <= t -> t * t < (x2 - x1) ^ 2 + (y2 - y1) ^ 2 ->
  calculateDistance x1 y1 x2 y2 > t.
Proof.
  intros Ht Hs.
  pose proof (calculateDistance_nonneg x1 y1 x2 y2) as Hd.
  pose proof (calculateDistance_sqr x1 y1 x2 y2) as Hq.
  rewrite <- Hq in Hs.
  set (d := calculateDistance x1 y1 x2 y2) in *.
  destruct (Rle_or_lt d t) as [Hle | Hlt]; [| exact Hlt].
  exfalso. assert (d * d <= t * t) by (apply Rmult_le_compat; lra). lra.
Qed.

Lemma calculateDistance_le (x1 y1 x2 y2 t : R) :
  0 <= t -> (x2 - x1) ^ 2 + (y2 - y1) ^ 2 <= t * t ->
  calculateDistance x1 y1 x2 y2 <= t.
Proof.
  intros Ht Hs.
  pose proof (calculateDistance_nonneg x1 y1 x2 y2) as Hd.
  pose proof (calculateDistance_sqr x1 y1 x2 y2) as Hq.
  rewrite <- Hq in Hs.
  set (d := calculateDistance x1 y1 x2 y2) in *.
  destruct (Rle_or_lt d t) as [Hle | Hlt]; [exact Hle |].
  exfalso. assert (t * t < d * d) by (apply Rmult_le_0_lt_compat; lra). lra.
Qed.

(** Within the tracking threshold, neither coordinate differs by more. *)
Lemma calculateDistance_le_inv (x1 y1 x2 y2 t : R) :
  0 <= t -> calculateDistance x1 y1 x2 y2 <= t ->
  Rabs (x2 - x1) <= t /\ Rabs (y2 - y1) <= t.
Proof.
  intros Ht Hle.
  pose proof (calculateDistance_nonneg x1 y1 x2 y2) as Hd.
  pose proof (calculateDistance_sqr x1 y1 x2 y2) as Hq.
  set (d := calculateDistance x1 y1 x2 y2) in *.
  set (a := x2 - x1) in *. set (b := y2 - y1) in *.
  assert (Hdd : d * d <= t * t) by (apply Rmult_le_compat; lra).
  replace (a ^ 2) with (a * a) in Hq by ring.
  replace (b ^ 2) with (b * b) in Hq by ring.
  pose proof (Rle_0_sqr a) as Ha. pose proof (Rle_0_sqr b) as Hb.
  unfold Rsqr in Ha, Hb.
  split; apply Rabs_le; split.
  - destruct (Rle_or_lt (- t) a); [easy | exfalso].
    assert (t * t < a * a) by nra. lra.
  - destruct (Rle_or_lt a t); [easy | exfalso].
    assert (t * t < a * a) by nra. lra.
  - destruct (Rle_or_lt (- t) b); [easy | exfalso].
    assert (t * t < b * b) by nra. lra.
  - destruct (Rle_or_lt b t); [easy | exfalso].
    assert (t * t < b * b) by nra. lra.
Qed.

(** After the overlap test, the extents of the intersection. *)
Lemma overlap_extent (a wa b wb : R) :
  Rlt_b (Rmin (a + wa) (b + wb)) (Rmax a b) = false ->
  0 <= Rmin (a + wa) (b + wb) - Rmax a b
  /\ Rmin (a + wa) (b + wb) - Rmax a b <= wa
  /\ Rmin (a + wa) (b + wb) - Rmax a b <= wb.
Proof.
  intros H. apply Rlt_b_false in H.
  pose proof (Rmin_l (a + wa) (b + wb)). pose proof (Rmin_r (a + wa) (b + wb)).
  pose proof (Rmax_l a b). pose proof (Rmax_r a b).
  repeat split; lra.
Qed.


(** A box of negative width or height is caught by the overlap test. *)
Lemma calculateIoU_negative_extent (b1 b2 : BBox) :
  bw b1 < 0 \/ bh b1 < 0 \/ bw b2 < 0 \/ bh b2 < 0 ->
  calculateIoU b1 b2 = Fin 0.
Proof.
  destruct b1 as [x1 y1 w1 h1], b2 as [x2 y2 w2 h2]; simpl.
  intros Hneg. unfold calculateIoU.
  pose proof (Rmin_l (x1 + w1) (x2 + w2)). pose proof (Rmin_r (x1 + w1) (x2 + w2)).
  pose proof (Rmax_l x1 x2). pose proof (Rmax_r x1 x2).
  pose proof (Rmin_l (y1 + h1) (y2 + h2)). pose proof (Rmin_r (y1 + h1) (y2 + h2)).
  pose proof (Rmax_l y1 y2). pose proof (Rmax_r y1 y2).
  destruct Hneg as [Hn | [Hn | [Hn | Hn]]].
  - rewrite (proj2 (Rlt_b_true _ _)) by lra. reflexivity.
  - rewrite (proj2 (Rlt_b_true (Rmin (y1 + h1) _) _)) by lra.
    now rewrite orb_true_r.
  - rewrite (proj2 (Rlt_b_true _ _)) by lra. reflexivity.
  - rewrite (proj2 (Rlt_b_true (Rmin (y1 + h1) _) _)) by lra.
    now rewrite orb_true_r.
Qed.

(** The division is [0 / 0] exactly when the overlap test passes and both
    boxes have zero area; it is never a non-zero number over zero. *)
Lemma calculateIoU_NaN_iff (b1 b2 : BBox) :
  calculateIoU b1 b2 = NaN <->
  Rmax (bx b1) (bx b2) <= Rmin (bx b1 + bw b1) (bx b2 + bw b2)
  /\ Rmax (by_ b1) (by_ b2) <= Rmin (by_ b1 + bh b1) (by_ b2 + bh b2)
  /\ bw b1 * bh b1 = 0 /\ bw b2 * bh b2 = 0.
Proof.
  destruct b1 as [x1 y1 w1 h1], b2 as [x2 y2 w2 h2]; simpl.
  unfold calculateIoU.
  destruct (Rlt_b (Rmin (x1 + w1) (x2 + w2)) (Rmax x1 x2)) eqn:Hx; simpl.
  { apply Rlt_b_true in Hx. split; [discriminate | lra]. }
  destruct (Rlt_b (Rmin (y1 + h1) (y2 + h2)) (Rmax y1 y2)) eqn:Hy; simpl.
  { apply Rlt_b_true in Hy. split; [discriminate | lra]. }
  destruct (overlap_extent _ _ _ _ Hx) as (Hdx0 & Hdx1 & Hdx2).
  destruct (overlap_extent _ _ _ _ Hy) as (Hdy0 & Hdy1 & Hdy2).
  apply Rlt_b_false in Hx, Hy.
  set (dx := Rmin (x1 + w1) (x2 + w2) - Rmax x1 x2) in *.
  set (dy := Rmin (y1 + h1) (y2 + h2) - Rmax y1 y2) in *.
  assert (Hi0 : 0 <= dx * dy) by (apply Rmult_le_pos; lra).
  assert (Hi1 : dx * dy <= w1 * h1) by (apply Rmult_le_compat; lra).
  assert (Hi2 : dx * dy <= w2 * h2) by (apply Rmult_le_compat; lra).
  unfold num_div.
  destruct (Req_dec_T (w1 * h1 + w2 * h2 - dx * dy) 0) as [Hu | Hu].
  - destruct (Req_dec_T (dx * dy) 0) as [Hi | Hi].
    + split; [intros _ | reflexivity]. repeat split; lra.
    + destruct (Rlt_dec 0 (dx * dy)); (split; [discriminate | lra]).
  - split; [discriminate |]. intros (_ & _ & H1 & H2). exfalso. apply Hu. lra.
Qed.

(** C8. The intersection over union of a box of zero area with itself is
    [0 / 0]: the overlap test lets it through and the union area is zero. *)
Theorem calculateIoU_zero_area_box_is_NaN :
  calculateIoU (mkBBox 5 5 0 0) (mkBBox 5 5 0 0) = NaN.
Proof.
  unfold calculateIoU. eval_real. reflexivity.
Qed.

(** ** The order on [number] *)

Ltac num_cases :=
  repeat match goal with
  | x : number |- _ => destruct x
  end;
  simpl in *; try discriminate; try reflexivity;
  repeat match goal with
  | H : Rgt_b _ _ = true |- _ => apply Rgt_b_true in H
  | H : Rgt_b _ _ = false |- _ => apply Rgt_b_false in H
  end;
  try (apply Rgt_b_true; lra); try (apply Rgt_b_false; lra).

Lemma num_gt_irrefl (a : number) : num_gt a a = false.
Proof. num_cases. Qed.

Lemma num_gt_asym (a b : number) : num_gt a b = true -> num_gt b a = false.
Proof. intros H; num_cases. Qed.

Lemma num_gt_trans (a b c : number) :
  num_gt a b = true -> num_gt b c = true -> num_gt a c = true.
Proof. intros H1 H2; num_cases. Qed.

(** Whatever does not exceed [a] does not exceed what exceeds [a]. *)
Lemma num_gt_raise (x s a : number) :
  num_gt s a = true -> num_gt x a = false -> num_gt x s = false.
Proof. intros H1 H2; num_cases. Qed.

Lemma num_mul_comm (a b : number) : num_mul a b = num_mul b a.
Proof.
  destruct a, b; simpl; try reflexivity. f_equal; ring.
Qed.

(** ** [findClosestPerson] *)

Section Find.

Variables (b : BBox) (cx cy : R).

Lemma considerPerson_cases (acc : option TrackedPerson * number) (p : TrackedPerson) :
  (considerPerson b cx cy acc p = (Some p, matchScore b cx cy p)
   /\ withinThreshold cx cy p /\ num_gt (matchScore b cx cy p) (snd acc) = true)
  \/ (considerPerson b cx cy acc p = acc
      /\ (withinThreshold cx cy p -> num_gt (matchScore b cx cy p) (snd acc) = false)).
Proof.
  unfold considerPerson, withinThreshold.
  destruct (Rgt_b _ TRACKING_THRESHOLD) eqn:Hd.
  - right. split; [reflexivity |]. apply Rgt_b_true in Hd. lra.
  - apply Rgt_b_false in Hd.
    destruct (num_gt _ (snd acc)) eqn:Hs; [left | right]; auto.
Qed.

Lemma fold_considerPerson_inv (m : Registry) :
  forall acc : option TrackedPerson * number,
    let r := fold_left (considerPerson b cx cy) m acc in
    (num_gt (snd r) (snd acc) = true \/ snd r = snd acc)
    /\ (forall q, In q m -> withinThreshold cx cy q ->
                  num_gt (matchScore b cx cy q) (snd r) = false)
    /\ (r = acc
        \/ exists p, In p m /\ withinThreshold cx cy p /\ r = (Some p, matchScore b cx cy p)
                     /\ num_gt (matchScore b cx cy p) (snd acc) = true).
Proof.
  induction m as [| p rest IH]; intros acc; simpl.
  - repeat split; auto. intros q [].
  - specialize (IH (considerPerson b cx cy acc p)).
    cbv zeta in IH. destruct IH as (Hmono & Hmax & Hsel).
    destruct (considerPerson_cases acc p) as [(Hc & Hw & Hgt) | (Hc & Hle)];
      rewrite Hc in *; simpl in *.
    + split; [| split].
      * left. destruct Hmono as [Hm | Hm].
        -- eapply num_gt_trans; eauto.
        -- now rewrite Hm.
      * intros q [-> | Hq] Hwq; [| now apply Hmax].
        destruct Hmono as [Hm | Hm].
        -- now apply num_gt_asym.
        -- rewrite Hm. apply num_gt_irrefl.
      * right. destruct Hsel as [Hr | (p' & Hin & Hw' & Hr & Hgt')].
        -- exists p. rewrite Hr. auto.
        -- exists p'. repeat split; auto. eapply num_gt_trans; eauto.
    + split; [exact Hmono | split].
      * intros q [-> | Hq] Hwq; [| now apply Hmax].
        destruct Hmono as [Hm | Hm].
        -- eapply num_gt_raise; eauto.
        -- rewrite Hm. auto.
      * destruct Hsel as [Hr | (p' & Hin & Hw' & Hr & Hgt')]; [now left |].
        right. exists p'. auto.
Qed.

(** The track that is returned is in the registry, within the tracking
    threshold, scores above the minimum and no track within the threshold
    scores more. *)
Lemma findClosestPerson_Some (m : Registry) (p : TrackedPerson) :
  findClosestPerson m b cx cy = Some p ->
  In p m /\ withinThreshold cx cy p
  /\ num_gt (matchScore b cx cy p) (Fin MIN_MATCH_SCORE) = true
  /\ forall q, In q m -> withinThreshold cx cy q ->
               num_gt (matchScore b cx cy q) (matchScore b cx cy p) = false.
Proof.
  unfold findClosestPerson. intros H.
  destruct (fold_considerPerson_inv m (None, Fin MIN_MATCH_SCORE))
    as (_ & Hmax & Hsel).
  cbv zeta in *.
  destruct Hsel as [Hr | (p' & Hin & Hw & Hr & Hgt)].
  - rewrite Hr in H. discriminate.
  - rewrite Hr in H, Hmax. simpl in *. injection H as <-. auto.
Qed.

(** Nothing is returned exactly when no track within the threshold scores
    above the minimum. *)
Lemma findClosestPerson_None (m : Registry) :
  findClosestPerson m b cx cy = None <->
  forall q, In q m -> withinThreshold cx cy q ->
            num_gt (matchScore b cx cy q) (Fin MIN_MATCH_SCORE) = false.
Proof.
  unfold findClosestPerson.
  destruct (fold_considerPerson_inv m (None, Fin MIN_MATCH_SCORE))
    as (Hmono & Hmax & Hsel).
  cbv zeta in *. split.
  - intros H q Hq Hw.
    destruct Hsel as [Hr | (p' & Hin & Hw' & Hr & Hgt)].
    + rewrite Hr in Hmax. now apply Hmax.
    + rewrite Hr in H. discriminate.
  - intros H.
    destruct Hsel as [Hr | (p' & Hin & Hw' & Hr & Hgt)].
    + now rewrite Hr.
    + simpl in Hgt. rewrite (H p' Hin Hw') in Hgt. discriminate.
Qed.

(** Tracks beyond the threshold do not take part: leaving them out of the
    registry changes nothing. *)
Lemma findClosestPerson_ignores_far (m : Registry) :
  findClosestPerson m b cx cy
  = findClosestPerson
      (filter (fun q => negb (Rgt_b (calculateDistance cx cy (centerX q) (centerY q))
                                    TRACKING_THRESHOLD)) m) b cx cy.
Proof.
  unfold findClosestPerson. f_equal.
  generalize (@None TrackedPerson, Fin MIN_MATCH_SCORE).
  induction m as [| p rest IH]; intros acc; simpl; [reflexivity |].
  destruct (Rgt_b _ TRACKING_THRESHOLD) eqn:Hd; simpl.
  - unfold considerPerson at 2. rewrite Hd. apply IH.
  - apply IH.
Qed.

End Find.

(** The score as a real number, when neither division is by zero. *)
Lemma matchScore_fin (b : BBox) (cx cy : R) (person : TrackedPerson) (iou ratio : R) :
  calculateIoU b (bbox person) = Fin iou ->
  sizeRatio b (bbox person) = Fin ratio ->
  matchScore b cx cy person
  = Fin (iou * 0.5
         + distanceScore (calculateDistance cx cy (centerX person) (centerY person))
           * 0.3
         + ratio * 0.2).
Proof.
  intros Hi Hs. unfold matchScore. rewrite Hi, Hs. reflexivity.
Qed.

Lemma findClosestPerson_single (b : BBox) (cx cy : R) (t : TrackedPerson) :
  withinThreshold cx cy t ->
  num_gt (matchScore b cx cy t) (Fin MIN_MATCH_SCORE) = true ->
  findClosestPerson [t] b cx cy = Some t.
Proof.
  intros Hw Hs. unfold findClosestPerson. simpl. unfold considerPerson.
  rewrite (proj2 (Rgt_b_false _ _) Hw). simpl snd. rewrite Hs. reflexivity.
Qed.

(** ** Selection by the score *)

(** C7. The score of a detection against a track is
    [0.5*iou + 0.3*max(0, 1 - distance/TRACKING_THRESHOLD) + 0.2*sizeSimilarity]
    with [sizeSimilarity = min(areaA, areaB)/max(areaA, areaB)], and
    [findClosestPerson] selects by it: the track it returns is in the
    registry, within [TRACKING_THRESHOLD] of the detection, scores above 0.3
    and no track within the threshold scores more; it returns nothing exactly
    when no track within the threshold scores above 0.3, so that a registry of
    one track yields that track exactly when it is within the threshold and
    scores above 0.3.  A track whose centre is further than
    [TRACKING_THRESHOLD] from the detection is never returned, whatever its
    score, and the result is the same as on the registry without such
    tracks. *)
Theorem matchScore_formula_and_distance_cutoff :
  (forall b cx cy person,
      let distance := calculateDistance cx cy (centerX person) (centerY person) in
      let areaA := bw b * bh b in
      let areaB := bw (bbox person) * bh (bbox person) in
      let sizeSimilarity := num_div (Rmin areaA areaB) (Rmax areaA areaB) in
      matchScore b cx cy person
      = num_add (num_add (num_mul (Fin 0.5) (calculateIoU b (bbox person)))
                         (Fin (0.3 * Rmax 0 (1 - distance / TRACKING_THRESHOLD))))
                (num_mul (Fin 0.2) sizeSimilarity))
  /\ (forall b cx cy person iou sizeSimilarity,
         calculateIoU b (bbox person) = Fin iou ->
         sizeRatio b (bbox person) = Fin sizeSimilarity ->
         matchScore b cx cy person
         = Fin (0.5 * iou
                + 0.3 * Rmax 0 (1 - calculateDistance cx cy (centerX person)
                                       (centerY person) / TRACKING_THRESHOLD)
                + 0.2 * sizeSimilarity))
  /\ (forall m b cx cy person,
         calculateDistance cx cy (centerX person) (centerY person)
           > TRACKING_THRESHOLD ->
         findClosestPerson m b cx cy <> Some person)
  /\ (forall m b cx cy,
         findClosestPerson m b cx cy
         = findClosestPerson
             (filter (fun q => negb (Rgt_b (calculateDistance cx cy (centerX q)
                                              (centerY q)) TRACKING_THRESHOLD)) m)
             b cx cy)
  /\ (forall m b cx cy person,
         findClosestPerson m b cx cy = Some person ->
         In person m
         /\ calculateDistance cx cy (centerX person) (centerY person)
            <= TRACKING_THRESHOLD
         /\ num_gt (matchScore b cx cy person) (Fin 0.3) = true
         /\ forall q, In q m ->
                      calculateDistance cx cy (centerX q) (centerY q)
                      <= TRACKING_THRESHOLD ->
                      num_gt (matchScore b cx cy q) (matchScore b cx cy person)
                      = false)
  /\ (forall m b cx cy,
         findClosestPerson m b cx cy = None <->
         forall q, In q m ->
                   calculateDistance cx cy (centerX q) (centerY q)
                   <= TRACKING_THRESHOLD ->
                   num_gt (matchScore b cx cy q) (Fin 0.3) = false)
  /\ (forall b cx cy person,
         findClosestPerson [person] b cx cy = Some person <->
         calculateDistance cx cy (centerX person) (centerY person)
         <= TRACKING_THRESHOLD
         /\ num_gt (matchScore b cx cy person) (Fin 0.3) = true).
Proof.
  split; [| split; [| split; [| split; [| split; [| split]]]]].
  - intros b cx cy person; cbv zeta. unfold matchScore, sizeRatio, distanceScore.
    rewrite (num_mul_comm (calculateIoU _ _)).
    rewrite (num_mul_comm (num_div _ _)).
    simpl. do 3 f_equal. ring.
  - intros b cx cy person iou s Hi Hs.
    rewrite (matchScore_fin b cx cy person iou s Hi Hs).
    unfold distanceScore. f_equal. ring.
  - intros m b cx cy person Hfar Hsel.
    apply findClosestPerson_Some in Hsel as (_ & Hw & _).
    unfold withinThreshold in Hw. lra.
  - intros. apply findClosestPerson_ignores_far.
  - intros m b cx cy person Hsel.
    apply findClosestPerson_Some in Hsel. exact Hsel.
  - intros m b cx cy. apply findClosestPerson_None.
  - intros b cx cy person. split.
    + intros Hsel. apply findClosestPerson_Some in Hsel as (_ & Hw & Hs & _).
      split; [exact Hw | exact Hs].
    + intros [Hw Hs]. now apply findClosestPerson_single.
Qed.

(** ** Identifiers, the map and the set *)

Lemma id_eqb_eq (a b : PersonId) : id_eqb a b = true <-> a = b.
Proof.
  unfold id_eqb. rewrite andb_true_iff, Z.eqb_eq, String.eqb_eq.
  destruct a, b; simpl; split.
  - intros [-> ->]; reflexivity.
  - intros H; injection H; auto.
Qed.

Lemma id_eqb_refl (a : PersonId) : id_eqb a a = true.
Proof. now apply id_eqb_eq. Qed.

Lemma id_eqb_neq (a b : PersonId) : id_eqb a b = false <-> a <> b.
Proof.
  rewrite <- id_eqb_eq. destruct (id_eqb a b); split; congruence.
Qed.

Lemma set_has_In (s : list PersonId) (k : PersonId) :
  set_has s k = true <-> In k s.
Proof.
  unfold set_has. rewrite existsb_exists. split.
  - intros (k' & Hin & Heq). apply id_eqb_eq in Heq. now subst.
  - intros Hin. exists k. split; [easy | apply id_eqb_refl].
Qed.

Lemma set_add_In (s : list PersonId) (k k' : PersonId) :
  In k' (set_add s k) <-> In k' s \/ k' = k.
Proof.
  unfold set_add. destruct (set_has s k) eqn:Hk.
  - apply set_has_In in Hk. split; [auto | intros [H | ->]; auto].
  - rewrite in_app_iff. simpl. intuition.
Qed.

Lemma keys_map_set (m : Registry) (v : TrackedPerson) (k : PersonId) :
  In k (keys (map_set m v)) <-> In k (keys m) \/ k = id v.
Proof.
  induction m as [| p rest IH]; simpl.
  - intuition.
  - destruct (id_eqb (id p) (id v)) eqn:Hp; simpl.
    + apply id_eqb_eq in Hp. rewrite Hp. intuition.
    + rewrite IH. intuition.
Qed.

(** Replacing the value of a key that is present keeps the keys as they are. *)
Lemma keys_map_set_present (m : Registry) (v : TrackedPerson) :
  In (id v) (keys m) -> keys (map_set m v) = keys m.
Proof.
  induction m as [| p rest IH]; simpl; [easy |].
  intros Hin. destruct (id_eqb (id p) (id v)) eqn:Hp; simpl.
  - apply id_eqb_eq in Hp. now rewrite Hp.
  - f_equal. apply IH. destruct Hin as [Heq | Hin]; [| easy].
    apply id_eqb_neq in Hp. congruence.
Qed.

(** A new key goes to the end. *)
Lemma map_set_absent (m : Registry) (v : TrackedPerson) :
  ~ In (id v) (keys m) -> map_set m v = m ++ [v].
Proof.
  induction m as [| p rest IH]; simpl; [easy |].
  intros Hnin. destruct (id_eqb (id p) (id v)) eqn:Hp.
  - apply id_eqb_eq in Hp. tauto.
  - f_equal. apply IH. tauto.
Qed.

Lemma In_map_set (m : Registry) (v q : TrackedPerson) :
  In q (map_set m v) -> q = v \/ In q m.
Proof.
  induction m as [| p rest IH]; simpl.
  - intros [<- | []]. now left.
  - destruct (id_eqb (id p) (id v)); simpl.
    + intros [<- | Hin]; auto.
    + intros [<- | Hin]; auto. destruct (IH Hin); auto.
Qed.

Lemma Forall_map_set (P : TrackedPerson -> Prop) (m : Registry) (v : TrackedPerson) :
  Forall P m -> P v -> Forall P (map_set m v).
Proof.
  rewrite !Forall_forall. intros Hm Hv q Hq.
  destruct (In_map_set _ _ _ Hq) as [-> | Hin]; auto.
Qed.

(** ** Crossing evaluation *)

Lemma checkCrossing_cooldown (lineY pcx : R) (person : TrackedPerson) :
  crossed person = true -> checkCrossing lineY pcx person = (person, None).
Proof. intros H; unfold checkCrossing; now rewrite H. Qed.

Lemma checkCrossing_None (lineY pcx : R) (person : TrackedPerson) :
  snd (checkCrossing lineY pcx person) = None ->
  fst (checkCrossing lineY pcx person) = person.
Proof.
  unfold checkCrossing.
  repeat match goal with
  | |- context [if ?c then _ else _] => destruct c
  end; simpl; easy.
Qed.

Lemma checkCrossing_Some (lineY pcx : R) (person : TrackedPerson) (d : Direction) :
  snd (checkCrossing lineY pcx person) = Some d ->
  crossed person = false
  /\ fst (checkCrossing lineY pcx person)
     = mkTrackedPerson (id person) (bbox person) (centerX person) (centerY person)
         (previousY person) (lastSeen person) true (Some d) 0.
Proof.
  unfold checkCrossing.
  destruct (crossed person); simpl; [easy |].
  repeat match goal with
  | |- context [if ?c then _ else _] => destruct c
  end; simpl; try easy; intros [= <-]; auto.
Qed.

Lemma checkCrossing_id (lineY pcx : R) (person : TrackedPerson) :
  id (fst (checkCrossing lineY pcx person)) = id person.
Proof.
  destruct (snd (checkCrossing lineY pcx person)) eqn:Hev.
  - apply checkCrossing_Some in Hev as [_ ->]. reflexivity.
  - apply checkCrossing_None in Hev. now rewrite Hev.
Qed.

(** What decides a crossing that is counted. *)
Lemma checkCrossing_down (lineY pcx : R) (person : TrackedPerson) :
  crossed person = false ->
  previousY person < lineY < centerY person ->
  Rabs (centerY person - previousY person) > MIN_DISTANCE_FOR_CROSSING ->
  Rabs (centerY person - previousY person) > Rabs (centerX person - pcx) * 0.1 ->
  snd (checkCrossing lineY pcx person) = Some dir_in.
Proof.
  intros Hc [Hp Hy] Hv Hh. unfold checkCrossing. rewrite Hc. simpl.
  rewrite (proj2 (Rgt_b_true _ _) Hv), (proj2 (Rgt_b_true _ _) Hh).
  rewrite (proj2 (Rlt_b_true _ _) Hp), (proj2 (Rgt_b_true _ _) Hy).
  reflexivity.
Qed.

Lemma checkCrossing_up (lineY pcx : R) (person : TrackedPerson) :
  crossed person = false ->
  centerY person < lineY < previousY person ->
  Rabs (centerY person - previousY person) > MIN_DISTANCE_FOR_CROSSING ->
  Rabs (centerY person - previousY person) > Rabs (centerX person - pcx) * 0.1 ->
  snd (checkCrossing lineY pcx person) = Some dir_out.
Proof.
  intros Hc [Hy Hp] Hv Hh. unfold checkCrossing. rewrite Hc. simpl.
  rewrite (proj2 (Rgt_b_true _ _) Hv), (proj2 (Rgt_b_true _ _) Hh).
  rewrite (proj2 (Rlt_b_false _ _)) by lra.
  rewrite (proj2 (Rgt_b_true _ _) Hp), (proj2 (Rlt_b_true _ _) Hy).
  reflexivity.
Qed.

(** ** One detection *)

Section Step.

Variable clock : nat -> Z.
Variable random : nat -> string.

(** The three ways a detection is handled: it updates the track it matched,
    it is dropped because that track is already claimed, or it starts a new
    track. *)
Lemma processDetection_matched (lineY : R) (st : FrameState) (d : Detection)
    (p : TrackedPerson) :
  findClosestPerson (trackedPeople (fs_world st)) (d_bbox d)
    (detCenterX d) (detCenterY d) = Some p ->
  set_has (matchedPeople st) (id p) = false ->
  let w := fs_world st in
  let r := checkCrossing lineY (centerX p)
             (moveTo p (d_bbox d) (detCenterX d) (detCenterY d)
                     (clock (clockReads w))) in
  processDetection clock random lineY st d
  = mkFrameState
      (mkWorld (map_set (trackedPeople w) (fst r)) (S (clockReads w)) (randomDraws w))
      (set_add (matchedPeople st) (id p))
      (countEvent (snd r) dir_in (countIn st))
      (countEvent (snd r) dir_out (countOut st))
      (logEvent (id p) (snd r) (fs_events st)).
Proof.
  intros Hf Hm; cbv zeta. unfold processDetection. rewrite Hf, Hm. simpl.
  destruct (checkCrossing _ _ _); reflexivity.
Qed.

Lemma processDetection_claimed (lineY : R) (st : FrameState) (d : Detection)
    (p : TrackedPerson) :
  findClosestPerson (trackedPeople (fs_world st)) (d_bbox d)
    (detCenterX d) (detCenterY d) = Some p ->
  set_has (matchedPeople st) (id p) = true ->
  processDetection clock random lineY st d = st.
Proof.
  intros Hf Hm. unfold processDetection. rewrite Hf, Hm. reflexivity.
Qed.

Lemma processDetection_new (lineY : R) (st : FrameState) (d : Detection) :
  findClosestPerson (trackedPeople (fs_world st)) (d_bbox d)
    (detCenterX d) (detCenterY d) = None ->
  let w := fs_world st in
  let k := mkPersonId (clock (clockReads w)) (random (randomDraws w)) in
  processDetection clock random lineY st d
  = mkFrameState
      (mkWorld (map_set (trackedPeople w)
                  (newPerson k (d_bbox d) (detCenterX d) (detCenterY d)
                             (clock (S (clockReads w)))))
               (S (S (clockReads w))) (S (randomDraws w)))
      (set_add (matchedPeople st) k)
      (countIn st) (countOut st) (fs_events st).
Proof.
  intros Hf; cbv zeta. unfold processDetection. rewrite Hf. reflexivity.
Qed.

(** C6. A matched track whose vertical displacement since the previous frame
    does not exceed [MIN_DISTANCE_FOR_CROSSING], or does not exceed a tenth of
    its horizontal displacement, is not counted, on whichever sides of the
    line its two centres lie: the counters and the event log of the frame are
    as before and the crossing state of the track is untouched. *)
Theorem insufficient_movement_is_not_counted
    (lineY : R) (st : FrameState) (d : Detection) (p : TrackedPerson) :
  findClosestPerson (trackedPeople (fs_world st)) (d_bbox d)
    (detCenterX d) (detCenterY d) = Some p ->
  set_has (matchedPeople st) (id p) = false ->
  Rabs (detCenterY d - centerY p) <= MIN_DISTANCE_FOR_CROSSING
  \/ Rabs (detCenterY d - centerY p) <= Rabs (detCenterX d - centerX p) * 0.1 ->
  let st' := processDetection clock random lineY st d in
  countIn st' = countIn st /\ countOut st' = countOut st
  /\ fs_events st' = fs_events st
  /\ trackedPeople (fs_world st')
     = map_set (trackedPeople (fs_world st))
         (moveTo p (d_bbox d) (detCenterX d) (detCenterY d)
                 (clock (clockReads (fs_world st)))).
Proof.
  intros Hf Hm Hmove; cbv zeta.
  rewrite (processDetection_matched lineY st d p Hf Hm); cbv zeta.
  set (moved := moveTo p _ _ _ _).
  assert (Hc : checkCrossing lineY (centerX p) moved = (moved, None)).
  { unfold checkCrossing. destruct (crossed moved); simpl; [reflexivity |].
    destruct Hmove as [Hv | Hh].
    - rewrite (proj2 (Rgt_b_false _ _) Hv). reflexivity.
    - rewrite (proj2 (Rgt_b_false _ (_ * 0.1)) Hh).
      rewrite andb_false_r. reflexivity. }
  rewrite Hc. simpl. auto.
Qed.

Lemma processDetection_cases (lineY : R) (st : FrameState) (d : Detection) :
  let w := fs_world st in
  let st' := processDetection clock random lineY st d in
  (exists p,
      findClosestPerson (trackedPeople w) (d_bbox d) (detCenterX d) (detCenterY d)
      = Some p
      /\ In p (trackedPeople w) /\ set_has (matchedPeople st) (id p) = false
      /\ let r := checkCrossing lineY (centerX p)
                    (moveTo p (d_bbox d) (detCenterX d) (detCenterY d)
                            (clock (clockReads w))) in
         st' = mkFrameState
                 (mkWorld (map_set (trackedPeople w) (fst r))
                          (S (clockReads w)) (randomDraws w))
                 (set_add (matchedPeople st) (id p))
                 (countEvent (snd r) dir_in (countIn st))
                 (countEvent (snd r) dir_out (countOut st))
                 (logEvent (id p) (snd r) (fs_events st)))
  \/ (exists p,
         findClosestPerson (trackedPeople w) (d_bbox d) (detCenterX d) (detCenterY d)
         = Some p
         /\ set_has (matchedPeople st) (id p) = true /\ st' = st)
  \/ (findClosestPerson (trackedPeople w) (d_bbox d) (detCenterX d) (detCenterY d)
      = None
      /\ let k := mkPersonId (clock (clockReads w)) (random (randomDraws w)) in
         st' = mkFrameState
                 (mkWorld (map_set (trackedPeople w)
                             (newPerson k (d_bbox d) (detCenterX d) (detCenterY d)
                                        (clock (S (clockReads w)))))
                          (S (S (clockReads w))) (S (randomDraws w)))
                 (set_add (matchedPeople st) k)
                 (countIn st) (countOut st) (fs_events st)).
Proof.
  cbv zeta.
  destruct (findClosestPerson _ _ _ _) as [p |] eqn:Hf.
  - destruct (set_has (matchedPeople st) (id p)) eqn:Hm.
    + right; left. exists p. repeat split; auto.
      now apply processDetection_claimed with p.
    + left. exists p. repeat split; auto.
      * now apply findClosestPerson_Some in Hf.
      * now apply processDetection_matched.
  - right; right. split; [reflexivity |]. now apply processDetection_new.
Qed.

Lemma set_has_set_add (s : list PersonId) (k k' : PersonId) :
  set_has (set_add s k) k' = true <-> set_has s k' = true \/ k' = k.
Proof. rewrite !set_has_In. apply set_add_In. Qed.

Lemma set_has_set_add_false (s : list PersonId) (k k' : PersonId) :
  set_has (set_add s k) k' = false -> set_has s k' = false /\ k' <> k.
Proof.
  intros H. split.
  - destruct (set_has s k') eqn:Hk; [| reflexivity].
    rewrite (proj2 (set_has_set_add s k k')) in H by auto. discriminate.
  - intros ->. rewrite (proj2 (set_has_set_add s k k)) in H by auto. discriminate.
Qed.

Lemma In_map_set_other (m : Registry) (v q : TrackedPerson) :
  In q m -> id q <> id v -> In q (map_set m v).
Proof.
  induction m as [| p rest IH]; simpl; [easy |].
  intros [<- | Hin] Hne.
  - destruct (id_eqb (id p) (id v)) eqn:Hp.
    + apply id_eqb_eq in Hp. contradiction.
    + now left.
  - destruct (id_eqb (id p) (id v)); right; auto.
Qed.

Lemma In_map_set_new (m : Registry) (v : TrackedPerson) : In v (map_set m v).
Proof.
  induction m as [| p rest IH]; simpl; [now left |].
  destruct (id_eqb (id p) (id v)); [now left | now right].
Qed.

Lemma filter_app_length {A : Type} (f : A -> bool) (l : list A) (x : A) :
  List.length (filter f (l ++ [x]))
  = (List.length (filter f l) + if f x then 1 else 0)%nat.
Proof.
  rewrite filter_app, length_app. simpl. destruct (f x); reflexivity.
Qed.

(** One step of the association loop keeps [assocInv]. *)
Lemma processDetection_assocInv (reg0 : Registry) (lineY : R) (st : FrameState)
    (d : Detection) :
  assocInv reg0 st -> assocInv reg0 (processDetection clock random lineY st d).
Proof.
  intros [B1 B2 B3 B5 A1 B4 A2 A3 A4].
  destruct (processDetection_cases lineY st d)
    as [(p & Hf & Hin & Hm & Hst) | [(p & Hf & Hm & Hst) | (Hf & Hst)]];
    cbv zeta in Hst; rewrite Hst; clear Hst.
  - (* the detection claims [p] *)
    set (moved := moveTo p _ _ _ _).
    pose proof (checkCrossing_id lineY (centerX p) moved) as Hid.
    change (id moved) with (id p) in Hid.
    destruct (snd (checkCrossing lineY (centerX p) moved)) as [dir |] eqn:Hev.
    + pose proof (checkCrossing_Some _ _ _ _ Hev) as [Hc _].
      change (crossed moved) with (crossed p) in Hc.
      constructor; simpl.
      * intros q Hq Hmq. apply set_has_set_add_false in Hmq as [Hmq Hne].
        destruct (In_map_set _ _ _ Hq) as [-> | Hq']; [congruence | auto].
      * intros p0 Hp0 Hmp. apply set_has_set_add_false in Hmp as [Hmp Hne].
        apply In_map_set_other; [auto | congruence].
      * intros k Hk. apply keys_map_set. rewrite Hid.
        apply set_add_In in Hk as [Hk | ->]; auto.
      * intros k Hk. apply keys_map_set. auto.
      * intros e He. apply set_add_In. apply in_app_iff in He as [He | [<- | []]];
          auto.
      * intros e He. apply in_app_iff in He as [He | [<- | []]]; auto.
        exists p. simpl. auto.
      * rewrite map_app. simpl. apply NoDup_app; [auto | | ].
        -- constructor; [easy | constructor].
        -- intros k Hk [<- | []]. apply in_map_iff in Hk as (e & He & Hine).
           apply A1 in Hine. rewrite He in Hine. apply set_has_In in Hine.
           congruence.
      * rewrite filter_app_length, A3. unfold isEntering. simpl.
        destruct dir; simpl; lia.
      * rewrite filter_app_length, A4. unfold isExiting. simpl.
        destruct dir; simpl; lia.
    + constructor; simpl; auto.
      * intros q Hq Hmq. apply set_has_set_add_false in Hmq as [Hmq Hne].
        destruct (In_map_set _ _ _ Hq) as [-> | Hq']; [congruence | auto].
      * intros p0 Hp0 Hmp. apply set_has_set_add_false in Hmp as [Hmp Hne].
        apply In_map_set_other; [auto | congruence].
      * intros k Hk. apply keys_map_set. rewrite Hid.
        apply set_add_In in Hk as [Hk | ->]; auto.
      * intros k Hk. apply keys_map_set. auto.
      * intros e He. apply set_add_In. auto.
  - (* the detection is dropped *)
    constructor; auto.
  - (* the detection starts a track *)
    set (k := mkPersonId _ _). set (v := newPerson k _ _ _ _).
    constructor; simpl; auto.
    + intros q Hq Hmq. apply set_has_set_add_false in Hmq as [Hmq Hne].
      destruct (In_map_set _ _ _ Hq) as [-> | Hq']; [now contradiction Hne | auto].
    + intros p0 Hp0 Hmp. apply set_has_set_add_false in Hmp as [Hmp Hne].
      apply In_map_set_other; auto.
    + intros k' Hk. apply keys_map_set. change (id v) with k.
      apply set_add_In in Hk as [Hk | ->]; auto.
    + intros k' Hk. apply keys_map_set. auto.
    + intros e He. apply set_add_In. auto.
Qed.

Lemma fold_left_inv {A B : Type} (f : A -> B -> A) (P : A -> Prop) :
  (forall a x, P a -> P (f a x)) ->
  forall l a, P a -> P (fold_left f l a).
Proof.
  intros Hstep l. induction l as [| x rest IH]; simpl; auto.
Qed.

Lemma associate_assocInv (lineY : R) (ds : list Detection) (w : World) :
  assocInv (trackedPeople w) (associate clock random lineY ds w).
Proof.
  unfold associate. apply fold_left_inv.
  - intros st d. apply processDetection_assocInv.
  - constructor; simpl; auto; try easy. constructor.
Qed.

End Step.

(** ** The registry across a frame *)

Lemma cooldownTick_id (p : TrackedPerson) : id (cooldownTick p) = id p.
Proof.
  unfold cooldownTick. destruct (crossed p); [| reflexivity].
  destruct (CROSSING_COOLDOWN <=? _)%nat; reflexivity.
Qed.

Lemma cooldownTick_lastSeen (p : TrackedPerson) :
  lastSeen (cooldownTick p) = lastSeen p.
Proof.
  unfold cooldownTick. destruct (crossed p); [| reflexivity].
  destruct (CROSSING_COOLDOWN <=? _)%nat; reflexivity.
Qed.

Lemma keys_map_cooldownTick (m : Registry) : keys (map cooldownTick m) = keys m.
Proof.
  unfold keys. rewrite map_map. apply map_ext. apply cooldownTick_id.
Qed.

Lemma NoDup_keys_eq (m : Registry) (p q : TrackedPerson) :
  NoDup (keys m) -> In p m -> In q m -> id p = id q -> p = q.
Proof.
  induction m as [| x rest IH]; simpl; [easy |].
  intros Hnd Hp Hq Heq. inversion Hnd as [| ? ? Hx Hrest]; subst.
  destruct Hp as [-> | Hp], Hq as [-> | Hq]; auto.
  - exfalso. apply Hx. rewrite Heq. now apply in_map.
  - exfalso. apply Hx. rewrite <- Heq. now apply in_map.
Qed.

Lemma NoDup_keys_filter (f : TrackedPerson -> bool) (m : Registry) :
  NoDup (keys m) -> NoDup (keys (filter f m)).
Proof.
  induction m as [| x rest IH]; simpl; [easy |].
  intros Hnd. inversion Hnd as [| ? ? Hx Hrest]; subst.
  destruct (f x); simpl; auto. constructor; auto.
  intros Hin. apply Hx. unfold keys in *. apply in_map_iff in Hin as (q & Hq & Hin).
  apply filter_In in Hin as [Hin _]. apply in_map_iff. eauto.
Qed.

Lemma NoDup_keys_map_set (m : Registry) (v : TrackedPerson) :
  NoDup (keys m) -> NoDup (keys (map_set m v)).
Proof.
  induction m as [| x rest IH]; simpl.
  - intros _. constructor; [easy | constructor].
  - intros Hnd. inversion Hnd as [| ? ? Hx Hrest]; subst.
    destruct (id_eqb (id x) (id v)) eqn:Hxv; simpl.
    + apply id_eqb_eq in Hxv. rewrite <- Hxv. now constructor.
    + constructor; auto. intros Hin. apply keys_map_set in Hin as [Hin | Heq].
      * now apply Hx.
      * apply id_eqb_neq in Hxv. auto.
Qed.

(** Under unique keys the value stored for a key is the only track with it. *)
Lemma map_set_unique (m : Registry) (v q : TrackedPerson) :
  NoDup (keys m) -> In q (map_set m v) -> id q = id v -> q = v.
Proof.
  intros Hnd Hq Heq.
  apply (NoDup_keys_eq (map_set m v)); auto.
  - now apply NoDup_keys_map_set.
  - apply In_map_set_new.
Qed.

Lemma deleteAll_In (ids : list PersonId) :
  forall (m : Registry) (q : TrackedPerson),
    In q (deleteAll m ids) <-> In q m /\ ~ In (id q) ids.
Proof.
  unfold deleteAll.
  induction ids as [| k rest IH]; intros m q; simpl.
  - tauto.
  - rewrite IH. clear IH.
    assert (Hdel : In q (match map_get m k with
                         | Some _ => map_delete m k
                         | None => m
                         end)
                   <-> In q m /\ id q <> k).
    { unfold map_get. destruct (find _ m) as [p |] eqn:Hk.
      - unfold map_delete. rewrite filter_In, negb_true_iff, id_eqb_neq. tauto.
      - split; [| tauto]. intros Hq. split; [easy |]. intros <-.
        pose proof (find_none _ _ Hk q Hq) as Hne. simpl in Hne.
        now rewrite id_eqb_refl in Hne. }
    rewrite Hdel. intuition.
Qed.

Section Removal.

Variable clock : nat -> Z.
Variable matched : list PersonId.

Lemma collectUnmatched_reads (m : Registry) :
  forall reads, (reads <= snd (collectUnmatched clock matched m reads))%nat.
Proof.
  induction m as [| p rest IH]; intros reads; simpl; [lia |].
  destruct (set_has matched (id p)); [apply IH |].
  specialize (IH (S reads)).
  destruct (collectUnmatched clock matched rest (S reads)) as [ids reads'].
  destruct (_ >? _)%Z; simpl in *; lia.
Qed.

(** A track is collected only if it is unclaimed and one of the clock reads
    of the pass is more than the grace period after it was last seen. *)
Lemma collectUnmatched_sound (m : Registry) :
  forall reads k,
    In k (fst (collectUnmatched clock matched m reads)) ->
    exists p j, In p m /\ id p = k /\ set_has matched k = false
                /\ (reads <= j < snd (collectUnmatched clock matched m reads))%nat
                /\ (clock j - lastSeen p > GRACE_PERIOD)%Z.
Proof.
  induction m as [| p rest IH]; intros reads k; simpl; [easy |].
  destruct (set_has matched (id p)) eqn:Hm.
  - intros Hk. destruct (IH _ _ Hk) as (q & j & Hq & Hid & Hmq & Hj & Ht).
    exists q, j. auto 10.
  - specialize (IH (S reads) k).
    pose proof (collectUnmatched_reads rest (S reads)) as Hr.
    destruct (collectUnmatched clock matched rest (S reads)) as [ids reads'].
    simpl in *.
    destruct (_ >? _)%Z eqn:Ht; simpl.
    + intros [<- | Hk].
      * exists p, reads. repeat split; auto; lia.
      * destruct (IH Hk) as (q & j & Hq & Hid & Hmq & Hj & Ht').
        exists q, j. repeat split; auto; lia.
    + intros Hk. destruct (IH Hk) as (q & j & Hq & Hid & Hmq & Hj & Ht').
      exists q, j. repeat split; auto; lia.
Qed.

(** An unclaimed track for which every clock read of the pass is beyond the
    grace period is collected. *)
Lemma collectUnmatched_complete (m : Registry) (p : TrackedPerson) :
  forall reads,
    In p m -> set_has matched (id p) = false ->
    (forall j, (reads <= j < snd (collectUnmatched clock matched m reads))%nat ->
               (clock j - lastSeen p > GRACE_PERIOD)%Z) ->
    In (id p) (fst (collectUnmatched clock matched m reads)).
Proof.
  induction m as [| x rest IH]; intros reads; simpl; [easy |].
  intros Hin Hm Hall.
  destruct (set_has matched (id x)) eqn:Hx.
  - destruct Hin as [-> | Hin]; [congruence | auto].
  - specialize (IH (S reads)).
    pose proof (collectUnmatched_reads rest (S reads)) as Hr.
    destruct (collectUnmatched clock matched rest (S reads)) as [ids reads'].
    simpl in *.
    assert (Hrest : In p rest -> In (id p) ids).
    { intros Hp. apply IH; auto. intros j Hj. apply Hall.
      destruct (_ >? _)%Z; simpl; lia. }
    destruct Hin as [-> | Hin].
    + assert (Ht : (clock reads - lastSeen p >? GRACE_PERIOD)%Z = true).
      { apply Z.gtb_lt. apply Z.gt_lt. apply Hall.
        destruct (_ >? _)%Z; simpl; lia. }
      rewrite Ht. now left.
    + destruct (_ >? _)%Z; simpl; auto.
Qed.

Lemma removeUnmatched_In (w : World) (q : TrackedPerson) :
  In q (trackedPeople (removeUnmatched clock matched w)) <->
  In q (trackedPeople w)
  /\ ~ In (id q) (fst (collectUnmatched clock matched (trackedPeople w)
                                        (clockReads w))).
Proof.
  unfold removeUnmatched.
  destruct (collectUnmatched clock matched (trackedPeople w) (clockReads w))
    as [ids reads] eqn:Hc.
  simpl. apply deleteAll_In.
Qed.

(** A claimed track is never removed by the pass. *)
Lemma removeUnmatched_keeps_claimed (w : World) (q : TrackedPerson) :
  In q (trackedPeople w) -> set_has matched (id q) = true ->
  In q (trackedPeople (removeUnmatched clock matched w)).
Proof.
  intros Hq Hm. apply removeUnmatched_In. split; [easy |].
  intros Hin. apply collectUnmatched_sound in Hin as (p & j & _ & Hid & Hmp & _).
  congruence.
Qed.

(** When every track is claimed the pass changes nothing and reads no clock. *)
Lemma removeUnmatched_all_claimed (w : World) :
  (forall q, In q (trackedPeople w) -> set_has matched (id q) = true) ->
  removeUnmatched clock matched w = w.
Proof.
  intros Hall. unfold removeUnmatched.
  assert (Hc : forall m reads,
             (forall q, In q m -> set_has matched (id q) = true) ->
             collectUnmatched clock matched m reads = ([], reads)).
  { induction m as [| x rest IH]; intros reads Hm; simpl; [reflexivity |].
    rewrite (Hm x) by now left. apply IH. intros q Hq. apply Hm. now right. }
  rewrite Hc by assumption. destruct w; reflexivity.
Qed.

End Removal.

Section Frames.

Variable clock : nat -> Z.
Variable random : nat -> string.

Lemma beforeAssociation_registry (predictions : list Detection) (w : World) :
  trackedPeople (beforeAssociation clock predictions w)
  = map cooldownTick
      (filter (fun person => negb (isStale (clock (S (clockReads w))) person))
              (trackedPeople w)).
Proof. reflexivity. Qed.

Lemma beforeAssociation_reads (predictions : list Detection) (w : World) :
  clockReads (beforeAssociation clock predictions w) = S (S (clockReads w))
  /\ randomDraws (beforeAssociation clock predictions w) = randomDraws w.
Proof. split; reflexivity. Qed.

Lemma beforeAssociation_In (predictions : list Detection) (w : World)
    (q : TrackedPerson) :
  In q (trackedPeople (beforeAssociation clock predictions w)) ->
  exists p, In p (trackedPeople w) /\ q = cooldownTick p
            /\ isStale (clock (S (clockReads w))) p = false.
Proof.
  rewrite beforeAssociation_registry, in_map_iff.
  intros (p & <- & Hp). apply filter_In in Hp as [Hp Hs].
  exists p. repeat split; auto. now apply negb_true_iff.
Qed.

Lemma beforeAssociation_keeps (predictions : list Detection) (w : World)
    (p : TrackedPerson) :
  In p (trackedPeople w) -> isStale (clock (S (clockReads w))) p = false ->
  In (cooldownTick p) (trackedPeople (beforeAssociation clock predictions w)).
Proof.
  intros Hp Hs. rewrite beforeAssociation_registry. apply in_map.
  apply filter_In. split; [easy |]. now rewrite Hs.
Qed.

Lemma beforeAssociation_NoDup (predictions : list Detection) (w : World) :
  NoDup (keys (trackedPeople w)) ->
  NoDup (keys (trackedPeople (beforeAssociation clock predictions w))).
Proof.
  intros Hnd. rewrite beforeAssociation_registry, keys_map_cooldownTick.
  now apply NoDup_keys_filter.
Qed.

Lemma processDetection_counters (lineY : R) (st : FrameState) (d : Detection) :
  let st' := processDetection clock random lineY st d in
  (clockReads (fs_world st) <= clockReads (fs_world st'))%nat
  /\ (randomDraws (fs_world st) <= randomDraws (fs_world st'))%nat.
Proof.
  cbv zeta.
  destruct (processDetection_cases clock random lineY st d)
    as [(p & _ & _ & _ & Hst) | [(p & _ & _ & Hst) | (_ & Hst)]];
    cbv zeta in Hst; rewrite Hst; simpl; lia.
Qed.

Lemma associate_counters (lineY : R) (ds : list Detection) (w : World) :
  let st := associate clock random lineY ds w in
  (clockReads w <= clockReads (fs_world st))%nat
  /\ (randomDraws w <= randomDraws (fs_world st))%nat.
Proof.
  cbv zeta. unfold associate.
  apply (fold_left_inv (processDetection clock random lineY)
           (fun st => (clockReads w <= clockReads (fs_world st))%nat
                      /\ (randomDraws w <= randomDraws (fs_world st))%nat)).
  - intros st d [H1 H2].
    destruct (processDetection_counters lineY st d). lia.
  - simpl. lia.
Qed.

Lemma processDetection_NoDup (lineY : R) (st : FrameState) (d : Detection) :
  NoDup (keys (trackedPeople (fs_world st))) ->
  NoDup (keys (trackedPeople
                 (fs_world (processDetection clock random lineY st d)))).
Proof.
  intros Hnd.
  destruct (processDetection_cases clock random lineY st d)
    as [(p & _ & _ & _ & Hst) | [(p & _ & _ & Hst) | (_ & Hst)]];
    cbv zeta in Hst; rewrite Hst; simpl; auto using NoDup_keys_map_set.
Qed.

Lemma associate_NoDup (lineY : R) (ds : list Detection) (w : World) :
  NoDup (keys (trackedPeople w)) ->
  NoDup (keys (trackedPeople (fs_world (associate clock random lineY ds w)))).
Proof.
  intros Hnd. unfold associate.
  apply (fold_left_inv (processDetection clock random lineY)
           (fun st => NoDup (keys (trackedPeople (fs_world st))))); auto.
  intros st d. apply processDetection_NoDup.
Qed.

Lemma removeUnmatched_NoDup (matched : list PersonId) (w : World) :
  NoDup (keys (trackedPeople w)) ->
  NoDup (keys (trackedPeople (removeUnmatched clock matched w))).
Proof.
  intros Hnd. unfold removeUnmatched.
  destruct (collectUnmatched clock matched (trackedPeople w) (clockReads w))
    as [ids reads].
  simpl. unfold deleteAll. revert Hnd. generalize (trackedPeople w).
  induction ids as [| k rest IH]; intros m Hnd; simpl; [easy |].
  apply IH. destruct (map_get m k); [| easy].
  now apply NoDup_keys_filter.
Qed.

(** The keys of the registry stay pairwise distinct. *)
Lemma frame_NoDup (predictions : list Detection) (frameHeight : R) (w : World) :
  NoDup (keys (trackedPeople w)) ->
  NoDup (keys (trackedPeople
                 (snd (fst (detectPeopleWithCrossing clock random predictions
                                                     frameHeight w))))).
Proof.
  intros Hnd. unfold detectPeopleWithCrossing. simpl.
  apply removeUnmatched_NoDup. unfold frameState.
  apply associate_NoDup. now apply beforeAssociation_NoDup.
Qed.

Lemma frameState_assocInv (predictions : list Detection) (frameHeight : R)
    (w : World) :
  assocInv (trackedPeople (beforeAssociation clock predictions w))
           (frameState clock random predictions frameHeight w).
Proof. unfold frameState. apply associate_assocInv. Qed.

Lemma frameState_counters (predictions : list Detection) (frameHeight : R)
    (w : World) :
  let st := frameState clock random predictions frameHeight w in
  (clockReads w <= clockReads (fs_world st))%nat
  /\ (randomDraws w <= randomDraws (fs_world st))%nat.
Proof.
  cbv zeta. unfold frameState.
  pose proof (associate_counters (frameHeight * CROSSING_LINE_POSITION)
                (sortByScore (detections (fst (detectPeople clock predictions w))))
                (beforeAssociation clock predictions w)) as [Hc Hr].
  destruct (beforeAssociation_reads predictions w) as [Hc' Hr'].
  rewrite Hc' in Hc. rewrite Hr' in Hr. split; lia.
Qed.

Lemma frame_world (predictions : list Detection) (frameHeight : R) (w : World) :
  snd (fst (detectPeopleWithCrossing clock random predictions frameHeight w))
  = removeUnmatched clock
      (matchedPeople (frameState clock random predictions frameHeight w))
      (fs_world (frameState clock random predictions frameHeight w)).
Proof. reflexivity. Qed.

Lemma frame_events (predictions : list Detection) (frameHeight : R) (w : World) :
  snd (detectPeopleWithCrossing clock random predictions frameHeight w)
  = fs_events (frameState clock random predictions frameHeight w).
Proof. reflexivity. Qed.

Lemma run_cons (predictions : list Detection) (frameHeight : R)
    (rest : list (list Detection * R)) (w : World) :
  let r := detectPeopleWithCrossing clock random predictions frameHeight w in
  run clock random ((predictions, frameHeight) :: rest) w
  = (fst (run clock random rest (snd (fst r))),
     snd r :: snd (run clock random rest (snd (fst r)))).
Proof.
  cbv zeta. cbn [run].
  destruct (detectPeopleWithCrossing clock random predictions frameHeight w)
    as [[out w'] evs].
  simpl. destruct (run clock random rest w'); reflexivity.
Qed.

End Frames.

Section Lifecycle.

Variable clock : nat -> Z.
Variable random : nat -> string.

(** In the registry the association loop leaves, the only unclaimed track
    with the key of a track [p] of the frame's start is [p] after its
    cooldown tick, and [p] was then not stale. *)
Lemma unclaimed_after_association (predictions : list Detection) (frameHeight : R)
    (w : World) (p q : TrackedPerson) :
  let st := frameState clock random predictions frameHeight w in
  NoDup (keys (trackedPeople w)) -> In p (trackedPeople w) ->
  In q (trackedPeople (fs_world st)) -> id q = id p ->
  set_has (matchedPeople st) (id p) = false ->
  q = cooldownTick p /\ isStale (clock (S (clockReads w))) p = false.
Proof.
  cbv zeta. intros Hnd Hp Hq Hid Hm.
  destruct (frameState_assocInv clock random predictions frameHeight w)
    as [B1 _ _ _ _ _ _ _ _].
  rewrite <- Hid in Hm. apply B1 in Hq; [| exact Hm].
  apply beforeAssociation_In in Hq as (p' & Hp' & -> & Hs).
  rewrite cooldownTick_id in Hid.
  assert (p' = p) by (eapply NoDup_keys_eq; eauto). subst p'. auto.
Qed.

End Lifecycle.

(** ** Removal, read by read *)

Section RemovalReads.

Variable clock : nat -> Z.
Variable matched : list PersonId.

(** The pass examines an unclaimed track at one of its clock reads, and
    collects it exactly when that read is beyond the grace period. *)
Lemma collectUnmatched_decides (m : Registry) (p : TrackedPerson) :
  forall reads,
    NoDup (keys m) -> In p m -> set_has matched (id p) = false ->
    exists j, (reads <= j < snd (collectUnmatched clock matched m reads))%nat
              /\ (In (id p) (fst (collectUnmatched clock matched m reads))
                  <-> (clock j - lastSeen p > GRACE_PERIOD)%Z).
Proof.
  induction m as [| x rest IH]; intros reads Hnd Hin Hm; [destruct Hin |].
  inversion Hnd as [| ? ? Hx Hrest]; subst. simpl.
  destruct (set_has matched (id x)) eqn:Hmx.
  - destruct Hin as [-> | Hin]; [congruence |].
    apply IH; auto.
  - pose proof (collectUnmatched_reads clock matched rest (S reads)) as Hr.
    assert (Hsound : forall k, In k (fst (collectUnmatched clock matched rest
                                            (S reads))) ->
                               In k (keys rest)).
    { intros k Hk.
      apply collectUnmatched_sound in Hk as (q & j & Hq & <- & _).
      unfold keys. now apply in_map. }
    destruct Hin as [-> | Hin].
    + exists reads.
      destruct (collectUnmatched clock matched rest (S reads)) as [ids reads'].
      simpl in *.
      destruct (clock reads - lastSeen p >? GRACE_PERIOD)%Z eqn:Ht; simpl.
      * apply Z.gtb_lt in Ht. split; [lia |]. split; [lia | now left].
      * rewrite Z.gtb_ltb in Ht. apply Z.ltb_ge in Ht. split; [lia |].
        split; [intros Hk; exfalso; apply Hx; auto | lia].
    + destruct (IH (S reads) Hrest Hin Hm) as (j & Hj & Hiff).
      exists j.
      assert (Hne : id x <> id p).
      { intros Heq. apply Hx. rewrite Heq. unfold keys. now apply in_map. }
      destruct (collectUnmatched clock matched rest (S reads)) as [ids reads'].
      simpl in *.
      destruct (_ >? _)%Z; simpl; (split; [lia |]); rewrite <- Hiff;
        intuition.
Qed.

End RemovalReads.

Section RemovalByFrame.

Variable clock : nat -> Z.
Variable random : nat -> string.

Lemma removeUnmatched_reads (matched : list PersonId) (w : World) :
  clockReads (removeUnmatched clock matched w)
  = snd (collectUnmatched clock matched (trackedPeople w) (clockReads w))
  /\ randomDraws (removeUnmatched clock matched w) = randomDraws w.
Proof.
  unfold removeUnmatched. now destruct (collectUnmatched _ _ _ _).
Qed.

(** An unclaimed track that the cleanup kept is examined at one clock read
    of the removal pass, and what that read shows decides. *)
Lemma unclaimed_track_decided (predictions : list Detection) (frameHeight : R)
    (w : World) (p : TrackedPerson) :
  let st := frameState clock random predictions frameHeight w in
  let w' := snd (fst (detectPeopleWithCrossing clock random predictions
                                               frameHeight w)) in
  NoDup (keys (trackedPeople w)) -> In p (trackedPeople w) ->
  set_has (matchedPeople st) (id p) = false ->
  (clock (S (clockReads w)) - lastSeen p <= TRACKING_TIMEOUT)%Z ->
  exists j, (clockReads (fs_world st) <= j < clockReads w')%nat
            /\ ((clock j - lastSeen p <= GRACE_PERIOD)%Z ->
                In (cooldownTick p) (trackedPeople w'))
            /\ ((clock j - lastSeen p > GRACE_PERIOD)%Z ->
                ~ In (id p) (keys (trackedPeople w'))).
Proof.
  cbv zeta. intros Hnd Hp Hm Hfresh. rewrite frame_world.
  destruct (frameState_assocInv clock random predictions frameHeight w)
    as [_ B2 _ _ _ _ _ _ _].
  set (st := frameState clock random predictions frameHeight w) in *.
  assert (Hq : In (cooldownTick p) (trackedPeople (fs_world st))).
  { apply B2; [| now rewrite cooldownTick_id].
    apply beforeAssociation_keeps; [easy |].
    unfold isStale. rewrite Z.gtb_ltb. apply Z.ltb_ge. lia. }
  assert (HndA : NoDup (keys (trackedPeople (fs_world st)))).
  { unfold st, frameState. apply associate_NoDup.
    now apply beforeAssociation_NoDup. }
  destruct (collectUnmatched_decides clock (matchedPeople st)
              (trackedPeople (fs_world st)) (cooldownTick p)
              (clockReads (fs_world st)) HndA Hq)
    as (j & Hj & Hiff); [now rewrite cooldownTick_id |].
  rewrite cooldownTick_id, cooldownTick_lastSeen in Hiff.
  exists j. rewrite (proj1 (removeUnmatched_reads _ _)).
  split; [exact Hj |]. split.
  - intros Hle. apply removeUnmatched_In. split; [exact Hq |].
    rewrite cooldownTick_id. intros Hin. apply Hiff in Hin. lia.
  - intros Hgt Hin. unfold keys in Hin.
    apply in_map_iff in Hin as (q & Hid & Hin).
    apply removeUnmatched_In in Hin as [Hin Hnot].
    apply Hnot. rewrite Hid. now apply Hiff.
Qed.

(** C5 (as the code has it).  During a frame a track [p] of the registry
    - is deleted by the cleanup, before any scoring, exactly when the clock
      reads more than [TRACKING_TIMEOUT] (3000 ms) after it was last seen;
    - is kept when a detection claims it;
    - when the cleanup kept it and no detection claims it, is examined at
      one clock read [j] of the removal pass of this frame: when that read
      is within the grace period (500 ms) of its last sighting it is kept as
      it is but for its cooldown tick, with box, position and last-seen time
      unmodified, and when that read is beyond the grace period it is
      deleted;
    - is deleted only in these ways: beyond the timeout at the cleanup, or
      unclaimed and beyond the grace period at a clock read of the removal
      pass of this frame.
    [resetTracking] empties the registry. *)
Theorem track_removal_conditions (predictions : list Detection) (frameHeight : R)
    (w : World) (p : TrackedPerson) :
  NoDup (keys (trackedPeople w)) -> In p (trackedPeople w) ->
  let now := clock (S (clockReads w)) in
  let st := frameState clock random predictions frameHeight w in
  let w' := snd (fst (detectPeopleWithCrossing clock random predictions
                                               frameHeight w)) in
  let duringRemoval (j : nat) :=
    (clockReads (fs_world st) <= j < clockReads w')%nat in
  ((now - lastSeen p > TRACKING_TIMEOUT)%Z ->
   ~ In (id p) (keys (trackedPeople (beforeAssociation clock predictions w))))
  /\ ((now - lastSeen p <= TRACKING_TIMEOUT)%Z ->
      In (cooldownTick p) (trackedPeople (beforeAssociation clock predictions w)))
  /\ (In (id p) (matchedPeople st) -> In (id p) (keys (trackedPeople w')))
  /\ (set_has (matchedPeople st) (id p) = false ->
      (now - lastSeen p <= TRACKING_TIMEOUT)%Z ->
      exists j, duringRemoval j
                /\ ((clock j - lastSeen p <= GRACE_PERIOD)%Z ->
                    In (cooldownTick p) (trackedPeople w'))
                /\ ((clock j - lastSeen p > GRACE_PERIOD)%Z ->
                    ~ In (id p) (keys (trackedPeople w'))))
  /\ (set_has (matchedPeople st) (id p) = false ->
      (now - lastSeen p <= TRACKING_TIMEOUT)%Z ->
      (forall j, duringRemoval j -> (clock j - lastSeen p <= GRACE_PERIOD)%Z) ->
      In (cooldownTick p) (trackedPeople w'))
  /\ (set_has (matchedPeople st) (id p) = false ->
      (forall j, duringRemoval j -> (clock j - lastSeen p > GRACE_PERIOD)%Z) ->
      ~ In (id p) (keys (trackedPeople w')))
  /\ (~ In (id p) (keys (trackedPeople w')) ->
      (now - lastSeen p > TRACKING_TIMEOUT)%Z
      \/ (set_has (matchedPeople st) (id p) = false
          /\ exists j, duringRemoval j
                       /\ (clock j - lastSeen p > GRACE_PERIOD)%Z))
  /\ trackedPeople (resetTracking w) = [].
Proof.
  intros Hnd Hp; cbv zeta.
  pose proof (unclaimed_track_decided predictions frameHeight w p) as Hdec.
  cbv zeta in Hdec. specialize (Hdec Hnd Hp).
  rewrite frame_world in *.
  destruct (frameState_assocInv clock random predictions frameHeight w)
    as [B1 B2 B3 _ _ _ _ _ _].
  set (st := frameState clock random predictions frameHeight w) in *.
  set (w0 := beforeAssociation clock predictions w) in *.
  assert (Hfresh : (clock (S (clockReads w)) - lastSeen p <= TRACKING_TIMEOUT)%Z ->
                   In (cooldownTick p) (trackedPeople w0)).
  { intros Ht. apply beforeAssociation_keeps; [easy |].
    unfold isStale. rewrite Z.gtb_ltb. apply Z.ltb_ge. lia. }
  assert (Hclaimed : In (id p) (matchedPeople st) ->
                     In (id p) (keys (trackedPeople
                        (removeUnmatched clock (matchedPeople st) (fs_world st))))).
  { intros Hm. pose proof (B3 _ Hm) as Hk. unfold keys in Hk.
    apply in_map_iff in Hk as (q & Hid & Hq).
    unfold keys. apply in_map_iff. exists q. split; [easy |].
    apply removeUnmatched_keeps_claimed; [easy |].
    rewrite Hid. now apply set_has_In. }
  split; [| split; [| split; [| split; [| split; [| split; [| split]]]]]].
  - (* beyond the timeout: gone before the association *)
    intros Ht Hin. unfold keys in Hin. apply in_map_iff in Hin as (q & Hid & Hq).
    apply beforeAssociation_In in Hq as (p' & Hp' & -> & Hs).
    rewrite cooldownTick_id in Hid.
    assert (p' = p) by (eapply NoDup_keys_eq; eauto). subst p'.
    unfold isStale in Hs. rewrite Z.gtb_ltb, Z.ltb_ge in Hs. lia.
  - exact Hfresh.
  - exact Hclaimed.
  - exact Hdec.
  - (* unclaimed, within the grace period during the removal pass *)
    intros Hm Ht Hgrace.
    destruct (Hdec Hm Ht) as (j & Hj & Hkeep & _).
    apply Hkeep, Hgrace, Hj.
  - (* unclaimed, beyond the grace period during the removal pass *)
    intros Hm Hlate.
    destruct (Z_le_gt_dec (clock (S (clockReads w)) - lastSeen p) TRACKING_TIMEOUT)
      as [Hle | Hgt].
    + destruct (Hdec Hm Hle) as (j & Hj & _ & Hgone). apply Hgone, Hlate, Hj.
    + intros Hin. unfold keys in Hin.
      apply in_map_iff in Hin as (q & Hid & Hq).
      apply removeUnmatched_In in Hq as [Hq _].
      destruct (unclaimed_after_association clock random predictions
                  frameHeight w p q) as [_ Hs]; auto.
      unfold isStale in Hs. rewrite Z.gtb_ltb, Z.ltb_ge in Hs. lia.
  - (* deleted only in these ways *)
    intros Hgone.
    destruct (Z_le_gt_dec (clock (S (clockReads w)) - lastSeen p) TRACKING_TIMEOUT)
      as [Hle | Hgt]; [right | now left].
    assert (Hm : set_has (matchedPeople st) (id p) = false).
    { destruct (set_has (matchedPeople st) (id p)) eqn:Hs; [| reflexivity].
      exfalso. apply Hgone, Hclaimed. now apply set_has_In. }
    split; [exact Hm |].
    destruct (Hdec Hm Hle) as (j & Hj & Hkeep & _).
    exists j. split; [exact Hj |].
    destruct (Z_le_gt_dec (clock j - lastSeen p) GRACE_PERIOD) as [Hin | Hout];
      [| exact Hout].
    exfalso. apply Hgone. unfold keys. apply in_map_iff.
    exists (cooldownTick p). split; [apply cooldownTick_id | now apply Hkeep].
  - reflexivity.
Qed.

End RemovalByFrame.

(** ** The crossing state of the tracks *)

Lemma cooldownTick_ok (p : TrackedPerson) :
  crossingStateOk p -> crossingStateOk (cooldownTick p).
Proof.
  unfold crossingStateOk, cooldownTick, CROSSING_COOLDOWN.
  intros (Hf & Ht & Hlt).
  destruct (crossed p) eqn:Hc.
  - destruct (15 <=? S (framesSinceCrossing p))%nat eqn:Hn; simpl.
    + repeat split; auto; try discriminate. lia.
    + apply Nat.leb_gt in Hn. repeat split; auto; discriminate.
  - rewrite Hc. auto.
Qed.

Lemma checkCrossing_ok (lineY pcx : R) (p : TrackedPerson) :
  crossingStateOk p -> crossingStateOk (fst (checkCrossing lineY pcx p)).
Proof.
  intros Hok.
  destruct (snd (checkCrossing lineY pcx p)) as [d |] eqn:Hev.
  - apply checkCrossing_Some in Hev as [_ ->].
    unfold crossingStateOk, CROSSING_COOLDOWN; simpl.
    repeat split; try discriminate; try lia. destruct d; auto.
  - apply checkCrossing_None in Hev. now rewrite Hev.
Qed.

Section CrossingState.

Variable clock : nat -> Z.
Variable random : nat -> string.

Lemma processDetection_ok (lineY : R) (st : FrameState) (d : Detection) :
  Forall crossingStateOk (trackedPeople (fs_world st)) ->
  Forall crossingStateOk
    (trackedPeople (fs_world (processDetection clock random lineY st d))).
Proof.
  intros Hok.
  destruct (processDetection_cases clock random lineY st d)
    as [(p & _ & Hin & _ & Hst) | [(p & _ & _ & Hst) | (_ & Hst)]];
    cbv zeta in Hst; rewrite Hst; simpl; auto.
  - apply Forall_map_set; [easy |]. apply checkCrossing_ok.
    rewrite Forall_forall in Hok. apply (Hok p Hin).
  - apply Forall_map_set; [easy |].
    unfold crossingStateOk, CROSSING_COOLDOWN; simpl.
    repeat split; auto; try discriminate; lia.
Qed.

Lemma frame_ok (predictions : list Detection) (frameHeight : R) (w : World) :
  Forall crossingStateOk (trackedPeople w) ->
  Forall crossingStateOk
    (trackedPeople (snd (fst (detectPeopleWithCrossing clock random predictions
                                                       frameHeight w)))).
Proof.
  intros Hok. rewrite frame_world.
  assert (Hst : Forall crossingStateOk
                  (trackedPeople
                     (fs_world (frameState clock random predictions frameHeight w)))).
  { unfold frameState, associate.
    apply (fold_left_inv (processDetection clock random _)
             (fun st => Forall crossingStateOk (trackedPeople (fs_world st)))).
    - intros st d. apply processDetection_ok.
    - simpl. rewrite Forall_forall in *. intros q Hq.
      apply in_map_iff in Hq as (p & <- & Hp). apply filter_In in Hp as [Hp _].
      apply cooldownTick_ok. auto. }
  rewrite Forall_forall in *. intros q Hq.
  apply removeUnmatched_In in Hq as [Hq _]. auto.
Qed.

(** C9. The crossing state of every track is consistent after
    [resetTracking] and, if it was before a frame, after the frame: a track
    with [crossed = false] has [framesSinceCrossing = 0] and no direction,
    one with [crossed = true] has the direction [in] or [out], and
    [framesSinceCrossing] is below [CROSSING_COOLDOWN].  Hence it is in every
    state reached by frames from a reset. *)
Theorem crossing_state_invariant :
  (forall w, Forall crossingStateOk (trackedPeople (resetTracking w)))
  /\ (forall predictions frameHeight w,
         Forall crossingStateOk (trackedPeople w) ->
         Forall crossingStateOk
           (trackedPeople
              (snd (fst (detectPeopleWithCrossing clock random predictions
                                                  frameHeight w)))))
  /\ (forall frames w,
         Forall crossingStateOk
           (trackedPeople (fst (run clock random frames (resetTracking w))))).
Proof.
  split; [| split].
  - intros w. constructor.
  - apply frame_ok.
  - intros frames w.
    assert (Hrun : forall fs v, Forall crossingStateOk (trackedPeople v) ->
                     Forall crossingStateOk
                       (trackedPeople (fst (run clock random fs v)))).
    { induction fs as [| [predictions frameHeight] rest IH]; intros v Hv;
        [easy |].
      rewrite run_cons. cbn [fst]. apply IH. now apply frame_ok. }
    apply Hrun. constructor.
Qed.

(** C10. A detection that matches nothing starts a track whose [previousY]
    is its [centerY], leaves both counters and the event log as they are and
    marks the new key as claimed; a detection whose track is already claimed
    changes nothing.  So every event of a frame names a track that was in the
    registry, out of cooldown, when the association of that frame began, and
    a key that was not in the registry then has no event in the frame. *)
Theorem new_track_is_not_counted :
  (forall lineY st d,
      findClosestPerson (trackedPeople (fs_world st)) (d_bbox d)
        (detCenterX d) (detCenterY d) = None ->
      let w := fs_world st in
      let k := mkPersonId (clock (clockReads w)) (random (randomDraws w)) in
      let created :=
        newPerson k (d_bbox d) (detCenterX d) (detCenterY d)
                  (clock (S (clockReads w))) in
      let st' := processDetection clock random lineY st d in
      countIn st' = countIn st /\ countOut st' = countOut st
      /\ fs_events st' = fs_events st
      /\ In created (trackedPeople (fs_world st'))
      /\ previousY created = centerY created
      /\ set_has (matchedPeople st') k = true)
  /\ (forall lineY st d p,
         findClosestPerson (trackedPeople (fs_world st)) (d_bbox d)
           (detCenterX d) (detCenterY d) = Some p ->
         set_has (matchedPeople st) (id p) = true ->
         processDetection clock random lineY st d = st)
  /\ (forall predictions frameHeight w e,
         In e (snd (detectPeopleWithCrossing clock random predictions
                                             frameHeight w)) ->
         exists p, In p (trackedPeople (beforeAssociation clock predictions w))
                   /\ id p = ev_id e /\ crossed p = false)
  /\ (forall predictions frameHeight w k,
         ~ In k (keys (trackedPeople (beforeAssociation clock predictions w))) ->
         eventsOf k (snd (detectPeopleWithCrossing clock random predictions
                                                   frameHeight w)) = []).
Proof.
  assert (Hold : forall predictions frameHeight w e,
             In e (snd (detectPeopleWithCrossing clock random predictions
                                                 frameHeight w)) ->
             exists p, In p (trackedPeople (beforeAssociation clock predictions w))
                       /\ id p = ev_id e /\ crossed p = false).
  { intros predictions frameHeight w e He. rewrite frame_events in He.
    destruct (frameState_assocInv clock random predictions frameHeight w)
      as [_ _ _ _ _ B4 _ _ _].
    auto. }
  split; [| split; [| split]].
  - intros lineY st d Hf; cbv zeta.
    rewrite (processDetection_new clock random lineY st d Hf); cbv zeta; simpl.
    repeat split; auto.
    + apply In_map_set_new.
    + apply set_has_set_add. now right.
  - intros lineY st d p Hf Hm. now apply processDetection_claimed with p.
  - exact Hold.
  - intros predictions frameHeight w k Hk. unfold eventsOf.
    destruct (filter _ _) as [| e rest] eqn:Hfil; [reflexivity | exfalso].
    assert (He : In e (e :: rest)) by now left.
    rewrite <- Hfil in He. apply filter_In in He as [He Hid].
    apply id_eqb_eq in Hid.
    destruct (Hold _ _ _ _ He) as (p & Hp & Hpid & _).
    apply Hk. rewrite <- Hid, <- Hpid. unfold keys. now apply in_map.
Qed.

End CrossingState.

(** ** Cooldown *)

Lemma cooldownTick_idle (p : TrackedPerson) :
  crossed p = false -> cooldownTick p = p.
Proof. intros H; unfold cooldownTick; now rewrite H. Qed.

Lemma cooldownTick_running (p : TrackedPerson) :
  crossed p = true ->
  (S (framesSinceCrossing p) < CROSSING_COOLDOWN)%nat ->
  cooldownTick p
  = mkTrackedPerson (id p) (bbox p) (centerX p) (centerY p) (previousY p)
      (lastSeen p) true (direction p) (S (framesSinceCrossing p)).
Proof.
  intros Hc Hn. unfold cooldownTick. rewrite Hc.
  apply Nat.leb_gt in Hn. now rewrite Hn.
Qed.

Lemma cooldownTick_expired (p : TrackedPerson) :
  crossed p = true ->
  (CROSSING_COOLDOWN <= S (framesSinceCrossing p))%nat ->
  cooldownTick p
  = mkTrackedPerson (id p) (bbox p) (centerX p) (centerY p) (previousY p)
      (lastSeen p) false None 0.
Proof.
  intros Hc Hn. unfold cooldownTick. rewrite Hc.
  apply Nat.leb_le in Hn. now rewrite Hn.
Qed.

Lemma eventsOf_app (k : PersonId) (l1 l2 : list Event) :
  eventsOf k (l1 ++ l2) = eventsOf k l1 ++ eventsOf k l2.
Proof. apply filter_app. Qed.

Lemma eventsOf_nil_iff (k : PersonId) (log : list Event) :
  eventsOf k log = [] <-> forall e, In e log -> ev_id e <> k.
Proof.
  unfold eventsOf. induction log as [| x rest IH]; simpl.
  - split; [intros _ e [] | reflexivity].
  - destruct (id_eqb (ev_id x) k) eqn:Hx.
    + split; [discriminate |]. intros H. apply id_eqb_eq in Hx.
      exfalso. apply (H x); auto.
    + rewrite IH. apply id_eqb_neq in Hx. split.
      * intros H e [<- | He]; auto.
      * intros H e He. apply H. now right.
Qed.

(** In a log that names no track twice, the events of a track that has one
    are that one. *)
Lemma eventsOf_unique (log : list Event) (e : Event) :
  NoDup (map ev_id log) -> In e log -> eventsOf (ev_id e) log = [e].
Proof.
  unfold eventsOf. induction log as [| x rest IH]; simpl; [easy |].
  intros Hnd Hin. inversion Hnd as [| ? ? Hx Hrest]; subst.
  destruct Hin as [-> | Hin].
  - rewrite id_eqb_refl. f_equal.
    apply (eventsOf_nil_iff (ev_id e) rest). intros e' He' Heq.
    apply Hx. rewrite <- Heq. now apply in_map.
  - destruct (id_eqb (ev_id x) (ev_id e)) eqn:Hxe; [| auto].
    apply id_eqb_eq in Hxe. exfalso. apply Hx. rewrite Hxe. now apply in_map.
Qed.

Section Cooldown.

Variable clock : nat -> Z.
Variable random : nat -> string.

Lemma processDetection_cooling (k : PersonId) (c : nat) (d : option Direction)
    (n : nat) (lineY : R) (st : FrameState) (det : Detection) :
  notRedrawn random k n ->
  coolingAt k c d (trackedPeople (fs_world st))
  /\ eventsOf k (fs_events st) = []
  /\ (n <= randomDraws (fs_world st))%nat ->
  let st' := processDetection clock random lineY st det in
  coolingAt k c d (trackedPeople (fs_world st'))
  /\ eventsOf k (fs_events st') = []
  /\ (n <= randomDraws (fs_world st'))%nat.
Proof.
  intros Hnr (Hcool & Hev & Hn); cbv zeta.
  destruct (processDetection_cases clock random lineY st det)
    as [(p & _ & Hin & _ & Hst) | [(p & _ & _ & Hst) | (_ & Hst)]];
    cbv zeta in Hst; rewrite Hst; simpl; auto.
  - set (moved := moveTo p _ _ _ _).
    destruct (id_eqb (id p) k) eqn:Hk.
    + apply id_eqb_eq in Hk. destruct (Hcool p Hin Hk) as (Hc & Hf & Hd).
      rewrite (checkCrossing_cooldown lineY (centerX p) moved) by exact Hc.
      simpl. split; [| split]; auto.
      intros q Hq Hid. destruct (In_map_set _ _ _ Hq) as [-> | Hq']; auto.
    + pose proof (checkCrossing_id lineY (centerX p) moved) as Hid'.
      change (id moved) with (id p) in Hid'.
      split; [| split]; auto.
      * intros q Hq Hid. destruct (In_map_set _ _ _ Hq) as [-> | Hq']; auto.
        apply id_eqb_neq in Hk. congruence.
      * destruct (snd (checkCrossing lineY (centerX p) moved)); simpl; auto.
        rewrite eventsOf_app, Hev. simpl. now rewrite Hk.
  - split; [| split]; auto.
    intros q Hq Hid. destruct (In_map_set _ _ _ Hq) as [-> | Hq']; auto.
    exfalso. simpl in Hid. apply (Hnr (randomDraws (fs_world st)) Hn).
    now rewrite <- Hid.
Qed.

(** A frame that starts with the track [k] in cooldown, one tick short of
    the window at least, counts nothing for [k] and leaves it in cooldown
    with its counter one up. *)
Lemma frame_cooling (k : PersonId) (c : nat) (d : option Direction)
    (predictions : list Detection) (frameHeight : R) (w : World) :
  notRedrawn random k (randomDraws w) ->
  coolingAt k c d (trackedPeople w) ->
  (S c < CROSSING_COOLDOWN)%nat ->
  let r := detectPeopleWithCrossing clock random predictions frameHeight w in
  eventsOf k (snd r) = []
  /\ coolingAt k (S c) d (trackedPeople (snd (fst r)))
  /\ (randomDraws w <= randomDraws (snd (fst r)))%nat.
Proof.
  intros Hnr Hcool Hc; cbv zeta. rewrite frame_events, frame_world.
  assert (Hst : let st := frameState clock random predictions frameHeight w in
                coolingAt k (S c) d (trackedPeople (fs_world st))
                /\ eventsOf k (fs_events st) = []
                /\ (randomDraws w <= randomDraws (fs_world st))%nat).
  { cbv zeta. unfold frameState, associate.
    apply (fold_left_inv (processDetection clock random _)
             (fun st => coolingAt k (S c) d (trackedPeople (fs_world st))
                        /\ eventsOf k (fs_events st) = []
                        /\ (randomDraws w <= randomDraws (fs_world st))%nat)).
    - intros st det Hinv. now apply processDetection_cooling.
    - simpl. split; [| split]; auto.
      intros q Hq Hid. apply in_map_iff in Hq as (p & <- & Hp).
      apply filter_In in Hp as [Hp _]. rewrite cooldownTick_id in Hid.
      destruct (Hcool p Hp Hid) as (Hcr & Hf & Hd).
      rewrite cooldownTick_running by (rewrite ?Hf; auto).
      simpl. rewrite Hf. auto. }
  cbv zeta in Hst. destruct Hst as (Hcool' & Hev & Hn).
  split; [| split]; auto.
  - intros q Hq Hid. apply removeUnmatched_In in Hq as [Hq _].
    now apply (Hcool' q Hq Hid).
  - unfold removeUnmatched. destruct (collectUnmatched _ _ _ _). exact Hn.
Qed.

(** While the cooldown window has not elapsed, no frame counts [k]. *)
Lemma run_cooling (k : PersonId) (d : option Direction)
    (frames : list (list Detection * R)) :
  forall (c : nat) (w : World),
    notRedrawn random k (randomDraws w) ->
    coolingAt k c d (trackedPeople w) ->
    (c + List.length frames < CROSSING_COOLDOWN)%nat ->
    forall log, In log (snd (run clock random frames w)) -> eventsOf k log = [].
Proof.
  induction frames as [| [predictions frameHeight] rest IH];
    intros c w Hnr Hcool Hc log Hlog; [destruct Hlog |].
  rewrite run_cons in Hlog. cbn [snd] in Hlog.
  simpl List.length in Hc.
  destruct (frame_cooling k c d predictions frameHeight w Hnr Hcool)
    as (Hev & Hcool' & Hn); [lia |].
  destruct Hlog as [<- | Hlog]; [exact Hev |].
  eapply (IH (S c)); [| exact Hcool' | lia | exact Hlog].
  intros j Hj. apply Hnr. lia.
Qed.

End Cooldown.

Section CountedOnce.

Variable clock : nat -> Z.
Variable random : nat -> string.

(** A frame that counts the track [k] leaves it in cooldown with a zero
    counter and the direction that was counted. *)
Lemma frame_counted_enters_cooldown (k : PersonId) (d : Direction)
    (predictions : list Detection) (frameHeight : R) (w : World) :
  NoDup (keys (trackedPeople w)) ->
  notRedrawn random k (randomDraws w) ->
  In (mkEvent k d)
     (snd (detectPeopleWithCrossing clock random predictions frameHeight w)) ->
  let w1 := snd (fst (detectPeopleWithCrossing clock random predictions
                                               frameHeight w)) in
  coolingAt k 0 (Some d) (trackedPeople w1)
  /\ (exists q, In q (trackedPeople w1) /\ id q = k)
  /\ (randomDraws w <= randomDraws w1)%nat.
Proof.
  intros Hnd Hnr Hev; cbv zeta. rewrite frame_events in Hev. rewrite frame_world.
  set (reg0 := trackedPeople (beforeAssociation clock predictions w)).
  assert (Hst : let st := frameState clock random predictions frameHeight w in
                assocInv reg0 st
                /\ NoDup (keys (trackedPeople (fs_world st)))
                /\ (randomDraws w <= randomDraws (fs_world st))%nat
                /\ (forall e, In e (fs_events st) -> ev_id e = k ->
                              coolingAt k 0 (Some (ev_dir e))
                                        (trackedPeople (fs_world st)))).
  { cbv zeta. unfold frameState, associate.
    apply (fold_left_inv (processDetection clock random _)
             (fun st =>
                assocInv reg0 st
                /\ NoDup (keys (trackedPeople (fs_world st)))
                /\ (randomDraws w <= randomDraws (fs_world st))%nat
                /\ (forall e, In e (fs_events st) -> ev_id e = k ->
                              coolingAt k 0 (Some (ev_dir e))
                                        (trackedPeople (fs_world st))))).
    - intros st det (Hinv & Hnd' & Hn & Hcool).
      split; [now apply processDetection_assocInv |].
      split; [now apply processDetection_NoDup |].
      destruct Hinv as [_ _ _ _ A1 _ _ _ _].
      destruct (processDetection_cases clock random
                  (frameHeight * CROSSING_LINE_POSITION) st det)
        as [(p & _ & Hin & Hm & Hst) | [(p & _ & _ & Hst) | (_ & Hst)]];
        cbv zeta in Hst; rewrite Hst; simpl; auto.
      + set (moved := moveTo p _ _ _ _).
        pose proof (checkCrossing_id (frameHeight * CROSSING_LINE_POSITION)
                      (centerX p) moved) as Hid'.
        change (id moved) with (id p) in Hid'.
        assert (Hold : forall e, In e (fs_events st) -> ev_id e = k ->
                  coolingAt k 0 (Some (ev_dir e))
                    (map_set (trackedPeople (fs_world st))
                       (fst (checkCrossing (frameHeight * CROSSING_LINE_POSITION)
                               (centerX p) moved)))).
        { intros e He Hk q Hq Hid.
          destruct (In_map_set _ _ _ Hq) as [-> | Hq'];
            [| now apply (Hcool e He Hk q Hq')].
          exfalso. apply A1 in He. apply set_has_In in He. congruence. }
        split; [exact Hn |].
        destruct (snd (checkCrossing _ (centerX p) moved)) as [dir |] eqn:Hc;
          simpl; [| exact Hold].
        intros e He Hk. apply in_app_iff in He as [He | [<- | []]]; auto.
        simpl in Hk. intros q Hq Hid.
        apply map_set_unique in Hq; [| exact Hnd' | congruence].
        apply checkCrossing_Some in Hc as [_ Hv]. rewrite Hq, Hv. simpl. auto.
      + split; [lia |].
        intros e He Hk q Hq Hid.
        destruct (In_map_set _ _ _ Hq) as [-> | Hq'];
          [| now apply (Hcool e He Hk q Hq')].
        exfalso. simpl in Hid. apply (Hnr (randomDraws (fs_world st)) Hn).
        now rewrite <- Hid.
    - split; [| split; [| split]].
      + constructor; simpl; auto; try easy. constructor.
      + now apply beforeAssociation_NoDup.
      + simpl. lia.
      + intros e []. }
  cbv zeta in Hst. destruct Hst as (Hinv & Hnd' & Hn & Hcool).
  destruct Hinv as [_ _ B3 _ A1 _ _ _ _].
  split; [| split].
  - intros q Hq Hid. apply removeUnmatched_In in Hq as [Hq _].
    now apply (Hcool _ Hev eq_refl q Hq Hid).
  - pose proof (B3 _ (A1 _ Hev)) as Hk. simpl in Hk. unfold keys in Hk.
    apply in_map_iff in Hk as (q & Hid & Hq). exists q. split; [| exact Hid].
    apply removeUnmatched_keeps_claimed; [exact Hq |].
    rewrite Hid. apply set_has_In. apply (A1 _ Hev).
  - unfold removeUnmatched. destruct (collectUnmatched _ _ _ _). exact Hn.
Qed.

End CountedOnce.

(** ** Association *)

Lemma insertByScore_perm (d : Detection) (l : list Detection) :
  Permutation (d :: l) (insertByScore d l).
Proof.
  induction l as [| x rest IH]; simpl; [reflexivity |].
  destruct (Rge_b (d_score d) (d_score x)); [reflexivity |].
  rewrite perm_swap. now constructor.
Qed.

Lemma insertByScore_sorted (d : Detection) (l : list Detection) :
  StronglySorted byScoreDesc l -> StronglySorted byScoreDesc (insertByScore d l).
Proof.
  induction l as [| x rest IH]; simpl; intros Hs.
  - repeat constructor.
  - inversion Hs as [| ? ? Hrest Hx]; subst.
    destruct (Rge_b (d_score d) (d_score x)) eqn:Hd.
    + apply Rge_b_true in Hd. constructor; [exact Hs |].
      constructor; [exact Hd |].
      rewrite Forall_forall in *. intros y Hy. specialize (Hx y Hy).
      unfold byScoreDesc in *. lra.
    + apply Rge_b_false in Hd. constructor; [now apply IH |].
      apply (Permutation_Forall (insertByScore_perm d rest)).
      constructor; [| exact Hx]. unfold byScoreDesc. lra.
Qed.

Lemma sortByScore_perm (l : list Detection) : Permutation l (sortByScore l).
Proof.
  induction l as [| d rest IH]; simpl; [reflexivity |].
  rewrite <- insertByScore_perm. now constructor.
Qed.

Lemma sortByScore_sorted (l : list Detection) :
  StronglySorted byScoreDesc (sortByScore l).
Proof.
  induction l as [| d rest IH]; simpl; [constructor |].
  now apply insertByScore_sorted.
Qed.

Section Association.

Variable clock : nat -> Z.
Variable random : nat -> string.

(** C1 (as the code has it).  The detections that pass the filter are
    processed by descending confidence.  Each is scored against every track
    of the registry within [TRACKING_THRESHOLD], claimed in this frame or
    not.  If none scores above 0.3, the detection starts a track: its key is
    made of the clock and a random suffix, its position is the detection's,
    [previousY] is [centerY], it is out of cooldown with no direction and a
    zero counter, [lastSeen] is the clock, and it goes last in the registry
    when the key is new.  If some track scores above 0.3, no track is
    started: a best-scoring track of the whole registry is selected; when it
    is unclaimed the detection claims and updates it, and when it is already
    claimed the detection is dropped and the state is as before. *)
Theorem association_scores_whole_registry :
  (forall predictions frameHeight w,
      let sortedDetections := sortByScore (filter isPerson predictions) in
      frameState clock random predictions frameHeight w
      = fold_left (processDetection clock random
                     (frameHeight * CROSSING_LINE_POSITION))
                  sortedDetections
                  (mkFrameState (beforeAssociation clock predictions w) [] 0 0 [])
      /\ Permutation (filter isPerson predictions) sortedDetections
      /\ StronglySorted byScoreDesc sortedDetections)
  /\ (forall lineY st d,
         let w := fs_world st in
         let cx := detCenterX d in
         let cy := detCenterY d in
         (forall q, In q (trackedPeople w) -> withinThreshold cx cy q ->
                    num_gt (matchScore (d_bbox d) cx cy q) (Fin MIN_MATCH_SCORE)
                    = false) ->
         let k := mkPersonId (clock (clockReads w)) (random (randomDraws w)) in
         let created :=
           mkTrackedPerson k (d_bbox d) cx cy cy (clock (S (clockReads w)))
                           false None 0 in
         let st' := processDetection clock random lineY st d in
         trackedPeople (fs_world st') = map_set (trackedPeople w) created
         /\ (~ In k (keys (trackedPeople w)) ->
             trackedPeople (fs_world st') = trackedPeople w ++ [created])
         /\ matchedPeople st' = set_add (matchedPeople st) k
         /\ countIn st' = countIn st /\ countOut st' = countOut st)
  /\ (forall lineY st d p,
         let w := fs_world st in
         let cx := detCenterX d in
         let cy := detCenterY d in
         In p (trackedPeople w) -> withinThreshold cx cy p ->
         num_gt (matchScore (d_bbox d) cx cy p) (Fin MIN_MATCH_SCORE) = true ->
         let st' := processDetection clock random lineY st d in
         keys (trackedPeople (fs_world st')) = keys (trackedPeople w)
         /\ exists best,
             In best (trackedPeople w) /\ withinThreshold cx cy best
             /\ num_gt (matchScore (d_bbox d) cx cy best) (Fin MIN_MATCH_SCORE)
                = true
             /\ (forall q, In q (trackedPeople w) -> withinThreshold cx cy q ->
                           num_gt (matchScore (d_bbox d) cx cy q)
                                  (matchScore (d_bbox d) cx cy best) = false)
             /\ (set_has (matchedPeople st) (id best) = true -> st' = st)
             /\ (set_has (matchedPeople st) (id best) = false ->
                 trackedPeople (fs_world st')
                 = map_set (trackedPeople w)
                     (fst (checkCrossing lineY (centerX best)
                             (moveTo best (d_bbox d) cx cy (clock (clockReads w)))))
                 /\ matchedPeople st' = set_add (matchedPeople st) (id best))).
Proof.
  split; [| split].
  - intros predictions frameHeight w; cbv zeta. split; [reflexivity |].
    split; [apply sortByScore_perm | apply sortByScore_sorted].
  - intros lineY st d; cbv zeta. intros Hnone.
    apply findClosestPerson_None in Hnone.
    rewrite (processDetection_new clock random lineY st d Hnone); cbv zeta; simpl.
    repeat split; auto.
    intros Hk. now apply map_set_absent.
  - intros lineY st d p; cbv zeta. intros Hp Hw Hs.
    destruct (findClosestPerson (trackedPeople (fs_world st)) (d_bbox d)
                (detCenterX d) (detCenterY d)) as [best |] eqn:Hf.
    + pose proof (findClosestPerson_Some _ _ _ _ _ Hf) as (Hin & Hwb & Hsb & Hmax).
      assert (Hkeys : forall v, id v = id best ->
                keys (map_set (trackedPeople (fs_world st)) v)
                = keys (trackedPeople (fs_world st))).
      { intros v Hv. apply keys_map_set_present. rewrite Hv.
        unfold keys. now apply in_map. }
      destruct (set_has (matchedPeople st) (id best)) eqn:Hm.
      * rewrite (processDetection_claimed clock random lineY st d best Hf Hm).
        split; [reflexivity |]. exists best.
        split; [exact Hin |]. split; [exact Hwb |]. split; [exact Hsb |].
        split; [exact Hmax |]. split; [reflexivity | congruence].
      * rewrite (processDetection_matched clock random lineY st d best Hf Hm).
        cbv zeta; simpl. split.
        -- apply Hkeys. now rewrite checkCrossing_id.
        -- exists best.
           split; [exact Hin |]. split; [exact Hwb |]. split; [exact Hsb |].
           split; [exact Hmax |]. split; [congruence | auto].
    + exfalso. rewrite findClosestPerson_None in Hf.
      rewrite (Hf p Hp Hw) in Hs. discriminate.
Qed.

End Association.

(** ** Two people crossing in opposite directions *)

Section Scenario.

Variable clock : nat -> Z.
Variable random : nat -> string.

(** Two detections that claim two different tracks, one after the other. *)
Lemma associate_two (lineY : R) (d1 d2 : Detection) (w : World)
    (p1 p2 : TrackedPerson) :
  let r1 := checkCrossing lineY (centerX p1)
              (moveTo p1 (d_bbox d1) (detCenterX d1) (detCenterY d1)
                      (clock (clockReads w))) in
  let reg1 := map_set (trackedPeople w) (fst r1) in
  let r2 := checkCrossing lineY (centerX p2)
              (moveTo p2 (d_bbox d2) (detCenterX d2) (detCenterY d2)
                      (clock (S (clockReads w)))) in
  findClosestPerson (trackedPeople w) (d_bbox d1) (detCenterX d1) (detCenterY d1)
  = Some p1 ->
  findClosestPerson reg1 (d_bbox d2) (detCenterX d2) (detCenterY d2) = Some p2 ->
  id p2 <> id p1 ->
  associate clock random lineY [d1; d2] w
  = mkFrameState
      (mkWorld (map_set reg1 (fst r2)) (S (S (clockReads w))) (randomDraws w))
      [id p1; id p2]
      (countEvent (snd r2) dir_in (countEvent (snd r1) dir_in 0))
      (countEvent (snd r2) dir_out (countEvent (snd r1) dir_out 0))
      (logEvent (id p2) (snd r2) (logEvent (id p1) (snd r1) [])).
Proof.
  cbv zeta. intros H1 H2 Hne. unfold associate. cbn [fold_left].
  rewrite (processDetection_matched clock random lineY
             (mkFrameState w [] 0%nat 0%nat []) d1 p1 H1 eq_refl).
  cbv zeta. cbn [fs_world matchedPeople countIn countOut fs_events].
  assert (Hadd : set_add (set_add [] (id p1)) (id p2) = [id p1; id p2]
                 /\ set_has (set_add [] (id p1)) (id p2) = false).
  { unfold set_add. simpl.
    destruct (id_eqb (id p1) (id p2)) eqn:He; [| now split].
    apply id_eqb_eq in He. congruence. }
  destruct Hadd as [Hadd Hm].
  match goal with
  | |- processDetection _ _ _ ?st _ = _ =>
      rewrite (processDetection_matched clock random lineY st d2 p2 H2 Hm)
  end.
  cbv zeta. cbn [fs_world trackedPeople clockReads randomDraws matchedPeople
                  countIn countOut fs_events].
  now rewrite Hadd.
Qed.

Lemma within_horizontal_bound (d : Detection) (p : TrackedPerson) :
  withinThreshold (detCenterX d) (detCenterY d) p ->
  Rabs (detCenterX d - centerX p) * 0.1 <= 40.
Proof.
  intros Hw. unfold withinThreshold, TRACKING_THRESHOLD in Hw.
  apply calculateDistance_le_inv in Hw as [Hx _]; [| lra].
  rewrite Rabs_minus_sym. lra.
Qed.

(** The outcome of the crossing evaluation for a claimed track that goes
    over the line by more than 40 pixels. *)
Lemma checkCrossing_moved (lineY : R) (p : TrackedPerson) (d : Detection) (now : Z) :
  crossed p = false ->
  withinThreshold (detCenterX d) (detCenterY d) p ->
  Rabs (detCenterY d - centerY p) > 40 ->
  (centerY p < lineY < detCenterY d ->
   checkCrossing lineY (centerX p)
     (moveTo p (d_bbox d) (detCenterX d) (detCenterY d) now)
   = (mkTrackedPerson (id p) (d_bbox d) (detCenterX d) (detCenterY d) (centerY p)
        now true (Some dir_in) 0, Some dir_in))
  /\ (detCenterY d < lineY < centerY p ->
      checkCrossing lineY (centerX p)
        (moveTo p (d_bbox d) (detCenterX d) (detCenterY d) now)
      = (mkTrackedPerson (id p) (d_bbox d) (detCenterX d) (detCenterY d) (centerY p)
           now true (Some dir_out) 0, Some dir_out)).
Proof.
  intros Hc Hw Hv. pose proof (within_horizontal_bound d p Hw) as Hh.
  set (moved := moveTo p (d_bbox d) (detCenterX d) (detCenterY d) now).
  split; intros Hside.
  - assert (Hev : snd (checkCrossing lineY (centerX p) moved) = Some dir_in).
    { apply checkCrossing_down; simpl; auto;
        unfold MIN_DISTANCE_FOR_CROSSING; lra. }
    pose proof (checkCrossing_Some _ _ _ _ Hev) as [_ Hfst].
    destruct (checkCrossing lineY (centerX p) moved) as [q ev].
    simpl in *. now subst.
  - assert (Hev : snd (checkCrossing lineY (centerX p) moved) = Some dir_out).
    { apply checkCrossing_up; simpl; auto;
        unfold MIN_DISTANCE_FOR_CROSSING; lra. }
    pose proof (checkCrossing_Some _ _ _ _ Hev) as [_ Hfst].
    destruct (checkCrossing lineY (centerX p) moved) as [q ev].
    simpl in *. now subst.
Qed.

Lemma beforeAssociation_eq (predictions : list Detection) (w : World) :
  beforeAssociation clock predictions w
  = mkWorld (map cooldownTick
               (filter (fun person =>
                          negb (isStale (clock (S (clockReads w))) person))
                       (trackedPeople w)))
            (S (S (clockReads w))) (randomDraws w).
Proof. reflexivity. Qed.

Lemma isStale_false (now : Z) (p : TrackedPerson) :
  (now - lastSeen p <= TRACKING_TIMEOUT)%Z -> isStale now p = false.
Proof. intros H. unfold isStale. rewrite Z.gtb_ltb. apply Z.ltb_ge. lia. Qed.

(** C4 (as the code has it).  The registry holds a track for each of two
    people, both out of cooldown, A at y = 30 and B at y = 170, and the frame
    height is 200, so that the line is at y = 100.  In the next frame,
    processed before either track times out, A is detected at y = 130 and B
    at y = 60, and each detection selects its own track when it is processed:
    the more confident one against both tracks as the previous frame left
    them, the other against its own track and the other track already moved.
    Then the frame returns one entry and one exit, counted for A and for B,
    and the registry holds the same two keys, in the same order. *)
Theorem two_people_cross_in_opposite_directions
    (w : World) (tA tB : TrackedPerson) (dA dB : Detection) :
  trackedPeople w = [tA; tB] -> id tA <> id tB ->
  crossed tA = false -> crossed tB = false ->
  centerY tA = 30 -> centerY tB = 170 ->
  detCenterY dA = 130 -> detCenterY dB = 60 ->
  isPerson dA = true -> isPerson dB = true ->
  (clock (S (clockReads w)) - lastSeen tA <= TRACKING_TIMEOUT)%Z ->
  (clock (S (clockReads w)) - lastSeen tB <= TRACKING_TIMEOUT)%Z ->
  (d_score dA >= d_score dB ->
   findClosestPerson [tA; tB] (d_bbox dA) (detCenterX dA) (detCenterY dA) = Some tA
   /\ forall tA', placedAs tA' (id tA) dA ->
        findClosestPerson [tA'; tB] (d_bbox dB) (detCenterX dB) (detCenterY dB)
        = Some tB) ->
  (d_score dA < d_score dB ->
   findClosestPerson [tA; tB] (d_bbox dB) (detCenterX dB) (detCenterY dB) = Some tB
   /\ forall tB', placedAs tB' (id tB) dB ->
        findClosestPerson [tA; tB'] (d_bbox dA) (detCenterX dA) (detCenterY dA)
        = Some tA) ->
  let r := detectPeopleWithCrossing clock random [dA; dB] 200 w in
  out_countIn (fst (fst r)) = 1%nat /\ out_countOut (fst (fst r)) = 1%nat
  /\ eventsOf (id tA) (snd r) = [mkEvent (id tA) dir_in]
  /\ eventsOf (id tB) (snd r) = [mkEvent (id tB) dir_out]
  /\ keys (trackedPeople (snd (fst r))) = [id tA; id tB]
  /\ keys (trackedPeople (snd (fst r))) = keys (trackedPeople w).
Proof.
  intros Hreg Hne HcA HcB HyA HyB HdA HdB HpA HpB HtA HtB Hfirst Hsecond.
  cbv zeta.
  assert (Hw0 : beforeAssociation clock [dA; dB] w
                = mkWorld [tA; tB] (S (S (clockReads w))) (randomDraws w)).
  { rewrite beforeAssociation_eq, Hreg. simpl filter.
    rewrite (isStale_false _ tA HtA), (isStale_false _ tB HtB). simpl.
    now rewrite (cooldownTick_idle tA HcA), (cooldownTick_idle tB HcB). }
  assert (HeqAB : id_eqb (id tA) (id tB) = false) by now apply id_eqb_neq.
  assert (HeqBA : id_eqb (id tB) (id tA) = false)
    by (apply id_eqb_neq; congruence).
  assert (Hline : 200 * CROSSING_LINE_POSITION = 100)
    by (unfold CROSSING_LINE_POSITION; lra).
  assert (Hst : exists nowA nowB regAB,
             frameState clock random [dA; dB] 200 w
             = mkFrameState
                 (mkWorld
                    [mkTrackedPerson (id tA) (d_bbox dA) (detCenterX dA)
                       (detCenterY dA) (centerY tA) nowA true (Some dir_in) 0;
                     mkTrackedPerson (id tB) (d_bbox dB) (detCenterX dB)
                       (detCenterY dB) (centerY tB) nowB true (Some dir_out) 0]
                    (S (S (S (S (clockReads w))))) (randomDraws w))
                 regAB 1 1
                 (if Rge_b (d_score dA) (d_score dB)
                  then [mkEvent (id tA) dir_in; mkEvent (id tB) dir_out]
                  else [mkEvent (id tB) dir_out; mkEvent (id tA) dir_in])
             /\ In (id tA) regAB /\ In (id tB) regAB).
  { unfold frameState. rewrite Hw0, Hline.
    cbn [detectPeople fst detections filter]. rewrite HpA, HpB.
    cbn [sortByScore fold_right insertByScore].
    destruct (Rge_b (d_score dA) (d_score dB)) eqn:Hord.
    - apply Rge_b_true in Hord. destruct (Hfirst Hord) as [HA HB].
      pose proof (findClosestPerson_Some _ _ _ _ _ HA) as (_ & HwA & _).
      destruct (checkCrossing_moved 100 tA dA (clock (S (S (clockReads w))))
                  HcA HwA) as [HrA _]; [rewrite HdA, HyA, Rabs_pos_eq; lra |].
      specialize (HrA ltac:(lra)).
      assert (Hreg1 : map_set [tA; tB]
                        (fst (checkCrossing 100 (centerX tA)
                                (moveTo tA (d_bbox dA) (detCenterX dA)
                                   (detCenterY dA)
                                   (clock (S (S (clockReads w)))))))
                      = [fst (checkCrossing 100 (centerX tA)
                                (moveTo tA (d_bbox dA) (detCenterX dA)
                                   (detCenterY dA)
                                   (clock (S (S (clockReads w)))))); tB]).
      { rewrite HrA. simpl. now rewrite id_eqb_refl. }
      assert (HB' : findClosestPerson
                      (map_set [tA; tB]
                        (fst (checkCrossing 100 (centerX tA)
                                (moveTo tA (d_bbox dA) (detCenterX dA)
                                   (detCenterY dA)
                                   (clock (S (S (clockReads w))))))))
                      (d_bbox dB) (detCenterX dB) (detCenterY dB) = Some tB).
      { rewrite Hreg1. apply HB. rewrite HrA. repeat split. }
      pose proof (findClosestPerson_Some _ _ _ _ _ HB') as (_ & HwB & _).
      destruct (checkCrossing_moved 100 tB dB (clock (S (S (S (clockReads w)))))
                  HcB HwB) as [_ HrB]; [rewrite HdB, HyB, Rabs_left; lra |].
      specialize (HrB ltac:(lra)).
      rewrite (associate_two 100 dA dB
                 (mkWorld [tA; tB] (S (S (clockReads w))) (randomDraws w))
                 tA tB HA HB' ltac:(congruence)).
      cbn [trackedPeople clockReads randomDraws]. rewrite Hreg1, HrB, HrA.
      cbn [fst snd countEvent logEvent app map_set id].
      rewrite HeqAB, id_eqb_refl.
      do 3 eexists. split; [reflexivity |]. simpl; auto.
    - apply Rge_b_false in Hord. destruct (Hsecond Hord) as [HB HA].
      pose proof (findClosestPerson_Some _ _ _ _ _ HB) as (_ & HwB & _).
      destruct (checkCrossing_moved 100 tB dB (clock (S (S (clockReads w))))
                  HcB HwB) as [_ HrB]; [rewrite HdB, HyB, Rabs_left; lra |].
      specialize (HrB ltac:(lra)).
      assert (Hreg1 : map_set [tA; tB]
                        (fst (checkCrossing 100 (centerX tB)
                                (moveTo tB (d_bbox dB) (detCenterX dB)
                                   (detCenterY dB)
                                   (clock (S (S (clockReads w)))))))
                      = [tA; fst (checkCrossing 100 (centerX tB)
                                (moveTo tB (d_bbox dB) (detCenterX dB)
                                   (detCenterY dB)
                                   (clock (S (S (clockReads w))))))]).
      { rewrite HrB. simpl. now rewrite HeqAB, id_eqb_refl. }
      assert (HA' : findClosestPerson
                      (map_set [tA; tB]
                        (fst (checkCrossing 100 (centerX tB)
                                (moveTo tB (d_bbox dB) (detCenterX dB)
                                   (detCenterY dB)
                                   (clock (S (S (clockReads w))))))))
                      (d_bbox dA) (detCenterX dA) (detCenterY dA) = Some tA).
      { rewrite Hreg1. apply HA. rewrite HrB. repeat split. }
      pose proof (findClosestPerson_Some _ _ _ _ _ HA') as (_ & HwA & _).
      destruct (checkCrossing_moved 100 tA dA (clock (S (S (S (clockReads w)))))
                  HcA HwA) as [HrA _]; [rewrite HdA, HyA, Rabs_pos_eq; lra |].
      specialize (HrA ltac:(lra)).
      rewrite (associate_two 100 dB dA
                 (mkWorld [tA; tB] (S (S (clockReads w))) (randomDraws w))
                 tB tA HB HA' Hne).
      cbn [trackedPeople clockReads randomDraws]. rewrite Hreg1, HrA, HrB.
      cbn [fst snd countEvent logEvent app map_set id].
      rewrite id_eqb_refl.
      do 3 eexists. split; [reflexivity |]. simpl; auto. }
  destruct Hst as (nowA & nowB & regAB & Hst & HinA & HinB).
  assert (Hkeep : removeUnmatched clock
                    (matchedPeople (frameState clock random [dA; dB] 200 w))
                    (fs_world (frameState clock random [dA; dB] 200 w))
                  = fs_world (frameState clock random [dA; dB] 200 w)).
  { apply removeUnmatched_all_claimed. rewrite Hst. simpl.
    intros q [<- | [<- | []]]; simpl; now apply set_has_In. }
  rewrite frame_world, frame_events, Hkeep.
  unfold detectPeopleWithCrossing. cbn [fst snd out_countIn out_countOut].
  rewrite Hst, Hreg. cbn [countIn countOut fs_events fs_world trackedPeople].
  unfold eventsOf.
  destruct (Rge_b (d_score dA) (d_score dB)); simpl;
    rewrite ?id_eqb_refl, ?HeqAB, ?HeqBA; auto 10.
Qed.

End Scenario.

(** ** Crossings at the level of a frame *)

Lemma fold_left_inv_In {A B : Type} (f : A -> B -> A) (P : A -> Prop)
    (l : list B) :
  (forall a x, In x l -> P a -> P (f a x)) ->
  forall a, P a -> P (fold_left f l a).
Proof.
  induction l as [| x rest IH]; intros Hstep a Ha; simpl; [exact Ha |].
  apply IH.
  - intros a' x' Hx'. apply Hstep. now right.
  - apply Hstep; [now left | exact Ha].
Qed.

(** What a counted crossing tells of the track. *)
Lemma checkCrossing_counted (lineY pcx : R) (person : TrackedPerson)
    (dir : Direction) :
  snd (checkCrossing lineY pcx person) = Some dir ->
  crossed person = false
  /\ Rabs (centerY person - previousY person) > MIN_DISTANCE_FOR_CROSSING
  /\ Rabs (centerY person - previousY person) > Rabs (centerX person - pcx) * 0.1
  /\ match dir with
     | dir_in => previousY person < lineY < centerY person
     | dir_out => centerY person < lineY < previousY person
     end.
Proof.
  unfold checkCrossing. destruct (crossed person); simpl; [discriminate |].
  destruct (Rgt_b (Rabs _) MIN_DISTANCE_FOR_CROSSING) eqn:Hv; simpl;
    [| discriminate].
  destruct (Rgt_b (Rabs _) (_ * 0.1)) eqn:Hh; simpl; [| discriminate].
  apply Rgt_b_true in Hv, Hh.
  destruct (Rlt_b (previousY person) lineY) eqn:H1;
    destruct (Rgt_b (centerY person) lineY) eqn:H2; simpl.
  - intros [= <-]. apply Rlt_b_true in H1. apply Rgt_b_true in H2.
    repeat split; auto; lra.
  - destruct (Rgt_b (previousY person) lineY) eqn:H3;
      destruct (Rlt_b (centerY person) lineY) eqn:H4; simpl;
      try discriminate.
    intros [= <-]. apply Rgt_b_true in H3. apply Rlt_b_true in H4.
    repeat split; auto; lra.
  - destruct (Rgt_b (previousY person) lineY) eqn:H3;
      destruct (Rlt_b (centerY person) lineY) eqn:H4; simpl;
      try discriminate.
    intros [= <-]. apply Rgt_b_true in H3. apply Rlt_b_true in H4.
    repeat split; auto; lra.
  - destruct (Rgt_b (previousY person) lineY) eqn:H3;
      destruct (Rlt_b (centerY person) lineY) eqn:H4; simpl;
      try discriminate.
    intros [= <-]. apply Rgt_b_true in H3. apply Rlt_b_true in H4.
    repeat split; auto; lra.
Qed.

Section FrameCrossings.

Variable clock : nat -> Z.
Variable random : nat -> string.

(** A detection that claims a track out of cooldown and takes it over the
    line, by more than [MIN_DISTANCE_FOR_CROSSING] and more than a tenth of
    its horizontal displacement, counts it in the direction of the move. *)
Lemma processDetection_counted (lineY : R) (st : FrameState) (d : Detection)
    (p : TrackedPerson) (dir : Direction) :
  findClosestPerson (trackedPeople (fs_world st)) (d_bbox d)
    (detCenterX d) (detCenterY d) = Some p ->
  set_has (matchedPeople st) (id p) = false ->
  crossed p = false ->
  Rabs (detCenterY d - centerY p) > MIN_DISTANCE_FOR_CROSSING ->
  Rabs (detCenterY d - centerY p) > Rabs (detCenterX d - centerX p) * 0.1 ->
  match dir with
  | dir_in => centerY p < lineY < detCenterY d
  | dir_out => detCenterY d < lineY < centerY p
  end ->
  processDetection clock random lineY st d
  = mkFrameState
      (mkWorld
         (map_set (trackedPeople (fs_world st))
            (mkTrackedPerson (id p) (d_bbox d) (detCenterX d) (detCenterY d)
               (centerY p) (clock (clockReads (fs_world st))) true (Some dir) 0))
         (S (clockReads (fs_world st))) (randomDraws (fs_world st)))
      (set_add (matchedPeople st) (id p))
      (countEvent (Some dir) dir_in (countIn st))
      (countEvent (Some dir) dir_out (countOut st))
      (fs_events st ++ [mkEvent (id p) dir]).
Proof.
  intros Hf Hm Hc Hv Hh Hside.
  rewrite (processDetection_matched clock random lineY st d p Hf Hm). cbv zeta.
  set (moved := moveTo p (d_bbox d) (detCenterX d) (detCenterY d)
                  (clock (clockReads (fs_world st)))).
  assert (Hev : snd (checkCrossing lineY (centerX p) moved) = Some dir).
  { destruct dir; [apply checkCrossing_down | apply checkCrossing_up];
      simpl; auto. }
  pose proof (checkCrossing_Some _ _ _ _ Hev) as [_ Hfst].
  rewrite Hev, Hfst. reflexivity.
Qed.

(** The events only grow along the association loop. *)
Lemma fold_processDetection_events (lineY : R) (ds : list Detection) :
  forall st : FrameState,
  exists new,
    fs_events (fold_left (processDetection clock random lineY) ds st)
    = fs_events st ++ new.
Proof.
  induction ds as [| d rest IH]; intros st; simpl.
  - exists []. now rewrite app_nil_r.
  - destruct (IH (processDetection clock random lineY st d)) as (new & ->).
    destruct (processDetection_cases clock random lineY st d)
      as [(p & _ & _ & _ & Hst) | [(p & _ & _ & Hst) | (_ & Hst)]];
      cbv zeta in Hst; rewrite Hst; simpl; eauto.
    destruct (snd (checkCrossing _ _ _)); simpl; eauto.
    rewrite <- app_assoc. eauto.
Qed.

Lemma frameState_first (predictions : list Detection) (frameHeight : R)
    (w : World) (d : Detection) (rest : list Detection) :
  sortByScore (filter isPerson predictions) = d :: rest ->
  frameState clock random predictions frameHeight w
  = fold_left (processDetection clock random (frameHeight * CROSSING_LINE_POSITION))
      rest
      (processDetection clock random (frameHeight * CROSSING_LINE_POSITION)
         (mkFrameState (beforeAssociation clock predictions w) [] 0%nat 0%nat [])
         d).
Proof.
  intros Hs. unfold frameState, associate. simpl detections. now rewrite Hs.
Qed.

Lemma frame_counters (predictions : list Detection) (frameHeight : R)
    (w : World) :
  let r := detectPeopleWithCrossing clock random predictions frameHeight w in
  out_countIn (fst (fst r)) = List.length (filter isEntering (snd r))
  /\ out_countOut (fst (fst r)) = List.length (filter isExiting (snd r))
  /\ NoDup (map ev_id (snd r)).
Proof.
  cbv zeta. rewrite frame_events.
  destruct (frameState_assocInv clock random predictions frameHeight w)
    as [_ _ _ _ _ _ A4 A5 A6].
  auto.
Qed.

(** Every event of a frame names a track that was in the registry, out of
    cooldown, when the association started, and that a person detected in the
    frame took over the line computed from the frame height, in the direction
    of the event. *)
Lemma frame_events_sound (predictions : list Detection) (frameHeight : R)
    (w : World) (e : Event) :
  In e (snd (detectPeopleWithCrossing clock random predictions frameHeight w)) ->
  exists p d,
    In p (trackedPeople (beforeAssociation clock predictions w))
    /\ id p = ev_id e /\ crossed p = false
    /\ In d (filter isPerson predictions)
    /\ Rabs (detCenterY d - centerY p) > MIN_DISTANCE_FOR_CROSSING
    /\ Rabs (detCenterY d - centerY p) > Rabs (detCenterX d - centerX p) * 0.1
    /\ match ev_dir e with
       | dir_in =>
           centerY p < frameHeight * CROSSING_LINE_POSITION < detCenterY d
       | dir_out =>
           detCenterY d < frameHeight * CROSSING_LINE_POSITION < centerY p
       end.
Proof.
  rewrite frame_events. revert e.
  set (reg0 := trackedPeople (beforeAssociation clock predictions w)).
  set (lineY := frameHeight * CROSSING_LINE_POSITION).
  assert (Hst : let st := frameState clock random predictions frameHeight w in
                assocInv reg0 st
                /\ forall e, In e (fs_events st) ->
                     exists p d,
                       In p reg0 /\ id p = ev_id e /\ crossed p = false
                       /\ In d (filter isPerson predictions)
                       /\ Rabs (detCenterY d - centerY p)
                          > MIN_DISTANCE_FOR_CROSSING
                       /\ Rabs (detCenterY d - centerY p)
                          > Rabs (detCenterX d - centerX p) * 0.1
                       /\ match ev_dir e with
                          | dir_in => centerY p < lineY < detCenterY d
                          | dir_out => detCenterY d < lineY < centerY p
                          end).
  { cbv zeta. unfold frameState, associate.
    apply (fold_left_inv_In (processDetection clock random lineY)
             (fun st =>
                assocInv reg0 st
                /\ forall e, In e (fs_events st) ->
                     exists p d,
                       In p reg0 /\ id p = ev_id e /\ crossed p = false
                       /\ In d (filter isPerson predictions)
                       /\ Rabs (detCenterY d - centerY p)
                          > MIN_DISTANCE_FOR_CROSSING
                       /\ Rabs (detCenterY d - centerY p)
                          > Rabs (detCenterX d - centerX p) * 0.1
                       /\ match ev_dir e with
                          | dir_in => centerY p < lineY < detCenterY d
                          | dir_out => detCenterY d < lineY < centerY p
                          end)).
    - intros st d Hd (Hinv & Hev).
      split; [now apply processDetection_assocInv |].
      apply (Permutation_in _ (Permutation_sym (sortByScore_perm _))) in Hd.
      simpl detections in Hd.
      destruct Hinv as [B1 _ _ _ _ _ _ _ _].
      destruct (processDetection_cases clock random lineY st d)
        as [(p & _ & Hin & Hm & Hst) | [(p & _ & _ & Hst) | (_ & Hst)]];
        cbv zeta in Hst; rewrite Hst; simpl; auto.
      set (moved := moveTo p _ _ _ _).
      destruct (snd (checkCrossing lineY (centerX p) moved)) as [dir |] eqn:Hc;
        simpl; [| exact Hev].
      intros e He. apply in_app_iff in He as [He | [<- | []]]; [auto |].
      apply checkCrossing_counted in Hc as (Hcr & Hv & Hh & Hside).
      exists p, d. simpl in *. repeat split; auto.
    - split; [| intros e []].
      constructor; simpl; auto; try easy. constructor. }
  cbv zeta in Hst. exact (proj2 Hst).
Qed.

(** C3. With a frame height of 200 the line is at y = 100.  In a frame in
    which one person is detected, and the detection claims a track out of
    cooldown whose centre was at y = 40 and is now at y = 120,
    [detectPeopleWithCrossing] returns one entry and no exit, for the one
    event that names the track as entering; from y = 120 to y = 40 it returns
    one exit and no entry, for the one event that names it as exiting.  When
    several people are detected the same holds of the most confident
    detection, whatever the frame height: its event is among those of the
    frame.  In every frame the two counts returned are the numbers of
    entering and of exiting events, no track is named by two events, hence
    never in both directions, and every event is a track out of cooldown that
    a detection of the frame took over the line at [CROSSING_LINE_POSITION]
    of the frame height, in the direction of the event; one detection adds at
    most one event. *)
Theorem crossing_direction_and_event_bound :
  (forall predictions w d p,
      filter isPerson predictions = [d] ->
      findClosestPerson (trackedPeople (beforeAssociation clock predictions w))
        (d_bbox d) (detCenterX d) (detCenterY d) = Some p ->
      crossed p = false -> centerY p = 40 -> detCenterY d = 120 ->
      let r := detectPeopleWithCrossing clock random predictions 200 w in
      out_countIn (fst (fst r)) = 1%nat /\ out_countOut (fst (fst r)) = 0%nat
      /\ snd r = [mkEvent (id p) dir_in])
  /\ (forall predictions w d p,
         filter isPerson predictions = [d] ->
         findClosestPerson (trackedPeople (beforeAssociation clock predictions w))
           (d_bbox d) (detCenterX d) (detCenterY d) = Some p ->
         crossed p = false -> centerY p = 120 -> detCenterY d = 40 ->
         let r := detectPeopleWithCrossing clock random predictions 200 w in
         out_countIn (fst (fst r)) = 0%nat /\ out_countOut (fst (fst r)) = 1%nat
         /\ snd r = [mkEvent (id p) dir_out])
  /\ (forall predictions frameHeight w d rest p dir,
         sortByScore (filter isPerson predictions) = d :: rest ->
         findClosestPerson (trackedPeople (beforeAssociation clock predictions w))
           (d_bbox d) (detCenterX d) (detCenterY d) = Some p ->
         crossed p = false ->
         Rabs (detCenterY d - centerY p) > MIN_DISTANCE_FOR_CROSSING ->
         Rabs (detCenterY d - centerY p) > Rabs (detCenterX d - centerX p) * 0.1 ->
         match dir with
         | dir_in =>
             centerY p < frameHeight * CROSSING_LINE_POSITION < detCenterY d
         | dir_out =>
             detCenterY d < frameHeight * CROSSING_LINE_POSITION < centerY p
         end ->
         let r := detectPeopleWithCrossing clock random predictions frameHeight w in
         In (mkEvent (id p) dir) (snd r)
         /\ (1 <= match dir with
                  | dir_in => out_countIn (fst (fst r))
                  | dir_out => out_countOut (fst (fst r))
                  end)%nat)
  /\ (forall predictions frameHeight w,
         let r := detectPeopleWithCrossing clock random predictions frameHeight w in
         out_countIn (fst (fst r)) = List.length (filter isEntering (snd r))
         /\ out_countOut (fst (fst r)) = List.length (filter isExiting (snd r))
         /\ NoDup (map ev_id (snd r))
         /\ forall e, In e (snd r) ->
              exists p d,
                In p (trackedPeople (beforeAssociation clock predictions w))
                /\ id p = ev_id e /\ crossed p = false
                /\ In d (filter isPerson predictions)
                /\ Rabs (detCenterY d - centerY p) > MIN_DISTANCE_FOR_CROSSING
                /\ Rabs (detCenterY d - centerY p)
                   > Rabs (detCenterX d - centerX p) * 0.1
                /\ match ev_dir e with
                   | dir_in =>
                       centerY p < frameHeight * CROSSING_LINE_POSITION
                                 < detCenterY d
                   | dir_out =>
                       detCenterY d < frameHeight * CROSSING_LINE_POSITION
                                    < centerY p
                   end)
  /\ (forall lineY st d,
         let st' := processDetection clock random lineY st d in
         (countIn st' + countOut st' <= countIn st + countOut st + 1)%nat
         /\ exists new, fs_events st' = fs_events st ++ new
                        /\ (List.length new <= 1)%nat).
Proof.
  assert (Hsingle : forall predictions w d p dir,
             filter isPerson predictions = [d] ->
             findClosestPerson
               (trackedPeople (beforeAssociation clock predictions w))
               (d_bbox d) (detCenterX d) (detCenterY d) = Some p ->
             crossed p = false ->
             Rabs (detCenterY d - centerY p) > 40 ->
             match dir with
             | dir_in => centerY p < 200 * CROSSING_LINE_POSITION < detCenterY d
             | dir_out => detCenterY d < 200 * CROSSING_LINE_POSITION < centerY p
             end ->
             let r := detectPeopleWithCrossing clock random predictions 200 w in
             out_countIn (fst (fst r)) = countEvent (Some dir) dir_in 0
             /\ out_countOut (fst (fst r)) = countEvent (Some dir) dir_out 0
             /\ snd r = [mkEvent (id p) dir]).
  { intros predictions w d p dir Hone Hf Hc Hv Hside; cbv zeta.
    rewrite frame_events.
    change (out_countIn (fst (fst (detectPeopleWithCrossing clock random
                                     predictions 200 w))))
      with (countIn (frameState clock random predictions 200 w)).
    change (out_countOut (fst (fst (detectPeopleWithCrossing clock random
                                      predictions 200 w))))
      with (countOut (frameState clock random predictions 200 w)).
    rewrite (frameState_first predictions 200 w d [])
      by (rewrite Hone; reflexivity).
    cbn [fold_left].
    pose proof (findClosestPerson_Some _ _ _ _ _ Hf) as (_ & Hw & _).
    pose proof (within_horizontal_bound d p Hw) as Hh.
    rewrite (processDetection_counted _
               (mkFrameState (beforeAssociation clock predictions w)
                  [] 0%nat 0%nat []) d p dir Hf eq_refl Hc);
      [auto | unfold MIN_DISTANCE_FOR_CROSSING; lra | lra | exact Hside]. }
  split; [| split; [| split; [| split]]].
  - intros predictions w d p Hone Hf Hc Hp Hd.
    apply (Hsingle predictions w d p dir_in Hone Hf Hc).
    + rewrite Hp, Hd, (Rabs_pos_eq (120 - 40)); lra.
    + rewrite Hp, Hd. unfold CROSSING_LINE_POSITION. lra.
  - intros predictions w d p Hone Hf Hc Hp Hd.
    apply (Hsingle predictions w d p dir_out Hone Hf Hc).
    + rewrite Hp, Hd, (Rabs_left (40 - 120)); lra.
    + rewrite Hp, Hd. unfold CROSSING_LINE_POSITION. lra.
  - intros predictions frameHeight w d rest p dir Hs Hf Hc Hv Hh Hside;
      cbv zeta.
    assert (Hev : In (mkEvent (id p) dir)
                     (snd (detectPeopleWithCrossing clock random predictions
                                                    frameHeight w))).
    { rewrite frame_events, (frameState_first predictions frameHeight w d rest Hs).
      destruct (fold_processDetection_events
                  (frameHeight * CROSSING_LINE_POSITION) rest
                  (processDetection clock random
                     (frameHeight * CROSSING_LINE_POSITION)
                     (mkFrameState (beforeAssociation clock predictions w)
                        [] 0%nat 0%nat []) d)) as (new & ->).
      rewrite (processDetection_counted _
                 (mkFrameState (beforeAssociation clock predictions w)
                    [] 0%nat 0%nat []) d p dir Hf eq_refl Hc Hv Hh Hside).
      cbn [fs_events]. apply in_or_app. left. now left. }
    split; [exact Hev |].
    destruct (frame_counters predictions frameHeight w) as (Hin & Hout & _).
    cbv zeta in Hin, Hout.
    assert (Hcount : forall (f : Event -> bool) (l : list Event) x,
               In x l -> f x = true -> (1 <= List.length (filter f l))%nat).
    { intros f l x Hx Hfx.
      assert (Hfl : In x (filter f l)) by (apply filter_In; auto).
      destruct (filter f l); [destruct Hfl | simpl; lia]. }
    destruct dir; [rewrite Hin | rewrite Hout];
      apply (Hcount _ _ _ Hev); reflexivity.
  - intros predictions frameHeight w; cbv zeta.
    destruct (frame_counters predictions frameHeight w) as (Hin & Hout & Hnd).
    split; [exact Hin |]. split; [exact Hout |]. split; [exact Hnd |].
    intros e. apply frame_events_sound.
  - intros lineY st d; cbv zeta.
    destruct (processDetection_cases clock random lineY st d)
      as [(p & _ & _ & _ & Hst) | [(p & _ & _ & Hst) | (_ & Hst)]];
      cbv zeta in Hst; rewrite Hst; simpl.
    + destruct (snd (checkCrossing _ _ _)) as [[|] |]; simpl;
        (split; [lia |]);
        solve [eauto | exists []; rewrite app_nil_r; auto].
    + split; [lia |]. exists []. rewrite app_nil_r. auto.
    + split; [lia |]. exists []. rewrite app_nil_r. auto.
Qed.

End FrameCrossings.

(** ** The cooldown pass within a frame *)

Section FramePass.

Variable clock : nat -> Z.
Variable random : nat -> string.

Lemma coolingAt_of_track (m : Registry) (p : TrackedPerson) :
  NoDup (keys m) -> In p m -> crossed p = true ->
  coolingAt (id p) (framesSinceCrossing p) (direction p) m.
Proof.
  intros Hnd Hp Hc q Hq Hid.
  assert (q = p) by (eapply NoDup_keys_eq; eauto). subst q. auto.
Qed.

(** A track of the registry is still in it after the frame when the cleanup
    keeps it and a detection claims it or the removal pass finds it within
    the grace period. *)
Lemma frame_present (predictions : list Detection) (frameHeight : R)
    (w : World) (p : TrackedPerson) :
  let st := frameState clock random predictions frameHeight w in
  let w' := snd (fst (detectPeopleWithCrossing clock random predictions
                                               frameHeight w)) in
  NoDup (keys (trackedPeople w)) -> In p (trackedPeople w) ->
  (clock (S (clockReads w)) - lastSeen p <= TRACKING_TIMEOUT)%Z ->
  In (id p) (matchedPeople st)
  \/ (forall j, (clockReads (fs_world st) <= j < clockReads w')%nat ->
                (clock j - lastSeen p <= GRACE_PERIOD)%Z) ->
  exists q, In q (trackedPeople w') /\ id q = id p.
Proof.
  cbv zeta. intros Hnd Hp Hfresh Hkept.
  destruct (set_has (matchedPeople (frameState clock random predictions
                                      frameHeight w)) (id p)) eqn:Hm.
  - apply set_has_In in Hm. rewrite frame_world.
    destruct (frameState_assocInv clock random predictions frameHeight w)
      as [_ _ B3 _ _ _ _ _ _].
    pose proof (B3 _ Hm) as Hk. unfold keys in Hk.
    apply in_map_iff in Hk as (q & Hid & Hq). exists q. split; [| exact Hid].
    apply removeUnmatched_keeps_claimed; [exact Hq |].
    rewrite Hid. now apply set_has_In.
  - destruct Hkept as [Hc | Hgrace].
    { apply set_has_In in Hc. congruence. }
    pose proof (unclaimed_track_decided clock random predictions frameHeight w p)
      as Hdec.
    cbv zeta in Hdec.
    destruct (Hdec Hnd Hp Hm Hfresh) as (j & Hj & Hkeep & _).
    exists (cooldownTick p). split; [| apply cooldownTick_id].
    apply Hkeep, Hgrace, Hj.
Qed.

(** The frame in which the cooldown window of the track [k] elapses: the pass
    takes the track out of cooldown before the association, so that after the
    frame it is out of cooldown and the frame has no event for it, or the
    frame counted it again, once. *)
Lemma frame_released (k : PersonId) (c : nat) (d : option Direction)
    (predictions : list Detection) (frameHeight : R) (w : World) :
  NoDup (keys (trackedPeople w)) ->
  notRedrawn random k (randomDraws w) ->
  coolingAt k c d (trackedPeople w) ->
  (CROSSING_COOLDOWN <= S c)%nat ->
  let r := detectPeopleWithCrossing clock random predictions frameHeight w in
  forall q, In q (trackedPeople (snd (fst r))) -> id q = k ->
    (eventsOf k (snd r) = []
     /\ crossed q = false /\ framesSinceCrossing q = 0%nat /\ direction q = None)
    \/ (exists dir,
           eventsOf k (snd r) = [mkEvent k dir]
           /\ crossed q = true /\ framesSinceCrossing q = 0%nat
           /\ direction q = Some dir).
Proof.
  intros Hnd Hnr Hcool Hc; cbv zeta. rewrite frame_events, frame_world.
  set (reg0 := trackedPeople (beforeAssociation clock predictions w)).
  set (released := fun (log : list Event) (q : TrackedPerson) =>
         (eventsOf k log = []
          /\ crossed q = false /\ framesSinceCrossing q = 0%nat
          /\ direction q = None)
         \/ (exists dir,
                eventsOf k log = [mkEvent k dir]
                /\ crossed q = true /\ framesSinceCrossing q = 0%nat
                /\ direction q = Some dir)).
  assert (Hst : let st := frameState clock random predictions frameHeight w in
                assocInv reg0 st
                /\ NoDup (keys (trackedPeople (fs_world st)))
                /\ (randomDraws w <= randomDraws (fs_world st))%nat
                /\ (forall q, In q (trackedPeople (fs_world st)) -> id q = k ->
                              released (fs_events st) q)).
  { cbv zeta. unfold frameState, associate.
    apply (fold_left_inv (processDetection clock random _)
             (fun st =>
                assocInv reg0 st
                /\ NoDup (keys (trackedPeople (fs_world st)))
                /\ (randomDraws w <= randomDraws (fs_world st))%nat
                /\ (forall q, In q (trackedPeople (fs_world st)) -> id q = k ->
                              released (fs_events st) q))).
    - intros st det (Hinv & Hnd' & Hn & Hrel).
      split; [now apply processDetection_assocInv |].
      split; [now apply processDetection_NoDup |].
      destruct Hinv as [_ _ _ _ A1 _ _ _ _].
      destruct (processDetection_cases clock random
                  (frameHeight * CROSSING_LINE_POSITION) st det)
        as [(p & _ & Hin & Hm & Hst) | [(p & _ & _ & Hst) | (_ & Hst)]];
        cbv zeta in Hst; rewrite Hst; simpl; auto.
      + set (moved := moveTo p _ _ _ _).
        pose proof (checkCrossing_id (frameHeight * CROSSING_LINE_POSITION)
                      (centerX p) moved) as Hid'.
        change (id moved) with (id p) in Hid'.
        split; [exact Hn |].
        destruct (id_eqb (id p) k) eqn:Hk.
        * apply id_eqb_eq in Hk.
          (* the track claimed is the one under [k]: it has no event yet *)
          assert (Hnone : eventsOf k (fs_events st) = []
                          /\ crossed p = false
                          /\ framesSinceCrossing p = 0%nat
                          /\ direction p = None).
          { destruct (Hrel p Hin Hk) as [H | (dir & Hev & _)]; [exact H |].
            exfalso.
            assert (He : In (mkEvent k dir) (fs_events st)).
            { assert (Hin' : In (mkEvent k dir) (eventsOf k (fs_events st)))
                by (rewrite Hev; now left).
              unfold eventsOf in Hin'. now apply filter_In in Hin'. }
            apply A1 in He. simpl in He. apply set_has_In in He. congruence. }
          destruct Hnone as (Hev & Hcr & Hf & Hd).
          intros q Hq Hid.
          apply map_set_unique in Hq; [| exact Hnd' | congruence]. subst q.
          destruct (snd (checkCrossing _ (centerX p) moved)) as [dir |] eqn:Hcc.
          -- right. exists dir.
             apply checkCrossing_Some in Hcc as [_ Hv]. rewrite Hv. simpl.
             rewrite eventsOf_app, Hev. simpl. rewrite Hk, id_eqb_refl.
             subst k. auto.
          -- left. apply checkCrossing_None in Hcc. rewrite Hcc. simpl.
             auto.
        * intros q Hq Hid.
          assert (Hold : In q (trackedPeople (fs_world st))).
          { destruct (In_map_set _ _ _ Hq) as [-> | Hq']; [| exact Hq'].
            apply id_eqb_neq in Hk. congruence. }
          assert (Hsame : eventsOf k
                            (logEvent (id p)
                               (snd (checkCrossing
                                       (frameHeight * CROSSING_LINE_POSITION)
                                       (centerX p) moved)) (fs_events st))
                          = eventsOf k (fs_events st)).
          { destruct (snd (checkCrossing _ (centerX p) moved)); simpl;
              [| reflexivity].
            rewrite eventsOf_app. simpl. rewrite Hk. apply app_nil_r. }
          unfold released. rewrite Hsame. now apply Hrel.
      + split; [lia |].
        intros q Hq Hid.
        destruct (In_map_set _ _ _ Hq) as [-> | Hq']; [| now apply Hrel].
        exfalso. simpl in Hid. apply (Hnr (randomDraws (fs_world st)) Hn).
        now rewrite <- Hid.
    - split; [| split; [| split]].
      + constructor; simpl; auto; try easy. constructor.
      + now apply beforeAssociation_NoDup.
      + simpl. lia.
      + intros q Hq Hid. left.
        apply beforeAssociation_In in Hq as (p & Hp & -> & _).
        rewrite cooldownTick_id in Hid.
        destruct (Hcool p Hp Hid) as (Hcr & Hf & _).
        rewrite cooldownTick_expired by (rewrite ?Hf; auto).
        simpl. auto. }
  cbv zeta in Hst. destruct Hst as (_ & _ & _ & Hrel).
  intros q Hq Hid. apply removeUnmatched_In in Hq as [Hq _].
  now apply Hrel.
Qed.

End FramePass.

(** ** Counted once *)

Section CountedOnceByFrame.

Variable clock : nat -> Z.
Variable random : nat -> string.

(** C2.  A frame that counts a crossing of the track [k] leaves it in
    cooldown ([crossed = true], zero counter, the direction counted), counts
    it once, and none of the following frames, as long as they are fewer than
    [CROSSING_COOLDOWN], counts it again, wherever its centre is reported:
    over the whole run the events of [k] are that one.

    Every frame runs the cooldown pass before its association.  Of a track
    [p] in cooldown with counter [c], whatever the frame detects:
    - the track is still in the registry after the frame when the cleanup
      keeps it and a detection claims it or the removal pass finds it within
      the grace period;
    - while [c + 1] is below [CROSSING_COOLDOWN], the frame has no event for
      it and leaves it in cooldown with counter [c + 1] and its direction;
    - when [c + 1] reaches [CROSSING_COOLDOWN], the pass takes it out of
      cooldown, with a zero counter and no direction, before the
      association: it is left so by the frame, with no event, unless the
      frame counts it again, once, and if the most confident detection of the
      frame takes it over the line it is counted.
    Per track, the pass leaves a track that is not in cooldown as it is.
    The random suffix of the track is assumed not to be drawn again, so that
    no new track takes its key. *)
Theorem counted_once_within_cooldown (k : PersonId) (d : Direction)
    (predictions : list Detection) (frameHeight : R)
    (frames : list (list Detection * R)) (w : World) :
  NoDup (keys (trackedPeople w)) ->
  notRedrawn random k (randomDraws w) ->
  In (mkEvent k d)
     (snd (detectPeopleWithCrossing clock random predictions frameHeight w)) ->
  (List.length frames < CROSSING_COOLDOWN)%nat ->
  let r := detectPeopleWithCrossing clock random predictions frameHeight w in
  let w1 := snd (fst r) in
  (exists q, In q (trackedPeople w1) /\ id q = k)
  /\ (forall q, In q (trackedPeople w1) -> id q = k ->
                crossed q = true /\ framesSinceCrossing q = 0%nat
                /\ direction q = Some d)
  /\ eventsOf k (snd r) = [mkEvent k d]
  /\ (forall log, In log (snd (run clock random frames w1)) -> eventsOf k log = [])
  /\ eventsOf k (List.concat (snd (run clock random
                                  ((predictions, frameHeight) :: frames) w)))
     = [mkEvent k d]
  /\ (forall v p, In p (trackedPeople v) ->
                  In (cooldownTick p) (trackedPeople (cooldownPass v))
                  /\ (crossed p = false -> cooldownTick p = p)
                  /\ (crossed p = true ->
                      (S (framesSinceCrossing p) < CROSSING_COOLDOWN)%nat ->
                      crossed (cooldownTick p) = true
                      /\ framesSinceCrossing (cooldownTick p)
                         = S (framesSinceCrossing p)
                      /\ direction (cooldownTick p) = direction p)
                  /\ (crossed p = true ->
                      (CROSSING_COOLDOWN <= S (framesSinceCrossing p))%nat ->
                      crossed (cooldownTick p) = false
                      /\ framesSinceCrossing (cooldownTick p) = 0%nat
                      /\ direction (cooldownTick p) = None))
  /\ (forall v p next height,
         NoDup (keys (trackedPeople v)) -> In p (trackedPeople v) ->
         notRedrawn random (id p) (randomDraws v) ->
         crossed p = true ->
         let c := framesSinceCrossing p in
         let st := frameState clock random next height v in
         let r' := detectPeopleWithCrossing clock random next height v in
         let v' := snd (fst r') in
         ((clock (S (clockReads v)) - lastSeen p <= TRACKING_TIMEOUT)%Z ->
          In (id p) (matchedPeople st)
          \/ (forall j, (clockReads (fs_world st) <= j < clockReads v')%nat ->
                        (clock j - lastSeen p <= GRACE_PERIOD)%Z) ->
          exists q, In q (trackedPeople v') /\ id q = id p)
         /\ (forall q, In q (trackedPeople v') -> id q = id p ->
               ((S c < CROSSING_COOLDOWN)%nat ->
                eventsOf (id p) (snd r') = []
                /\ crossed q = true /\ framesSinceCrossing q = S c
                /\ direction q = direction p)
               /\ ((CROSSING_COOLDOWN <= S c)%nat ->
                   (eventsOf (id p) (snd r') = []
                    /\ crossed q = false /\ framesSinceCrossing q = 0%nat
                    /\ direction q = None)
                   \/ (exists dir,
                          eventsOf (id p) (snd r') = [mkEvent (id p) dir]
                          /\ crossed q = true /\ framesSinceCrossing q = 0%nat
                          /\ direction q = Some dir)))
         /\ ((CROSSING_COOLDOWN <= S c)%nat ->
             forall det rest q dir,
               sortByScore (filter isPerson next) = det :: rest ->
               findClosestPerson
                 (trackedPeople (beforeAssociation clock next v))
                 (d_bbox det) (detCenterX det) (detCenterY det) = Some q ->
               id q = id p ->
               Rabs (detCenterY det - centerY q) > MIN_DISTANCE_FOR_CROSSING ->
               Rabs (detCenterY det - centerY q)
               > Rabs (detCenterX det - centerX q) * 0.1 ->
               match dir with
               | dir_in =>
                   centerY q < height * CROSSING_LINE_POSITION < detCenterY det
               | dir_out =>
                   detCenterY det < height * CROSSING_LINE_POSITION < centerY q
               end ->
               In (mkEvent (id p) dir) (snd r'))).
Proof.
  intros Hnd Hnr Hev Hlen; cbv zeta.
  destruct (frame_counted_enters_cooldown clock random k d predictions
              frameHeight w Hnd Hnr Hev) as (Hcool & Hex & Hn).
  assert (Hone : eventsOf k (snd (detectPeopleWithCrossing clock random predictions
                                                           frameHeight w))
                 = [mkEvent k d]).
  { rewrite frame_events in *.
    destruct (frameState_assocInv clock random predictions frameHeight w)
      as [_ _ _ _ _ _ A2 _ _].
    apply (eventsOf_unique _ (mkEvent k d) A2 Hev). }
  assert (Hnone : forall log,
             In log (snd (run clock random frames
                            (snd (fst (detectPeopleWithCrossing clock random
                                         predictions frameHeight w))))) ->
             eventsOf k log = []).
  { apply (run_cooling clock random k (Some d) frames 0); auto.
    intros j Hj. apply Hnr. lia. }
  split; [exact Hex |]. split; [exact Hcool |]. split; [exact Hone |].
  split; [exact Hnone |]. split; [| split].
  - rewrite run_cons. cbn [snd List.concat]. rewrite eventsOf_app, Hone.
    assert (Hrest : forall logs, (forall log, In log logs -> eventsOf k log = []) ->
                                 eventsOf k (List.concat logs) = []).
    { induction logs as [| l ls IHl]; intros Hl; simpl; [reflexivity |].
      rewrite eventsOf_app, (Hl l) by now left.
      apply IHl. intros log Hlog. apply Hl. now right. }
    now rewrite Hrest.
  - intros v p Hp. split; [| split; [| split]].
    + unfold cooldownPass. simpl. now apply in_map.
    + apply cooldownTick_idle.
    + intros Hc Hn'. rewrite cooldownTick_running by assumption. simpl. auto.
    + intros Hc Hn'. rewrite cooldownTick_expired by assumption. simpl. auto.
  - intros v p next height Hndv Hp Hnrv Hc; cbv zeta.
    pose proof (coolingAt_of_track (trackedPeople v) p Hndv Hp Hc) as Hcoolv.
    split; [| split].
    + intros Hfresh Hkept.
      apply (frame_present clock random next height v p Hndv Hp Hfresh Hkept).
    + intros q Hq Hid. split.
      * intros Hlt.
        destruct (frame_cooling clock random (id p) (framesSinceCrossing p)
                    (direction p) next height v Hnrv Hcoolv Hlt)
          as (Hev' & Hcool' & _).
        split; [exact Hev' |]. now apply Hcool'.
      * intros Hge.
        apply (frame_released clock random (id p) (framesSinceCrossing p)
                 (direction p) next height v Hndv Hnrv Hcoolv Hge q Hq Hid).
    + intros Hge det rest q dir Hs Hf Hid Hv Hh Hside.
      assert (Hcr : crossed q = false).
      { pose proof (findClosestPerson_Some _ _ _ _ _ Hf) as (Hq & _).
        apply beforeAssociation_In in Hq as (p' & Hp' & -> & _).
        rewrite cooldownTick_id in Hid.
        assert (p' = p) by (eapply NoDup_keys_eq; eauto). subst p'.
        rewrite cooldownTick_expired by assumption. reflexivity. }
      rewrite frame_events, (frameState_first clock random next height v det rest Hs).
      destruct (fold_processDetection_events clock random
                  (height * CROSSING_LINE_POSITION) rest
                  (processDetection clock random
                     (height * CROSSING_LINE_POSITION)
                     (mkFrameState (beforeAssociation clock next v)
                        [] 0%nat 0%nat []) det)) as (new & ->).
      rewrite (processDetection_counted clock random _
                 (mkFrameState (beforeAssociation clock next v)
                    [] 0%nat 0%nat []) det q dir Hf eq_refl Hcr Hv Hh Hside).
      cbn [fs_events]. rewrite Hid. apply in_or_app. left. now left.
Qed.

End CountedOnceByFrame.

(** ** A person who stands still *)

Lemma calculateIoU_self (b : BBox) :
  0 < bw b -> 0 < bh b -> calculateIoU b b = Fin 1.
Proof.
  destruct b as [x y w h]; simpl. intros Hw Hh.
  unfold calculateIoU. eval_real. simpl.
  rewrite num_div_nonzero.
  - f_equal. field. nra.
  - nra.
Qed.

Lemma distanceScore_zero : distanceScore 0 = 1.
Proof.
  unfold distanceScore, TRACKING_THRESHOLD.
  replace (1 - 0 / 400) with 1 by lra. apply Rmax_right. lra.
Qed.

Lemma calculateDistance_self (x y : R) : calculateDistance x y x y = 0.
Proof. apply calculateDistance_eq; lra. Qed.

Lemma cooldownTick_position (p : TrackedPerson) :
  bbox (cooldownTick p) = bbox p
  /\ centerX (cooldownTick p) = centerX p
  /\ centerY (cooldownTick p) = centerY p.
Proof.
  unfold cooldownTick. destruct (crossed p); [| auto].
  destruct (CROSSING_COOLDOWN <=? _)%nat; auto.
Qed.

Lemma sizeRatio_self (b : BBox) :
  0 < bw b -> 0 < bh b -> sizeRatio b b = Fin 1.
Proof.
  intros Hw Hh. unfold sizeRatio.
  assert (Ha : 0 < bw b * bh b) by (apply Rmult_lt_0_compat; lra).
  rewrite Rmin_left, Rmax_left by lra.
  rewrite num_div_nonzero by lra. f_equal. field. lra.
Qed.

(** A track scores 1 against a detection that has its box and its centre. *)
Lemma matchScore_same_place (p : TrackedPerson) :
  0 < bw (bbox p) -> 0 < bh (bbox p) ->
  matchScore (bbox p) (centerX p) (centerY p) p = Fin 1.
Proof.
  intros Hw Hh.
  rewrite (matchScore_fin _ _ _ _ 1 1 (calculateIoU_self _ Hw Hh)
             (sizeRatio_self _ Hw Hh)).
  rewrite calculateDistance_self, distanceScore_zero.
  f_equal. lra.
Qed.

Section StandingStill.

Variable clock : nat -> Z.
Variable random : nat -> string.

(** A frame in which the one track of the registry is detected where it is:
    the detection claims it, nothing is counted and nothing is removed. *)
Lemma stationary_frame (p : TrackedPerson) (d : Detection) (frameHeight : R)
    (reads draws : nat) :
  isPerson d = true ->
  0 < bw (d_bbox d) -> 0 < bh (d_bbox d) ->
  bbox p = d_bbox d -> centerX p = detCenterX d -> centerY p = detCenterY d ->
  (clock (S reads) - lastSeen p <= TRACKING_TIMEOUT)%Z ->
  let moved := moveTo (cooldownTick p) (d_bbox d) (detCenterX d) (detCenterY d)
                 (clock (S (S reads))) in
  frameState clock random [d] frameHeight (mkWorld [p] reads draws)
  = mkFrameState (mkWorld [moved] (S (S (S reads))) draws) [id p] 0 0 []
  /\ snd (fst (detectPeopleWithCrossing clock random [d] frameHeight
                 (mkWorld [p] reads draws)))
     = mkWorld [moved] (S (S (S reads))) draws.
Proof.
  intros Hd Hw Hh Hb Hx Hy Hfresh; cbv zeta.
  destruct (cooldownTick_position p) as (Hb' & Hx' & Hy').
  set (p' := cooldownTick p) in *.
  assert (Hw0 : beforeAssociation clock [d] (mkWorld [p] reads draws)
                = mkWorld [p'] (S (S reads)) draws).
  { unfold beforeAssociation, cooldownPass, cleanupTrackedPeople, withRegistry.
    simpl. unfold isStale.
    assert (Hs : (clock (S reads) - lastSeen p >? TRACKING_TIMEOUT)%Z = false).
    { rewrite Z.gtb_ltb. apply Z.ltb_ge. lia. }
    rewrite Hs. reflexivity. }
  assert (Hf : findClosestPerson [p'] (d_bbox d) (detCenterX d) (detCenterY d)
               = Some p').
  { apply findClosestPerson_single.
    - unfold withinThreshold, TRACKING_THRESHOLD.
      rewrite Hx', Hy', Hx, Hy, calculateDistance_self. lra.
    - rewrite <- Hb, <- Hx, <- Hy, <- Hb', <- Hx', <- Hy'.
      rewrite matchScore_same_place by (rewrite Hb', Hb; assumption).
      simpl. apply Rgt_b_true. unfold MIN_MATCH_SCORE. lra. }
  assert (Hst : frameState clock random [d] frameHeight (mkWorld [p] reads draws)
                = mkFrameState
                    (mkWorld [moveTo p' (d_bbox d) (detCenterX d) (detCenterY d)
                                (clock (S (S reads)))]
                       (S (S (S reads))) draws) [id p] 0 0 []).
  { unfold frameState, associate. simpl detections. rewrite Hd, Hw0.
    cbn [sortByScore fold_right insertByScore fold_left].
    rewrite (processDetection_matched clock random _
               (mkFrameState (mkWorld [p'] (S (S reads)) draws) [] 0%nat 0%nat [])
               d p' Hf eq_refl).
    cbv zeta. cbn [fs_world trackedPeople clockReads randomDraws matchedPeople
                   countIn countOut fs_events].
    set (moved := moveTo p' _ _ _ _).
    assert (Hc : checkCrossing (frameHeight * CROSSING_LINE_POSITION)
                   (centerX p') moved = (moved, None)).
    { unfold checkCrossing. destruct (crossed moved); simpl; [reflexivity |].
      assert (Hv : Rabs (detCenterY d - centerY p') <= MIN_DISTANCE_FOR_CROSSING).
      { rewrite Hy', Hy. unfold MIN_DISTANCE_FOR_CROSSING.
        replace (detCenterY d - detCenterY d) with 0 by lra.
        rewrite Rabs_R0. lra. }
      rewrite (proj2 (Rgt_b_false _ _) Hv). reflexivity. }
    rewrite Hc. simpl. rewrite id_eqb_refl.
    unfold p'. now rewrite cooldownTick_id. }
  split; [exact Hst |].
  rewrite frame_world, Hst. cbn [matchedPeople fs_world].
  apply removeUnmatched_all_claimed.
  intros q [<- | []]. simpl. unfold p'. rewrite cooldownTick_id.
  now rewrite id_eqb_refl.
Qed.

(** Detected where it is in every frame, by a clock that never advances by
    more than the timeout within two reads, the track is kept alive. *)
Lemma stationary_keptAlive (d : Detection) (frameHeight : R) (draws : nat) :
  isPerson d = true ->
  0 < bw (d_bbox d) -> 0 < bh (d_bbox d) ->
  (forall i j, (i <= j <= i + 2)%nat ->
               (clock j - clock i <= TRACKING_TIMEOUT)%Z) ->
  forall (n : nat) (p : TrackedPerson) (reads : nat) (k : PersonId),
    id p = k ->
    bbox p = d_bbox d -> centerX p = detCenterX d -> centerY p = detCenterY d ->
    (clock (S reads) - lastSeen p <= TRACKING_TIMEOUT)%Z ->
    keptAlive clock random k (repeat ([d], frameHeight) n)
      (mkWorld [p] reads draws).
Proof.
  intros Hd Hw Hh Hclock.
  induction n as [| n IH]; intros p reads k Hk Hb Hx Hy Hfresh; [exact I |].
  cbn [repeat keptAlive].
  destruct (stationary_frame p d frameHeight reads draws Hd Hw Hh Hb Hx Hy Hfresh)
    as [Hst Hw']. cbv zeta in Hst, Hw'.
  rewrite Hst, Hw'. split.
  - intros p0 [<- | []] _. split; [exact Hfresh |].
    left. simpl. now left.
  - apply IH; auto.
    + simpl. now rewrite cooldownTick_id.
    + simpl. apply Hclock. lia.
Qed.

End StandingStill.

(** * Instances of the properties *)

Open Scope string_scope.

Lemma frameState_unfold (clock : nat -> Z) (random : nat -> string)
    (predictions : list Detection) (frameHeight : R) (w : World) :
  frameState clock random predictions frameHeight w
  = associate clock random (frameHeight * CROSSING_LINE_POSITION)
      (sortByScore (filter isPerson predictions))
      (beforeAssociation clock predictions w).
Proof. reflexivity. Qed.

Lemma isPerson_person (b : BBox) (score : R) :
  score >= 0.2 -> isPerson (mkDetection b "person" score) = true.
Proof.
  intros H. unfold isPerson, MIN_CONFIDENCE. simpl.
  now rewrite (proj2 (Rge_b_true _ _) H).
Qed.

(** ** The walker seen below the line *)

Lemma walker_seenBelow_iou :
  calculateIoU (d_bbox seenBelow) (bbox walker) = Fin 0.
Proof. unfold calculateIoU. simpl. eval_real. reflexivity. Qed.

Lemma walker_seenBelow_ratio :
  sizeRatio (d_bbox seenBelow) (bbox walker) = Fin 1.
Proof. unfold sizeRatio. simpl. eval_real. f_equal. lra. Qed.

Lemma walker_seenBelow_distance :
  calculateDistance (detCenterX seenBelow) (detCenterY seenBelow)
    (centerX walker) (centerY walker) = 80.
Proof. apply calculateDistance_eq; unfold detCenterX, detCenterY; simpl; lra. Qed.

Lemma walker_seenBelow_found :
  findClosestPerson [walker] (d_bbox seenBelow)
    (detCenterX seenBelow) (detCenterY seenBelow) = Some walker.
Proof.
  apply findClosestPerson_single.
  - unfold withinThreshold, TRACKING_THRESHOLD.
    rewrite walker_seenBelow_distance. lra.
  - rewrite (matchScore_fin _ _ _ _ _ _ walker_seenBelow_iou walker_seenBelow_ratio).
    rewrite walker_seenBelow_distance.
    unfold distanceScore, TRACKING_THRESHOLD, MIN_MATCH_SCORE. simpl.
    eval_real. reflexivity.
Qed.

Lemma processDetection_counts_entering (clock : nat -> Z) (random : nat -> string)
    (lineY : R) (st : FrameState) (d : Detection) (p : TrackedPerson) :
  findClosestPerson (trackedPeople (fs_world st)) (d_bbox d)
    (detCenterX d) (detCenterY d) = Some p ->
  set_has (matchedPeople st) (id p) = false ->
  crossed p = false ->
  centerY p < lineY < detCenterY d ->
  Rabs (detCenterY d - centerY p) > 40 ->
  processDetection clock random lineY st d
  = mkFrameState
      (mkWorld
         (map_set (trackedPeople (fs_world st))
            (mkTrackedPerson (id p) (d_bbox d) (detCenterX d) (detCenterY d)
               (centerY p) (clock (clockReads (fs_world st))) true
               (Some dir_in) 0))
         (S (clockReads (fs_world st))) (randomDraws (fs_world st)))
      (set_add (matchedPeople st) (id p))
      (S (countIn st)) (countOut st)
      (fs_events st ++ [mkEvent (id p) dir_in]).
Proof.
  intros Hf Hm Hc Hside Hv.
  rewrite (processDetection_matched clock random lineY st d p Hf Hm). cbv zeta.
  apply findClosestPerson_Some in Hf as (_ & Hw & _).
  destruct (checkCrossing_moved lineY p d (clock (clockReads (fs_world st)))
              Hc Hw Hv) as [Hr _].
  rewrite (Hr Hside). reflexivity.
Qed.

Lemma walker_frameState :
  frameState clock0 random0 [seenBelow] 200 world1
  = mkFrameState
      (mkWorld
         [mkTrackedPerson (id walker) (d_bbox seenBelow) (detCenterX seenBelow)
            (detCenterY seenBelow) 40 1000 true (Some dir_in) 0] 3 0)
      [id walker] 1 0 [mkEvent (id walker) dir_in].
Proof.
  rewrite frameState_unfold.
  change (filter isPerson [seenBelow])
    with (if isPerson seenBelow then [seenBelow] else []).
  unfold seenBelow at 1. rewrite isPerson_person by lra.
  change (beforeAssociation clock0 [seenBelow] world1)
    with (mkWorld [walker] 2 0).
  unfold associate. cbn [sortByScore fold_right insertByScore fold_left].
  rewrite (processDetection_counts_entering clock0 random0 _
             (mkFrameState (mkWorld [walker] 2 0) [] 0 0 []) seenBelow walker
             walker_seenBelow_found eq_refl eq_refl).
  - reflexivity.
  - unfold CROSSING_LINE_POSITION, detCenterY. simpl. lra.
  - unfold detCenterY. simpl. rewrite Rabs_pos_eq; lra.
Qed.

(** ** A second detection of the same person *)

(** The walker as [seenBelow] leaves it. *)
Lemma walker_moved_seenAgain_found (now : Z) (c : bool) (dir : option Direction)
    (n : nat) :
  let moved :=
    mkTrackedPerson (id walker) (d_bbox seenBelow) (detCenterX seenBelow)
      (detCenterY seenBelow) 40 now c dir n in
  findClosestPerson [moved] (d_bbox seenBelowAgain)
    (detCenterX seenBelowAgain) (detCenterY seenBelowAgain) = Some moved.
Proof.
  cbv zeta.
  assert (Hd : calculateDistance (detCenterX seenBelowAgain)
                 (detCenterY seenBelowAgain) (detCenterX seenBelow)
                 (detCenterY seenBelow) = 2).
  { apply calculateDistance_eq; unfold detCenterX, detCenterY; simpl; lra. }
  assert (Hi : calculateIoU (d_bbox seenBelowAgain) (d_bbox seenBelow)
               = Fin (19 / 21)).
  { unfold calculateIoU. simpl. eval_real. simpl. f_equal. lra. }
  assert (Hr : sizeRatio (d_bbox seenBelowAgain) (d_bbox seenBelow) = Fin 1).
  { unfold sizeRatio. simpl. eval_real. f_equal. lra. }
  apply findClosestPerson_single.
  - unfold withinThreshold, TRACKING_THRESHOLD. cbn [centerX centerY].
    rewrite Hd. lra.
  - rewrite (matchScore_fin (d_bbox seenBelowAgain) _ _
               (mkTrackedPerson (id walker) (d_bbox seenBelow)
                  (detCenterX seenBelow) (detCenterY seenBelow) 40 now c dir n)
               _ _ Hi Hr).
    cbn [centerX centerY]. rewrite Hd. unfold distanceScore, TRACKING_THRESHOLD, MIN_MATCH_SCORE.
    simpl. eval_real. reflexivity.
Qed.

Lemma walker_seen_twice_frameState :
  frameState clock0 random0 [seenBelow; seenBelowAgain] 200 world1
  = mkFrameState
      (mkWorld
         [mkTrackedPerson (id walker) (d_bbox seenBelow) (detCenterX seenBelow)
            (detCenterY seenBelow) 40 1000 true (Some dir_in) 0] 3 0)
      [id walker] 1 0 [mkEvent (id walker) dir_in].
Proof.
  rewrite frameState_unfold.
  change (filter isPerson [seenBelow; seenBelowAgain])
    with (if isPerson seenBelow
          then seenBelow :: (if isPerson seenBelowAgain then [seenBelowAgain] else [])
          else (if isPerson seenBelowAgain then [seenBelowAgain] else [])).
  unfold seenBelow at 1, seenBelowAgain at 1 3.
  rewrite !isPerson_person by lra.
  change (beforeAssociation clock0 [seenBelow; seenBelowAgain] world1)
    with (mkWorld [walker] 2 0).
  cbn [sortByScore fold_right insertByScore d_score].
  rewrite (proj2 (Rge_b_true (d_score seenBelow) (d_score seenBelowAgain)))
    by (simpl; lra).
  unfold associate. cbn [fold_left].
  rewrite (processDetection_counts_entering clock0 random0 _
             (mkFrameState (mkWorld [walker] 2 0) [] 0 0 []) seenBelow walker
             walker_seenBelow_found eq_refl eq_refl).
  - apply (processDetection_claimed clock0 random0 _ _ seenBelowAgain
             (mkTrackedPerson (id walker) (d_bbox seenBelow) (detCenterX seenBelow)
                (detCenterY seenBelow) 40 1000 true (Some dir_in) 0)).
    + apply (walker_moved_seenAgain_found 1000 true (Some dir_in) 0).
    + reflexivity.
  - unfold CROSSING_LINE_POSITION, detCenterY. simpl. lra.
  - unfold detCenterY. simpl. rewrite Rabs_pos_eq; lra.
Qed.

(** C1, counterexample.  The registry holds one track.  Two detections of
    the frame both score best against it: the more confident one claims it;
    the other one, whose best track is now claimed and for which there is no
    unclaimed track at all, neither claims a track nor starts one.  After the
    frame the registry still holds the one key, and no identifier was drawn. *)
Lemma claimed_best_track_drops_detection :
  let r := detectPeopleWithCrossing clock0 random0 [seenBelow; seenBelowAgain]
                                    200 world1 in
  out_peopleCount (fst (fst r)) = 2%nat
  /\ keys (trackedPeople (snd (fst r))) = [id walker]
  /\ randomDraws (snd (fst r)) = 0%nat.
Proof.
  cbv zeta.
  assert (Hkeep : snd (fst (detectPeopleWithCrossing clock0 random0
                              [seenBelow; seenBelowAgain] 200 world1))
                  = fs_world (frameState clock0 random0
                                [seenBelow; seenBelowAgain] 200 world1)).
  { rewrite frame_world. apply removeUnmatched_all_claimed.
    rewrite walker_seen_twice_frameState. simpl.
    intros q [<- | []]. reflexivity. }
  rewrite Hkeep, walker_seen_twice_frameState.
  split; [| split]; try reflexivity.
  unfold detectPeopleWithCrossing, detectPeople.
  cbn [fst out_peopleCount peopleCount].
  change (filter isPerson [seenBelow; seenBelowAgain])
    with (if isPerson seenBelow
          then seenBelow :: (if isPerson seenBelowAgain then [seenBelowAgain] else [])
          else (if isPerson seenBelowAgain then [seenBelowAgain] else [])).
  unfold seenBelow at 1, seenBelowAgain at 1 3.
  rewrite !isPerson_person by lra. reflexivity.
Qed.

(** On an empty registry [seenBelow] starts a track; once the walker is
    claimed, [seenBelowAgain] changes no key of the registry. *)
Lemma association_scores_whole_registry_witness :
  trackedPeople
    (fs_world (processDetection clock0 random0 100
                 (mkFrameState (mkWorld [] 0 0) [] 0 0 []) seenBelow))
  = [mkTrackedPerson (mkPersonId 1000 "x7k2m9q4z") (d_bbox seenBelow)
       (detCenterX seenBelow) (detCenterY seenBelow) (detCenterY seenBelow)
       1000 false None 0]
  /\ keys (trackedPeople
             (fs_world
                (processDetection clock0 random0 100
                   (mkFrameState
                      (mkWorld
                         [mkTrackedPerson (id walker) (d_bbox seenBelow)
                            (detCenterX seenBelow) (detCenterY seenBelow) 40 1000
                            true (Some dir_in) 0] 3 0)
                      [id walker] 1 0 [mkEvent (id walker) dir_in])
                   seenBelowAgain)))
     = [id walker].
Proof.
  split.
  - destruct (proj1 (proj2 (association_scores_whole_registry clock0 random0))
                100 (mkFrameState (mkWorld [] 0 0) [] 0 0 []) seenBelow)
      as (Hreg & _).
    + intros q [].
    + exact Hreg.
  - pose proof (findClosestPerson_Some _ _ _ _ _
                  (walker_moved_seenAgain_found 1000 true (Some dir_in) 0))
      as (Hin & Hw & Hs & _).
    exact (proj1 (proj2 (proj2 (association_scores_whole_registry clock0 random0))
             100
             (mkFrameState
                (mkWorld
                   [mkTrackedPerson (id walker) (d_bbox seenBelow)
                      (detCenterX seenBelow) (detCenterY seenBelow) 40 1000
                      true (Some dir_in) 0] 3 0)
                [id walker] 1 0 [mkEvent (id walker) dir_in])
             seenBelowAgain _ Hin Hw Hs)).
Defined.

(** ** Removal *)

(** C5, counterexample.  The clock stands at 1500 ms and the walker was last
    seen at 900 ms, 600 ms ago: less than the timeout of 3000 ms, let alone
    timeout plus grace period.  A frame without detections, with no reset,
    removes the track all the same, because it is unclaimed and beyond the
    grace period of 500 ms. *)
Lemma unclaimed_track_deleted_within_timeout :
  (clockLate 1 - lastSeen walker <= TRACKING_TIMEOUT)%Z
  /\ (clockLate 1 - lastSeen walker <= TRACKING_TIMEOUT + GRACE_PERIOD)%Z
  /\ trackedPeople
       (snd (fst (detectPeopleWithCrossing clockLate random0 [] 200 world1)))
     = [].
Proof.
  split; [| split].
  - unfold clockLate, TRACKING_TIMEOUT. simpl. lia.
  - unfold clockLate, TRACKING_TIMEOUT, GRACE_PERIOD. simpl. lia.
  - reflexivity.
Qed.

(** ** On a clock that advances *)

Lemma seenBelow_isPerson : isPerson seenBelow = true.
Proof. apply isPerson_person. lra. Qed.

Lemma walker_frameState_tick :
  frameState clockTick random0 [seenBelow] 200 world1
  = mkFrameState
      (mkWorld
         [mkTrackedPerson (id walker) (d_bbox seenBelow) (detCenterX seenBelow)
            (detCenterY seenBelow) 40 1200 true (Some dir_in) 0] 3 0)
      [id walker] 1 0 [mkEvent (id walker) dir_in].
Proof.
  rewrite frameState_unfold.
  change (filter isPerson [seenBelow])
    with (if isPerson seenBelow then [seenBelow] else []).
  rewrite seenBelow_isPerson.
  change (beforeAssociation clockTick [seenBelow] world1)
    with (mkWorld [walker] 2 0).
  unfold associate. cbn [sortByScore fold_right insertByScore fold_left].
  rewrite (processDetection_counts_entering clockTick random0 _
             (mkFrameState (mkWorld [walker] 2 0) [] 0 0 []) seenBelow walker
             walker_seenBelow_found eq_refl eq_refl).
  - reflexivity.
  - unfold CROSSING_LINE_POSITION, detCenterY. simpl. lra.
  - unfold detCenterY. simpl. rewrite Rabs_pos_eq; lra.
Qed.

(** C3, on a clock that advances by 100 ms at every read: the walker, at
    y = 40 and out of cooldown, is the one person detected, at y = 120, in a
    frame of height 200; the frame returns one entry and no exit. *)
Lemma crossing_direction_and_event_bound_witness :
  let r := detectPeopleWithCrossing clockTick random0 [seenBelow] 200 world1 in
  crossed walker = false /\ centerY walker = 40 /\ detCenterY seenBelow = 120
  /\ out_countIn (fst (fst r)) = 1%nat /\ out_countOut (fst (fst r)) = 0%nat
  /\ snd r = [mkEvent (id walker) dir_in].
Proof.
  cbv zeta.
  assert (Hy : detCenterY seenBelow = 120)
    by (unfold detCenterY; simpl; lra).
  split; [reflexivity |]. split; [reflexivity |]. split; [exact Hy |].
  apply (proj1 (crossing_direction_and_event_bound clockTick random0)
           [seenBelow] world1 seenBelow walker).
  - change (filter isPerson [seenBelow])
      with (if isPerson seenBelow then [seenBelow] else []).
    now rewrite seenBelow_isPerson.
  - change (trackedPeople (beforeAssociation clockTick [seenBelow] world1))
      with [walker].
    exact walker_seenBelow_found.
  - reflexivity.
  - reflexivity.
  - exact Hy.
Defined.

(** C2, on the same clock: the walker is counted in the first frame, stands
    where it is in the second and is not detected in the third; over the
    three frames it has the one event.  The walker once counted, detected
    where it stands in a further frame, is still tracked after it, in
    cooldown with its counter at 1. *)
Lemma counted_once_within_cooldown_witness :
  In (mkEvent (id walker) dir_in)
     (snd (detectPeopleWithCrossing clockTick random0 [seenBelow] 200 world1))
  /\ eventsOf (id walker)
       (List.concat
          (snd (run clockTick random0
                    [([seenBelow], 200); ([seenBelow], 200); ([], 200)]
                    world1)))
     = [mkEvent (id walker) dir_in]
  /\ exists q,
       In q (trackedPeople
               (snd (fst (detectPeopleWithCrossing clockTick random0 [seenBelow]
                            200 (mkWorld [walkerCounted] 3 0)))))
       /\ id q = id walker /\ crossed q = true
       /\ framesSinceCrossing q = 1%nat /\ direction q = Some dir_in.
Proof.
  assert (Hev : In (mkEvent (id walker) dir_in)
                   (snd (detectPeopleWithCrossing clockTick random0 [seenBelow]
                                                  200 world1))).
  { rewrite frame_events, walker_frameState_tick. now left. }
  assert (Hnd : NoDup (keys (trackedPeople world1))).
  { simpl. constructor; [easy | constructor]. }
  assert (Hnr : notRedrawn random0 (id walker) (randomDraws world1)).
  { intros j _. unfold random0. simpl. discriminate. }
  assert (Hlen : (List.length [([seenBelow], 200); (@nil Detection, 200)]
                  < CROSSING_COOLDOWN)%nat).
  { unfold CROSSING_COOLDOWN. simpl. lia. }
  destruct (counted_once_within_cooldown clockTick random0 (id walker) dir_in
              [seenBelow] 200 [([seenBelow], 200); ([], 200)] world1
              Hnd Hnr Hev Hlen) as (_ & _ & _ & _ & Hrun & _ & Hframe).
  split; [exact Hev |]. split; [exact Hrun |].
  assert (Hnd' : NoDup (keys [walkerCounted])).
  { simpl. constructor; [easy | constructor]. }
  destruct (Hframe (mkWorld [walkerCounted] 3 0) walkerCounted [seenBelow] 200
              Hnd' (or_introl eq_refl) Hnr eq_refl) as (Hpresent & Hstate & _).
  destruct (stationary_frame clockTick random0 walkerCounted seenBelow 200 3 0
              seenBelow_isPerson) as [Hst _]; simpl; try lra; try reflexivity.
  { unfold detCenterX. simpl. lra. }
  { unfold detCenterY. simpl. lra. }
  { unfold clockTick, TRACKING_TIMEOUT. simpl. lia. }
  cbv zeta in Hst.
  destruct Hpresent as (q & Hq & Hid).
  - unfold clockTick, TRACKING_TIMEOUT. simpl. lia.
  - left. rewrite Hst. now left.
  - exists q. split; [exact Hq |]. split; [exact Hid |].
    destruct (Hstate q Hq Hid) as (Hrunning & _).
    destruct Hrunning as (_ & Hcr & Hf & Hd).
    + unfold CROSSING_COOLDOWN. simpl. lia.
    + auto.
Defined.

(** C5, on the same clock.  The walker was last seen at 900 ms and is not
    detected.  The removal pass of the first frame reads 1200 ms, within the
    grace period: the walker is kept.  The removal pass of the second frame
    reads 1500 ms, beyond the grace period and well within the timeout: the
    walker is deleted. *)
Lemma track_removal_conditions_witness :
  In (cooldownTick walker)
     (trackedPeople
        (snd (fst (detectPeopleWithCrossing clockTick random0 [] 200 world1))))
  /\ ~ In (id walker)
          (keys (trackedPeople
                   (snd (fst (detectPeopleWithCrossing clockTick random0 [] 200
                                (mkWorld [walker] 3 0)))))).
Proof.
  assert (Hnd : NoDup (keys [walker])).
  { simpl. constructor; [easy | constructor]. }
  split.
  - destruct (track_removal_conditions clockTick random0 [] 200 world1 walker
                Hnd (or_introl eq_refl)) as (_ & _ & _ & _ & Hkept & _).
    apply Hkept.
    + reflexivity.
    + unfold clockTick, TRACKING_TIMEOUT. simpl. lia.
    + intros j Hj.
      change (clockReads (fs_world (frameState clockTick random0 [] 200 world1)))
        with 2%nat in Hj.
      change (clockReads (snd (fst (detectPeopleWithCrossing clockTick random0
                                      [] 200 world1))))
        with 3%nat in Hj.
      assert (j = 2%nat) by lia. subst j.
      unfold clockTick, GRACE_PERIOD. simpl. lia.
  - destruct (track_removal_conditions clockTick random0 [] 200
                (mkWorld [walker] 3 0) walker Hnd (or_introl eq_refl))
      as (_ & _ & _ & _ & _ & Hgone & _).
    apply Hgone.
    + reflexivity.
    + intros j Hj.
      change (clockReads (fs_world (frameState clockTick random0 [] 200
                                      (mkWorld [walker] 3 0))))
        with 5%nat in Hj.
      change (clockReads (snd (fst (detectPeopleWithCrossing clockTick random0
                                      [] 200 (mkWorld [walker] 3 0)))))
        with 6%nat in Hj.
      assert (j = 5%nat) by lia. subst j.
      unfold clockTick, GRACE_PERIOD. simpl. lia.
Defined.

(** ** A track that straddles the line without moving enough *)

Lemma loiterer_nudged_found :
  findClosestPerson [loiterer] (d_bbox nudged)
    (detCenterX nudged) (detCenterY nudged) = Some loiterer.
Proof.
  assert (Hd : calculateDistance (detCenterX nudged) (detCenterY nudged)
                 (centerX loiterer) (centerY loiterer) = 4).
  { apply calculateDistance_eq; unfold detCenterX, detCenterY; simpl; lra. }
  assert (Hi : calculateIoU (d_bbox nudged) (bbox loiterer) = Fin (9 / 11)).
  { unfold calculateIoU. simpl. eval_real. simpl. f_equal. lra. }
  assert (Hr : sizeRatio (d_bbox nudged) (bbox loiterer) = Fin 1).
  { unfold sizeRatio. simpl. eval_real. f_equal. lra. }
  apply findClosestPerson_single.
  - unfold withinThreshold, TRACKING_THRESHOLD. rewrite Hd. lra.
  - rewrite (matchScore_fin _ _ _ _ _ _ Hi Hr), Hd.
    unfold distanceScore, TRACKING_THRESHOLD, MIN_MATCH_SCORE. simpl.
    eval_real. reflexivity.
Qed.

(** The loiterer goes from y = 98 to y = 102, over the line at y = 100, by
    4 pixels only: nothing is counted. *)
Lemma insufficient_movement_is_not_counted_witness :
  let lineY := 200 * CROSSING_LINE_POSITION in
  let st := mkFrameState (mkWorld [loiterer] 2 0) [] 0 0 [] in
  let st' := processDetection clock0 random0 lineY st nudged in
  centerY loiterer < lineY < detCenterY nudged
  /\ countIn st' = 0%nat /\ countOut st' = 0%nat /\ fs_events st' = [].
Proof.
  cbv zeta. split.
  - unfold CROSSING_LINE_POSITION, detCenterY. simpl. lra.
  - assert (Hmove : Rabs (detCenterY nudged - centerY loiterer)
                    <= MIN_DISTANCE_FOR_CROSSING
                    \/ Rabs (detCenterY nudged - centerY loiterer)
                       <= Rabs (detCenterX nudged - centerX loiterer) * 0.1).
    { left. unfold MIN_DISTANCE_FOR_CROSSING, detCenterY. simpl.
      rewrite Rabs_pos_eq; lra. }
    destruct (insufficient_movement_is_not_counted clock0 random0
                (200 * CROSSING_LINE_POSITION)
                (mkFrameState (mkWorld [loiterer] 2 0) [] 0 0 []) nudged loiterer
                loiterer_nudged_found eq_refl Hmove) as (Hin & Hout & Hev & _).
    auto.
Defined.

(** ** The score and the distance cutoff *)

(** The score of [seenBelow] against the walker, by which the walker is
    selected, and a detection 520 pixels away that cannot select the
    walker. *)
Lemma matchScore_formula_and_distance_cutoff_witness :
  matchScore (d_bbox seenBelow) (detCenterX seenBelow) (detCenterY seenBelow) walker
  = Fin (0.5 * 0
         + 0.3 * Rmax 0 (1 - calculateDistance (detCenterX seenBelow)
                               (detCenterY seenBelow) (centerX walker)
                               (centerY walker) / TRACKING_THRESHOLD)
         + 0.2 * 1)
  /\ findClosestPerson [walker] (d_bbox seenFarRight)
       (detCenterX seenFarRight) (detCenterY seenFarRight) <> Some walker
  /\ (findClosestPerson [walker] (d_bbox seenBelow)
        (detCenterX seenBelow) (detCenterY seenBelow) = Some walker
      /\ num_gt (matchScore (d_bbox seenBelow) (detCenterX seenBelow)
                   (detCenterY seenBelow) walker) (Fin 0.3) = true).
Proof.
  split; [| split].
  - exact (proj1 (proj2 matchScore_formula_and_distance_cutoff)
             (d_bbox seenBelow) (detCenterX seenBelow) (detCenterY seenBelow)
             walker 0 1 walker_seenBelow_iou walker_seenBelow_ratio).
  - apply (proj1 (proj2 (proj2 matchScore_formula_and_distance_cutoff))).
    unfold TRACKING_THRESHOLD. apply calculateDistance_gt; [lra |].
    unfold detCenterX, detCenterY. simpl. lra.
  - split; [exact walker_seenBelow_found |].
    exact (proj1 (proj2 (proj2
             (proj1 (proj2 (proj2 (proj2 (proj2
                matchScore_formula_and_distance_cutoff))))
                [walker] (d_bbox seenBelow) (detCenterX seenBelow)
                (detCenterY seenBelow) walker walker_seenBelow_found)))).
Defined.

(** ** The crossing state and new tracks *)

(** The crossing state of the walker is consistent, and so is the registry
    after the frame that counts it. *)
Lemma crossing_state_invariant_witness :
  Forall crossingStateOk (trackedPeople world1)
  /\ Forall crossingStateOk
       (trackedPeople
          (snd (fst (detectPeopleWithCrossing clock0 random0 [seenBelow] 200
                                              world1)))).
Proof.
  assert (Hok : Forall crossingStateOk (trackedPeople world1)).
  { constructor; [| constructor].
    unfold crossingStateOk, CROSSING_COOLDOWN. simpl.
    split; [auto | split; [discriminate | lia]]. }
  split; [exact Hok |].
  exact (proj1 (proj2 (crossing_state_invariant clock0 random0))
           [seenBelow] 200 world1 Hok).
Defined.

(** A detection on an empty registry starts a track and counts nothing. *)
Lemma new_track_is_not_counted_witness :
  let st := mkFrameState (mkWorld [] 2 0) [] 0 0 [] in
  let st' := processDetection clock0 random0 100 st seenBelow in
  countIn st' = 0%nat /\ countOut st' = 0%nat /\ fs_events st' = []
  /\ set_has (matchedPeople st') (mkPersonId 1000 "x7k2m9q4z") = true.
Proof.
  cbv zeta.
  destruct (proj1 (new_track_is_not_counted clock0 random0) 100
              (mkFrameState (mkWorld [] 2 0) [] 0 0 []) seenBelow eq_refl)
    as (Hin & Hout & Hev & _ & _ & Hm).
  auto.
Defined.

(** ** Two people, 500 pixels apart *)

Lemma findClosestPerson_first_of_two (b : BBox) (cx cy : R) (t1 t2 : TrackedPerson) :
  withinThreshold cx cy t1 ->
  num_gt (matchScore b cx cy t1) (Fin MIN_MATCH_SCORE) = true ->
  calculateDistance cx cy (centerX t2) (centerY t2) > TRACKING_THRESHOLD ->
  findClosestPerson [t1; t2] b cx cy = Some t1.
Proof.
  intros Hw Hs Hfar. unfold findClosestPerson. simpl.
  unfold considerPerson at 2. rewrite (proj2 (Rgt_b_false _ _) Hw).
  simpl snd. rewrite Hs.
  unfold considerPerson. now rewrite (proj2 (Rgt_b_true _ _) Hfar).
Qed.

Lemma findClosestPerson_second_of_two (b : BBox) (cx cy : R) (t1 t2 : TrackedPerson) :
  calculateDistance cx cy (centerX t1) (centerY t1) > TRACKING_THRESHOLD ->
  withinThreshold cx cy t2 ->
  num_gt (matchScore b cx cy t2) (Fin MIN_MATCH_SCORE) = true ->
  findClosestPerson [t1; t2] b cx cy = Some t2.
Proof.
  intros Hfar Hw Hs. unfold findClosestPerson. simpl.
  unfold considerPerson at 2. rewrite (proj2 (Rgt_b_true _ _) Hfar).
  unfold considerPerson. rewrite (proj2 (Rgt_b_false _ _) Hw).
  simpl snd. now rewrite Hs.
Qed.

Lemma seenA_finds_personA :
  findClosestPerson [personA; personB] (d_bbox seenA)
    (detCenterX seenA) (detCenterY seenA) = Some personA.
Proof.
  assert (Hd : calculateDistance (detCenterX seenA) (detCenterY seenA)
                 (centerX personA) (centerY personA) = 100).
  { apply calculateDistance_eq; unfold detCenterX, detCenterY; simpl; lra. }
  assert (Hi : calculateIoU (d_bbox seenA) (bbox personA) = Fin 0).
  { unfold calculateIoU. simpl. eval_real. reflexivity. }
  assert (Hr : sizeRatio (d_bbox seenA) (bbox personA) = Fin 1).
  { unfold sizeRatio. simpl. eval_real. f_equal. lra. }
  apply findClosestPerson_first_of_two.
  - unfold withinThreshold, TRACKING_THRESHOLD. rewrite Hd. lra.
  - rewrite (matchScore_fin _ _ _ _ _ _ Hi Hr), Hd.
    unfold distanceScore, TRACKING_THRESHOLD, MIN_MATCH_SCORE. simpl.
    eval_real. reflexivity.
  - unfold TRACKING_THRESHOLD. apply calculateDistance_gt; [lra |].
    unfold detCenterX, detCenterY. simpl. lra.
Qed.

Lemma seenB_finds_personB (tA' : TrackedPerson) :
  placedAs tA' (id personA) seenA ->
  findClosestPerson [tA'; personB] (d_bbox seenB)
    (detCenterX seenB) (detCenterY seenB) = Some personB.
Proof.
  intros (_ & _ & Hx & Hy).
  assert (Hd : calculateDistance (detCenterX seenB) (detCenterY seenB)
                 (centerX personB) (centerY personB) = 110).
  { apply calculateDistance_eq; unfold detCenterX, detCenterY; simpl; lra. }
  assert (Hi : calculateIoU (d_bbox seenB) (bbox personB) = Fin 0).
  { unfold calculateIoU. simpl. eval_real. reflexivity. }
  assert (Hr : sizeRatio (d_bbox seenB) (bbox personB) = Fin 1).
  { unfold sizeRatio. simpl. eval_real. f_equal. lra. }
  apply findClosestPerson_second_of_two.
  - rewrite Hx, Hy. unfold TRACKING_THRESHOLD.
    apply calculateDistance_gt; [lra |].
    unfold detCenterX, detCenterY. simpl. lra.
  - unfold withinThreshold, TRACKING_THRESHOLD. rewrite Hd. lra.
  - rewrite (matchScore_fin _ _ _ _ _ _ Hi Hr), Hd.
    unfold distanceScore, TRACKING_THRESHOLD, MIN_MATCH_SCORE. simpl.
    eval_real. reflexivity.
Qed.

Lemma findClosestPerson_single_far (b : BBox) (cx cy : R) (t : TrackedPerson) :
  calculateDistance cx cy (centerX t) (centerY t) > TRACKING_THRESHOLD ->
  findClosestPerson [t] b cx cy = None.
Proof.
  intros Hfar. unfold findClosestPerson. simpl. unfold considerPerson.
  now rewrite (proj2 (Rgt_b_true _ _) Hfar).
Qed.

(** From an empty registry, the frame in which the two people appear leaves
    [world2]: two tracks, A first. *)
Lemma first_frame_registers_both :
  snd (fst (detectPeopleWithCrossing clockAB randomAB [firstA; firstB] 200
              (resetTracking (mkWorld [walker] 0 0))))
  = world2.
Proof.
  assert (HxA : detCenterX firstA = 100) by (unfold detCenterX; simpl; lra).
  assert (HyA : detCenterY firstA = 30) by (unfold detCenterY; simpl; lra).
  assert (HxB : detCenterX firstB = 600) by (unfold detCenterX; simpl; lra).
  assert (HyB : detCenterY firstB = 170) by (unfold detCenterY; simpl; lra).
  assert (Hst : frameState clockAB randomAB [firstA; firstB] 200
                  (resetTracking (mkWorld [walker] 0 0))
                = mkFrameState world2 [id personA; id personB] 0 0 []).
  { rewrite frameState_unfold.
    change (filter isPerson [firstA; firstB])
      with (if isPerson firstA
            then firstA :: (if isPerson firstB then [firstB] else [])
            else (if isPerson firstB then [firstB] else [])).
    unfold firstA at 1, firstB at 1 3. rewrite !isPerson_person by lra.
    cbn [sortByScore fold_right insertByScore d_score].
    rewrite (proj2 (Rge_b_true (d_score firstA) (d_score firstB)))
      by (simpl; lra).
    change (beforeAssociation clockAB [firstA; firstB]
              (resetTracking (mkWorld [walker] 0 0)))
      with (mkWorld [] 2 0).
    unfold associate. cbn [fold_left].
    rewrite (processDetection_new clockAB randomAB _
               (mkFrameState (mkWorld [] 2 0) [] 0 0 []) firstA eq_refl).
    cbv zeta. cbn [fs_world trackedPeople clockReads randomDraws matchedPeople
                    countIn countOut fs_events map_set].
    rewrite HxA, HyA.
    change (newPerson (mkPersonId (clockAB 2%nat) (randomAB 0%nat))
              (d_bbox firstA) 100 30 (clockAB 3%nat))
      with personA.
    match goal with
    | |- processDetection _ _ _ ?st _ = _ =>
        rewrite (processDetection_new clockAB randomAB _ st firstB)
    end.
    - cbv zeta. cbn [fs_world trackedPeople clockReads randomDraws matchedPeople
                      countIn countOut fs_events].
      rewrite HxB, HyB.
      change (newPerson (mkPersonId (clockAB 4%nat) (randomAB 1%nat))
                (d_bbox firstB) 600 170 (clockAB 5%nat))
        with personB.
      reflexivity.
    - cbn [fs_world trackedPeople]. apply findClosestPerson_single_far.
      rewrite HxB, HyB. unfold TRACKING_THRESHOLD.
      apply calculateDistance_gt; [lra |]. simpl. lra. }
  rewrite frame_world, Hst. cbn [matchedPeople fs_world].
  apply removeUnmatched_all_claimed.
  intros q [<- | [<- | []]]; reflexivity.
Qed.

(** The two people 500 pixels apart, in the frame after the one in which they
    appeared: one entry, one exit, the same keys. *)
Lemma two_people_cross_in_opposite_directions_witness :
  let r := detectPeopleWithCrossing clockAB randomAB [seenA; seenB] 200 world2 in
  snd (fst (detectPeopleWithCrossing clockAB randomAB [firstA; firstB] 200
              (resetTracking (mkWorld [walker] 0 0))))
  = world2
  /\ centerY personA = 30 /\ centerY personB = 170
  /\ detCenterY seenA = 130 /\ detCenterY seenB = 60
  /\ out_countIn (fst (fst r)) = 1%nat /\ out_countOut (fst (fst r)) = 1%nat
  /\ keys (trackedPeople (snd (fst r))) = [id personA; id personB].
Proof.
  cbv zeta.
  assert (HyA : detCenterY seenA = 130) by (unfold detCenterY; simpl; lra).
  assert (HyB : detCenterY seenB = 60) by (unfold detCenterY; simpl; lra).
  split; [exact first_frame_registers_both |].
  split; [reflexivity |]. split; [reflexivity |].
  split; [exact HyA |]. split; [exact HyB |].
  assert (Hne : id personA <> id personB) by (simpl; discriminate).
  assert (HpA : isPerson seenA = true) by (apply isPerson_person; lra).
  assert (HpB : isPerson seenB = true) by (apply isPerson_person; lra).
  assert (HtA : (clockAB (S (clockReads world2)) - lastSeen personA
                 <= TRACKING_TIMEOUT)%Z)
    by (unfold clockAB, TRACKING_TIMEOUT; simpl; lia).
  assert (HtB : (clockAB (S (clockReads world2)) - lastSeen personB
                 <= TRACKING_TIMEOUT)%Z)
    by (unfold clockAB, TRACKING_TIMEOUT; simpl; lia).
  assert (Hfirst : d_score seenA >= d_score seenB ->
            findClosestPerson [personA; personB] (d_bbox seenA)
              (detCenterX seenA) (detCenterY seenA) = Some personA
            /\ forall tA', placedAs tA' (id personA) seenA ->
                 findClosestPerson [tA'; personB] (d_bbox seenB)
                   (detCenterX seenB) (detCenterY seenB) = Some personB).
  { intros _. split; [exact seenA_finds_personA | exact seenB_finds_personB]. }
  assert (Hsecond : d_score seenA < d_score seenB ->
            findClosestPerson [personA; personB] (d_bbox seenB)
              (detCenterX seenB) (detCenterY seenB) = Some personB
            /\ forall tB', placedAs tB' (id personB) seenB ->
                 findClosestPerson [personA; tB'] (d_bbox seenA)
                   (detCenterX seenA) (detCenterY seenA) = Some personA).
  { intros Hlt. exfalso. simpl in Hlt. lra. }
  destruct (two_people_cross_in_opposite_directions clockAB randomAB world2
              personA personB seenA seenB eq_refl Hne eq_refl eq_refl
              eq_refl eq_refl HyA HyB HpA HpB HtA HtB Hfirst Hsecond)
    as (Hin & Hout & _ & _ & Hkeys & _).
  auto.
Defined.

(** ** A detection without area *)

(** The track that a zero-area detection started is not found again by the
    same detection: the score is [NaN], which exceeds nothing. *)
Lemma zero_area_detection_is_not_reidentified (now : Z) :
  findClosestPerson
    [newPerson speckId (d_bbox speck) (detCenterX speck) (detCenterY speck) now]
    (d_bbox speck) (detCenterX speck) (detCenterY speck) = None.
Proof.
  apply findClosestPerson_None. intros q [<- | []] _.
  unfold matchScore. cbn [bbox newPerson].
  replace (calculateIoU (d_bbox speck) (d_bbox speck)) with NaN; [reflexivity |].
  symmetry. apply calculateIoU_NaN_iff. simpl. eval_real. repeat split; lra.
Qed.

(** ** Two people, 200 pixels apart *)

(** A single track of the same size as the detection, not overlapping it and
    at most 250 pixels away, is selected: its score is at least
    [0.3 * 0.375 + 0.2]. *)
Lemma findClosestPerson_single_near (b : BBox) (cx cy : R) (t : TrackedPerson) :
  calculateIoU b (bbox t) = Fin 0 -> sizeRatio b (bbox t) = Fin 1 ->
  calculateDistance cx cy (centerX t) (centerY t) <= 250 ->
  findClosestPerson [t] b cx cy = Some t.
Proof.
  intros Hi Hr Hd. apply findClosestPerson_single.
  - unfold withinThreshold, TRACKING_THRESHOLD. lra.
  - rewrite (matchScore_fin _ _ _ _ _ _ Hi Hr).
    unfold distanceScore, TRACKING_THRESHOLD, MIN_MATCH_SCORE. simpl.
    apply Rgt_b_true.
    pose proof (Rmax_r 0 (1 - calculateDistance cx cy (centerX t) (centerY t) / 400)).
    lra.
Qed.

Lemma near_first_frame :
  frameState clockAB randomAB [firstA; nearB1] 200 (resetTracking world1)
  = mkFrameState (mkWorld [personA] 4 1) [id personA] 0 0 [].
Proof.
  assert (HxA : detCenterX firstA = 100) by (unfold detCenterX; simpl; lra).
  assert (HyA : detCenterY firstA = 30) by (unfold detCenterY; simpl; lra).
  rewrite frameState_unfold.
  change (filter isPerson [firstA; nearB1])
    with (if isPerson firstA
          then firstA :: (if isPerson nearB1 then [nearB1] else [])
          else (if isPerson nearB1 then [nearB1] else [])).
  unfold firstA at 1, nearB1 at 1 3. rewrite !isPerson_person by lra.
  cbn [sortByScore fold_right insertByScore d_score].
  rewrite (proj2 (Rge_b_true (d_score firstA) (d_score nearB1))) by (simpl; lra).
  change (beforeAssociation clockAB [firstA; nearB1] (resetTracking world1))
    with (mkWorld [] 2 0).
  unfold associate. cbn [fold_left].
  rewrite (processDetection_new clockAB randomAB _
             (mkFrameState (mkWorld [] 2 0) [] 0 0 []) firstA eq_refl).
  cbv zeta. cbn [fs_world trackedPeople clockReads randomDraws matchedPeople
                  countIn countOut fs_events map_set].
  rewrite HxA, HyA.
  change (newPerson (mkPersonId (clockAB 2%nat) (randomAB 0%nat))
            (d_bbox firstA) 100 30 (clockAB 3%nat))
    with personA.
  apply (processDetection_claimed clockAB randomAB _ _ nearB1 personA);
    [| reflexivity].
  cbn [fs_world trackedPeople]. apply findClosestPerson_single_near.
  - unfold calculateIoU. simpl. eval_real. reflexivity.
  - unfold sizeRatio. simpl. eval_real. f_equal. lra.
  - apply calculateDistance_le; [lra |].
    unfold detCenterX, detCenterY. simpl. lra.
Qed.

Lemma near_second_frame :
  frameState clockAB randomAB [seenA; nearB2] 200 (mkWorld [personA] 4 1)
  = mkFrameState
      (mkWorld
         [mkTrackedPerson (id personA) (d_bbox seenA) (detCenterX seenA)
            (detCenterY seenA) 30 1000 true (Some dir_in) 0] 7 1)
      [id personA] 1 0 [mkEvent (id personA) dir_in].
Proof.
  rewrite frameState_unfold.
  change (filter isPerson [seenA; nearB2])
    with (if isPerson seenA
          then seenA :: (if isPerson nearB2 then [nearB2] else [])
          else (if isPerson nearB2 then [nearB2] else [])).
  unfold seenA at 1, nearB2 at 1 3. rewrite !isPerson_person by lra.
  cbn [sortByScore fold_right insertByScore d_score].
  rewrite (proj2 (Rge_b_true (d_score seenA) (d_score nearB2))) by (simpl; lra).
  change (beforeAssociation clockAB [seenA; nearB2] (mkWorld [personA] 4 1))
    with (mkWorld [personA] 6 1).
  unfold associate. cbn [fold_left].
  rewrite (processDetection_counts_entering clockAB randomAB _
             (mkFrameState (mkWorld [personA] 6 1) [] 0 0 []) seenA personA).
  - apply (processDetection_claimed clockAB randomAB _ _ nearB2
             (mkTrackedPerson (id personA) (d_bbox seenA) (detCenterX seenA)
                (detCenterY seenA) 30 1000 true (Some dir_in) 0));
      [| reflexivity].
    cbn [fs_world trackedPeople]. apply findClosestPerson_single_near.
    + unfold calculateIoU. simpl. eval_real. reflexivity.
    + unfold sizeRatio. simpl. eval_real. f_equal. lra.
    + apply calculateDistance_le; [lra |].
      unfold detCenterX, detCenterY. simpl. lra.
  - cbn [fs_world trackedPeople]. apply findClosestPerson_single_near.
    + unfold calculateIoU. simpl. eval_real. reflexivity.
    + unfold sizeRatio. simpl. eval_real. f_equal. lra.
    + apply calculateDistance_le; [lra |].
      unfold detCenterX, detCenterY. simpl. lra.
  - reflexivity.
  - reflexivity.
  - unfold CROSSING_LINE_POSITION, detCenterY. simpl. lra.
  - unfold detCenterY. simpl. rewrite Rabs_pos_eq; lra.
Qed.

(** C4, counterexample.  The two people are 200 pixels apart, with boxes of
    the same size that never overlap: A at (100, 30) and B at (300, 170) in
    the first frame after a reset, A at (100, 130) and B at (300, 60) in the
    second.  Each detection of the second frame is nearer to its own box of
    the first frame than to the other one.  Yet in the first frame B scores
    above 0.3 against the track just started for A, which is claimed, so B is
    dropped and the registry holds one track; in the second frame A is
    counted as entering and B is dropped again: one entry, no exit, one
    track. *)
Lemma nearby_people_share_one_track :
  let w1 := snd (fst (detectPeopleWithCrossing clockAB randomAB
                        [firstA; nearB1] 200 (resetTracking world1))) in
  let r2 := detectPeopleWithCrossing clockAB randomAB [seenA; nearB2] 200 w1 in
  (detCenterY firstA = 30 /\ detCenterY nearB1 = 170
   /\ detCenterY seenA = 130 /\ detCenterY nearB2 = 60)
  /\ calculateDistance (detCenterX seenA) (detCenterY seenA)
       (detCenterX firstA) (detCenterY firstA)
     < calculateDistance (detCenterX seenA) (detCenterY seenA)
         (detCenterX nearB1) (detCenterY nearB1)
  /\ calculateDistance (detCenterX nearB2) (detCenterY nearB2)
       (detCenterX nearB1) (detCenterY nearB1)
     < calculateDistance (detCenterX nearB2) (detCenterY nearB2)
         (detCenterX firstA) (detCenterY firstA)
  /\ keys (trackedPeople w1) = [mkPersonId 900 "a1b2c3d4e"]
  /\ out_countIn (fst (fst r2)) = 1%nat /\ out_countOut (fst (fst r2)) = 0%nat
  /\ keys (trackedPeople (snd (fst r2))) = [mkPersonId 900 "a1b2c3d4e"].
Proof.
  cbv zeta.
  assert (Hw1 : snd (fst (detectPeopleWithCrossing clockAB randomAB
                            [firstA; nearB1] 200 (resetTracking world1)))
                = mkWorld [personA] 4 1).
  { rewrite frame_world, near_first_frame. cbn [matchedPeople fs_world].
    apply removeUnmatched_all_claimed. intros q [<- | []]. reflexivity. }
  assert (Hw2 : snd (fst (detectPeopleWithCrossing clockAB randomAB
                            [seenA; nearB2] 200 (mkWorld [personA] 4 1)))
                = fs_world (frameState clockAB randomAB [seenA; nearB2] 200
                              (mkWorld [personA] 4 1))).
  { rewrite frame_world. apply removeUnmatched_all_claimed.
    rewrite near_second_frame. simpl. intros q [<- | []]. reflexivity. }
  rewrite Hw1, Hw2.
  split; [| split; [| split; [| split; [| split; [| split]]]]].
  - unfold detCenterY. simpl. repeat split; lra.
  - rewrite (calculateDistance_eq _ _ _ _ 100)
      by (unfold detCenterX, detCenterY; simpl; lra).
    apply calculateDistance_gt; [lra |].
    unfold detCenterX, detCenterY. simpl. lra.
  - rewrite (calculateDistance_eq _ _ _ _ 110)
      by (unfold detCenterX, detCenterY; simpl; lra).
    apply calculateDistance_gt; [lra |].
    unfold detCenterX, detCenterY. simpl. lra.
  - reflexivity.
  - unfold detectPeopleWithCrossing. cbn [fst out_countIn].
    now rewrite near_second_frame.
  - unfold detectPeopleWithCrossing. cbn [fst out_countOut].
    now rewrite near_second_frame.
  - now rewrite near_second_frame.
Qed.

(** * Further properties of the tracker *)

(** ** Geometry *)

Lemma calculateIoU_sym (b1 b2 : BBox) : calculateIoU b1 b2 = calculateIoU b2 b1.
Proof.
  destruct b1 as [x1 y1 w1 h1], b2 as [x2 y2 w2 h2]. unfold calculateIoU.
  rewrite (Rmax_comm x2 x1), (Rmax_comm y2 y1).
  rewrite (Rmin_comm (x2 + w2)), (Rmin_comm (y2 + h2)).
  destruct (_ || _); [reflexivity |]. f_equal. ring.
Qed.

Lemma calculateDistance_sym (x1 y1 x2 y2 : R) :
  calculateDistance x1 y1 x2 y2 = calculateDistance x2 y2 x1 y1.
Proof. unfold calculateDistance. f_equal. ring. Qed.


Lemma distanceScore_range (d : R) : 0 <= d -> 0 <= distanceScore d <= 1.
Proof.
  intros Hd. unfold distanceScore, TRACKING_THRESHOLD. split.
  - apply Rmax_l.
  - apply Rmax_lub; lra.
Qed.

(** X1. Neither the intersection over union of two boxes nor the distance
    between two points depends on the order in which the two are given: a
    detection scores against a track as the track would against the
    detection. *)
Theorem calculateIoU_and_distance_are_symmetric (b1 b2 : BBox)
    (x1 y1 x2 y2 : R) :
  calculateIoU b1 b2 = calculateIoU b2 b1
  /\ calculateDistance x1 y1 x2 y2 = calculateDistance x2 y2 x1 y1.
Proof. split; [apply calculateIoU_sym | apply calculateDistance_sym]. Qed.

(** ** The score *)



Section Merging.

Variable clock : nat -> Z.
Variable random : nat -> string.


End Merging.


(** ** Selection and order *)

Section First.
Variables (b : BBox) (cx cy : R).

Lemma fold_considerPerson_first (m : Registry) :
  forall acc : option TrackedPerson * number,
    let r := fold_left (considerPerson b cx cy) m acc in
    r = acc
    \/ exists (l1 : Registry) p l2,
        m = (l1 ++ p :: l2)%list /\ r = (Some p, matchScore b cx cy p)
        /\ num_gt (matchScore b cx cy p) (snd acc) = true
        /\ forall q, In q l1 -> withinThreshold cx cy q ->
                     matchScore b cx cy q <> matchScore b cx cy p.
Proof.
  induction m as [| x rest IH]; intros acc; simpl; [now left |].
  specialize (IH (considerPerson b cx cy acc x)). cbv zeta in IH.
  destruct (considerPerson_cases b cx cy acc x) as [(Hc & Hw & Hgt) | (Hc & Hle)];
    rewrite Hc in *; simpl in *.
  - right. destruct IH as [Hr | (l1 & p & l2 & Hm & Hr & Hgt' & Hne)].
    + exists [], x, rest. split; [reflexivity |]. split; [exact Hr |].
      split; [exact Hgt |]. intros q [].
    + exists (x :: l1), p, l2. split; [now rewrite Hm |].
      split; [exact Hr |]. split; [eapply num_gt_trans; eauto |].
      intros q [<- | Hq] Hwq; [| now apply Hne].
      intros Heq. rewrite Heq, num_gt_irrefl in Hgt'. discriminate.
  - destruct IH as [Hr | (l1 & p & l2 & Hm & Hr & Hgt' & Hne)]; [now left |].
    right. exists (x :: l1), p, l2. split; [now rewrite Hm |].
    split; [exact Hr |]. split; [exact Hgt' |].
    intros q [<- | Hq] Hwq; [| now apply Hne].
    intros Heq. rewrite Heq in Hle. rewrite (Hle Hwq) in Hgt'. discriminate.
Qed.
End First.

(** X6. Among the tracks that score the same, [findClosestPerson] returns
    the one stored first: the registry splits around the returned track so
    that no track within the threshold scores more, and none before it scores
    the same. *)
Theorem findClosestPerson_returns_first_of_the_best
    (m : Registry) (b : BBox) (cx cy : R) (p : TrackedPerson) :
  findClosestPerson m b cx cy = Some p ->
  exists (l1 l2 : Registry),
    m = (l1 ++ p :: l2)%list
    /\ (forall q, In q l1 -> withinThreshold cx cy q ->
                  matchScore b cx cy q <> matchScore b cx cy p)
    /\ (forall q, In q m -> withinThreshold cx cy q ->
                  num_gt (matchScore b cx cy q) (matchScore b cx cy p) = false).
Proof.
  intros Hf.
  destruct (findClosestPerson_Some b cx cy m p Hf) as (_ & _ & _ & Hmax).
  unfold findClosestPerson in Hf.
  destruct (fold_considerPerson_first b cx cy m (None, Fin MIN_MATCH_SCORE))
    as [Hr | (l1 & p' & l2 & Hm & Hr & _ & Hfirst)]; cbv zeta in *.
  - rewrite Hr in Hf. discriminate.
  - rewrite Hr in Hf. simpl in Hf. injection Hf as ->.
    exists l1, l2. auto.
Qed.

Lemma findClosestPerson_tie (b : BBox) (cx cy : R) (t1 t2 : TrackedPerson) :
  withinThreshold cx cy t1 ->
  num_gt (matchScore b cx cy t1) (Fin MIN_MATCH_SCORE) = true ->
  matchScore b cx cy t2 = matchScore b cx cy t1 ->
  findClosestPerson [t1; t2] b cx cy = Some t1.
Proof.
  intros Hw Hs Heq. unfold findClosestPerson. simpl.
  unfold considerPerson at 2. rewrite (proj2 (Rgt_b_false _ _) Hw).
  simpl snd. rewrite Hs.
  unfold considerPerson. destruct (Rgt_b _ _); [reflexivity |].
  simpl snd. rewrite Heq, num_gt_irrefl. reflexivity.
Qed.

Lemma walker_before_twin :
  findClosestPerson [walker; walkerTwin] (d_bbox seenBelow)
    (detCenterX seenBelow) (detCenterY seenBelow) = Some walker.
Proof.
  apply findClosestPerson_tie.
  - unfold withinThreshold, TRACKING_THRESHOLD.
    rewrite walker_seenBelow_distance. lra.
  - rewrite (matchScore_fin _ _ _ _ _ _ walker_seenBelow_iou walker_seenBelow_ratio).
    rewrite walker_seenBelow_distance.
    unfold distanceScore, TRACKING_THRESHOLD, MIN_MATCH_SCORE. simpl.
    eval_real. reflexivity.
  - reflexivity.
Qed.

(** Two tracks at the same place: the one stored first is returned. *)
Lemma findClosestPerson_returns_first_of_the_best_witness :
  exists (l1 l2 : Registry),
    [walker; walkerTwin] = (l1 ++ walker :: l2)%list
    /\ (forall q, In q l1 ->
           withinThreshold (detCenterX seenBelow) (detCenterY seenBelow) q ->
           matchScore (d_bbox seenBelow) (detCenterX seenBelow)
             (detCenterY seenBelow) q
           <> matchScore (d_bbox seenBelow) (detCenterX seenBelow)
                (detCenterY seenBelow) walker)
    /\ (forall q, In q [walker; walkerTwin] ->
           withinThreshold (detCenterX seenBelow) (detCenterY seenBelow) q ->
           num_gt (matchScore (d_bbox seenBelow) (detCenterX seenBelow)
                     (detCenterY seenBelow) q)
                  (matchScore (d_bbox seenBelow) (detCenterX seenBelow)
                     (detCenterY seenBelow) walker) = false).
Proof.
  exact (findClosestPerson_returns_first_of_the_best [walker; walkerTwin]
           (d_bbox seenBelow) (detCenterX seenBelow) (detCenterY seenBelow)
           walker walker_before_twin).
Defined.

Lemma insertByScore_stable (c : R) (d : Detection) (l : list Detection) :
  filter (sameScore c) (insertByScore d l) = filter (sameScore c) (d :: l).
Proof.
  induction l as [| x rest IH]; simpl; [reflexivity |].
  destruct (Rge_b (d_score d) (d_score x)) eqn:Hd; [reflexivity |].
  apply Rge_b_false in Hd. simpl. rewrite IH. simpl.
  unfold sameScore.
  destruct (Req_dec_T (d_score d) c), (Req_dec_T (d_score x) c);
    try reflexivity. exfalso. lra.
Qed.

Lemma sortByScore_stable (c : R) (l : list Detection) :
  filter (sameScore c) (sortByScore l) = filter (sameScore c) l.
Proof.
  induction l as [| d rest IH]; simpl; [reflexivity |].
  rewrite insertByScore_stable. simpl. now rewrite IH.
Qed.

Lemma sortByScore_fixes_sorted (l : list Detection) :
  StronglySorted byScoreDesc l -> sortByScore l = l.
Proof.
  induction l as [| d rest IH]; simpl; [reflexivity |].
  intros Hs. inversion Hs as [| ? ? Hrest Hd]; subst.
  rewrite IH by assumption.
  destruct rest as [| x rest']; simpl; [reflexivity |].
  inversion Hd as [| ? ? Hx _]; subst.
  now rewrite (proj2 (Rge_b_true _ _) Hx).
Qed.

(** X7. The order in which the detections are processed is the stable
    arrangement by descending confidence: it holds the same detections, no
    later one is more confident, detections of equal confidence keep the
    order the model gave them, and a list already in that order is
    unchanged. *)
Theorem sortByScore_is_stable (l : list Detection) :
  Permutation l (sortByScore l)
  /\ StronglySorted byScoreDesc (sortByScore l)
  /\ (forall c, filter (sameScore c) (sortByScore l) = filter (sameScore c) l)
  /\ (StronglySorted byScoreDesc l -> sortByScore l = l)
  /\ sortByScore (sortByScore l) = sortByScore l.
Proof.
  split; [apply sortByScore_perm |].
  split; [apply sortByScore_sorted |].
  split; [intros c; apply sortByScore_stable |].
  split; [apply sortByScore_fixes_sorted |].
  apply sortByScore_fixes_sorted, sortByScore_sorted.
Qed.

(** ** Properties of a frame *)

Lemma filter_isPerson_idem (l : list Detection) :
  filter isPerson (filter isPerson l) = filter isPerson l.
Proof.
  induction l as [| x rest IH]; simpl; [reflexivity |].
  destruct (isPerson x) eqn:Hx; simpl; [rewrite Hx, IH |]; auto.
Qed.

Lemma isPerson_true (d : Detection) :
  isPerson d = true <-> d_class d = "person" /\ d_score d >= MIN_CONFIDENCE.
Proof.
  unfold isPerson. rewrite andb_true_iff, String.eqb_eq, Rge_b_true. tauto.
Qed.

Section FrameInput.

Variable clock : nat -> Z.
Variable random : nat -> string.

(** X8. Only the predictions of class person with a confidence of at least
    [MIN_CONFIDENCE] take part in a frame: the result, the state and the
    events are those of the frame given these predictions alone, the
    detections returned are exactly these, in the order of the model, and
    [peopleCount] is their number. *)
Theorem only_confident_people_take_part (predictions : list Detection)
    (frameHeight : R) (w : World) :
  let r := detectPeopleWithCrossing clock random predictions frameHeight w in
  r = detectPeopleWithCrossing clock random (filter isPerson predictions)
        frameHeight w
  /\ out_detections (fst (fst r)) = filter isPerson predictions
  /\ out_peopleCount (fst (fst r)) = List.length (filter isPerson predictions)
  /\ Forall (fun d => d_class d = "person" /\ d_score d >= MIN_CONFIDENCE)
            (out_detections (fst (fst r))).
Proof.
  cbv zeta. split; [| split; [| split]]; try reflexivity.
  - unfold detectPeopleWithCrossing, frameState, beforeAssociation, detectPeople.
    simpl. now rewrite filter_isPerson_idem.
  - simpl. apply Forall_forall. intros d Hd.
    apply filter_In in Hd as [_ Hd]. now apply isPerson_true.
Qed.

End FrameInput.

Lemma events_split_length (log : list Event) :
  (List.length (filter isEntering log) + List.length (filter isExiting log)
   = List.length log)%nat.
Proof.
  induction log as [| e rest IH]; simpl; [reflexivity |].
  unfold isEntering at 1, isExiting at 1.
  destruct (ev_dir e); simpl; lia.
Qed.

Lemma map_set_length (m : Registry) (v : TrackedPerson) :
  (List.length (map_set m v) <= S (List.length m))%nat
  /\ (In (id v) (keys m) -> List.length (map_set m v) = List.length m).
Proof.
  split.
  - induction m as [| p rest IH]; simpl; [lia |].
    destruct (id_eqb (id p) (id v)); simpl; lia.
  - intros Hin. pose proof (keys_map_set_present m v Hin) as Hk.
    apply (f_equal (@List.length PersonId)) in Hk.
    unfold keys in Hk. now rewrite !length_map in Hk.
Qed.

Lemma deleteAll_length (ids : list PersonId) :
  forall m : Registry, (List.length (deleteAll m ids) <= List.length m)%nat.
Proof.
  unfold deleteAll. induction ids as [| k rest IH]; intros m; simpl; [lia |].
  etransitivity; [apply IH |].
  destruct (map_get m k); [| lia]. unfold map_delete. apply filter_length_le.
Qed.

Section FrameBounds.

Variable clock : nat -> Z.
Variable random : nat -> string.

Lemma processDetection_bounds (lineY : R) (st : FrameState) (d : Detection) :
  let st' := processDetection clock random lineY st d in
  (randomDraws (fs_world st') + List.length (fs_events st')
   <= randomDraws (fs_world st) + List.length (fs_events st) + 1)%nat
  /\ (List.length (trackedPeople (fs_world st')) + randomDraws (fs_world st)
      <= List.length (trackedPeople (fs_world st)) + randomDraws (fs_world st'))%nat
  /\ (randomDraws (fs_world st) <= randomDraws (fs_world st'))%nat.
Proof.
  cbv zeta.
  destruct (processDetection_cases clock random lineY st d)
    as [(p & _ & Hin & _ & Hst) | [(p & _ & _ & Hst) | (_ & Hst)]];
    cbv zeta in Hst; rewrite Hst; simpl.
  - set (moved := moveTo p _ _ _ _).
    pose proof (checkCrossing_id lineY (centerX p) moved) as Hid.
    change (id moved) with (id p) in Hid.
    rewrite (proj2 (map_set_length _ _))
      by (rewrite Hid; unfold keys; now apply in_map).
    destruct (snd (checkCrossing lineY (centerX p) moved)); simpl;
      rewrite ?length_app; simpl; lia.
  - lia.
  - match goal with |- context [map_set ?m ?v] =>
      pose proof (proj1 (map_set_length m v)) end.
    lia.
Qed.

Lemma fold_processDetection_bounds (lineY : R) (ds : list Detection) :
  forall st : FrameState,
    let st' := fold_left (processDetection clock random lineY) ds st in
    (randomDraws (fs_world st') + List.length (fs_events st')
     <= randomDraws (fs_world st) + List.length (fs_events st) + List.length ds)%nat
    /\ (List.length (trackedPeople (fs_world st')) + randomDraws (fs_world st)
        <= List.length (trackedPeople (fs_world st)) + randomDraws (fs_world st'))%nat
    /\ (randomDraws (fs_world st) <= randomDraws (fs_world st'))%nat.
Proof.
  induction ds as [| d rest IH]; intros st; simpl; [lia |].
  specialize (IH (processDetection clock random lineY st d)).
  pose proof (processDetection_bounds lineY st d) as Hd.
  cbv zeta in *. lia.
Qed.

Lemma frame_bounds (predictions : list Detection)
    (frameHeight : R) (w : World) :
  let r := detectPeopleWithCrossing clock random predictions frameHeight w in
  let out := fst (fst r) in
  let w' := snd (fst r) in
  (out_countIn out + out_countOut out = List.length (snd r))%nat
  /\ (randomDraws w <= randomDraws w')%nat
  /\ (out_countIn out + out_countOut out + (randomDraws w' - randomDraws w)
      <= out_peopleCount out)%nat
  /\ (out_countIn out + out_countOut out <= List.length (trackedPeople w))%nat
  /\ (List.length (trackedPeople w')
      <= List.length (trackedPeople w) + (randomDraws w' - randomDraws w))%nat.
Proof.
  cbv zeta. rewrite frame_world, frame_events.
  destruct (frameState_assocInv clock random predictions frameHeight w)
    as [_ _ _ _ _ A3 A4 A5 A6].
  change (out_countIn (fst (fst (detectPeopleWithCrossing clock random
                                   predictions frameHeight w))))
    with (countIn (frameState clock random predictions frameHeight w)).
  change (out_countOut (fst (fst (detectPeopleWithCrossing clock random
                                    predictions frameHeight w))))
    with (countOut (frameState clock random predictions frameHeight w)).
  change (out_peopleCount (fst (fst (detectPeopleWithCrossing clock random
                                       predictions frameHeight w))))
    with (List.length (filter isPerson predictions)).
  assert (Hdraws : forall m v,
             randomDraws (removeUnmatched clock m v) = randomDraws v).
  { intros m v. unfold removeUnmatched. now destruct (collectUnmatched _ _ _ _). }
  assert (Hlen : forall m v,
             (List.length (trackedPeople (removeUnmatched clock m v))
              <= List.length (trackedPeople v))%nat).
  { intros m v. unfold removeUnmatched. destruct (collectUnmatched _ _ _ _).
    simpl. apply deleteAll_length. }
  rewrite Hdraws. specialize (Hlen (matchedPeople (frameState clock random
                                      predictions frameHeight w))
                                   (fs_world (frameState clock random
                                      predictions frameHeight w))).
  pose proof (events_split_length
                (fs_events (frameState clock random predictions frameHeight w)))
    as Hsplit.
  assert (Hold : (List.length (fs_events (frameState clock random predictions
                                            frameHeight w))
                  <= List.length (trackedPeople w))%nat).
  { transitivity (List.length (keys (trackedPeople
                                       (beforeAssociation clock predictions w)))).
    - rewrite <- (length_map ev_id). apply NoDup_incl_length; [exact A4 |].
      intros k Hk. apply in_map_iff in Hk as (e & <- & He).
      destruct (A3 e He) as (p & Hp & Hid & _). rewrite <- Hid.
      unfold keys. now apply in_map.
    - rewrite beforeAssociation_registry, keys_map_cooldownTick.
      unfold keys. rewrite length_map. apply filter_length_le. }
  set (st := frameState clock random predictions frameHeight w) in *.
  assert (Hb : (randomDraws (fs_world st) + List.length (fs_events st)
                <= randomDraws w + List.length (filter isPerson predictions))%nat
               /\ (List.length (trackedPeople (fs_world st)) + randomDraws w
                   <= List.length (trackedPeople w) + randomDraws (fs_world st))%nat
               /\ (randomDraws w <= randomDraws (fs_world st))%nat).
  { pose proof (fold_processDetection_bounds
                  (frameHeight * CROSSING_LINE_POSITION)
                  (sortByScore (filter isPerson predictions))
                  (mkFrameState (beforeAssociation clock predictions w)
                     [] 0%nat 0%nat [])) as Hb.
    cbv zeta in Hb.
    rewrite <- (Permutation_length (sortByScore_perm _)) in Hb.
    change (fold_left _ _ _) with st in Hb.
    assert (Hreg : (List.length (trackedPeople
                                   (beforeAssociation clock predictions w))
                    <= List.length (trackedPeople w))%nat).
    { rewrite beforeAssociation_registry, length_map. apply filter_length_le. }
    cbn [fs_world fs_events List.length] in Hb.
    destruct (beforeAssociation_reads clock predictions w) as [_ Hr].
    rewrite Hr in Hb. lia. }
  lia.
Qed.

(** X9. In a frame every detection is used at most once, to count a crossing
    or to start a track: the crossings counted and the identifiers drawn are
    together no more than [peopleCount].  The crossings counted are also no
    more than the tracks the frame started with, the two counters add up to
    the number of events, and the registry grows by no more than the
    identifiers drawn. *)
Theorem frame_counts_are_bounded (predictions : list Detection)
    (frameHeight : R) (w : World) :
  let r := detectPeopleWithCrossing clock random predictions frameHeight w in
  let out := fst (fst r) in
  let w' := snd (fst r) in
  (out_countIn out + out_countOut out = List.length (snd r))%nat
  /\ (randomDraws w <= randomDraws w')%nat
  /\ (out_countIn out + out_countOut out + (randomDraws w' - randomDraws w)
      <= out_peopleCount out)%nat
  /\ (out_countIn out + out_countOut out <= List.length (trackedPeople w))%nat
  /\ (List.length (trackedPeople w')
      <= List.length (trackedPeople w) + (randomDraws w' - randomDraws w))%nat.
Proof. apply frame_bounds. Qed.

End FrameBounds.

(** ** The end of the cooldown *)

Section CooldownEnd.

Variable clock : nat -> Z.
Variable random : nat -> string.

Lemma run_nil (w : World) : run clock random [] w = (w, []).
Proof. reflexivity. Qed.

(** The state of a track in cooldown across the frames of a run. *)
Lemma run_cooling_state (k : PersonId) (d : option Direction)
    (frames : list (list Detection * R)) :
  forall (c : nat) (w : World),
    notRedrawn random k (randomDraws w) ->
    coolingAt k c d (trackedPeople w) ->
    (c + List.length frames < CROSSING_COOLDOWN)%nat ->
    coolingAt k (c + List.length frames) d
      (trackedPeople (fst (run clock random frames w)))
    /\ (randomDraws w <= randomDraws (fst (run clock random frames w)))%nat.
Proof.
  induction frames as [| [predictions frameHeight] rest IH];
    intros c w Hnr Hcool Hc.
  - rewrite run_nil. simpl. rewrite Nat.add_0_r. auto.
  - rewrite run_cons. cbn [fst]. simpl List.length in *.
    destruct (frame_cooling clock random k c d predictions frameHeight w Hnr Hcool)
      as (_ & Hcool' & Hn); [lia |].
    destruct (IH (S c) _ (fun j Hj => Hnr j (Nat.le_trans _ _ _ Hn Hj)) Hcool')
      as [Hfin Hdraws]; [lia |].
    rewrite Nat.add_succ_r. split; [exact Hfin | lia].
Qed.

(** A track that is kept alive is in the registry at the end of the run. *)
Lemma run_present (k : PersonId) (frames : list (list Detection * R)) :
  forall w : World,
    NoDup (keys (trackedPeople w)) ->
    (exists p, In p (trackedPeople w) /\ id p = k) ->
    keptAlive clock random k frames w ->
    NoDup (keys (trackedPeople (fst (run clock random frames w))))
    /\ exists q, In q (trackedPeople (fst (run clock random frames w)))
                 /\ id q = k.
Proof.
  induction frames as [| [predictions frameHeight] rest IH];
    intros w Hnd Hex Hkept; [now rewrite run_nil |].
  rewrite run_cons. cbn [fst]. cbn [keptAlive] in Hkept.
  destruct Hkept as [Hframe Hrest]. destruct Hex as (p & Hp & Hk).
  destruct (Hframe p Hp Hk) as [Hfresh Hclaim].
  apply IH; [now apply frame_NoDup | | exact Hrest].
  destruct (frame_present clock random predictions frameHeight w p Hnd Hp Hfresh)
    as (q & Hq & Hid).
  - rewrite Hk. exact Hclaim.
  - exists q. split; [exact Hq | congruence].
Qed.

(** X10. A track in cooldown with a zero counter that is kept alive through
    [CROSSING_COOLDOWN - 1] = 14 further frames, whatever else they detect,
    is, after these, in the registry and still in cooldown, with counter 14
    and the same direction; and, unless the cleanup of the frame after these
    deletes it, the cooldown pass of that frame takes it out of cooldown,
    with no direction and a zero counter, before the association: from that
    frame on the track can be counted again. *)
Theorem cooldown_ends_at_fifteenth_frame (p : TrackedPerson)
    (frames : list (list Detection * R)) (predictions : list Detection)
    (w : World) :
  NoDup (keys (trackedPeople w)) -> In p (trackedPeople w) ->
  notRedrawn random (id p) (randomDraws w) ->
  crossed p = true -> framesSinceCrossing p = 0%nat ->
  S (List.length frames) = CROSSING_COOLDOWN ->
  keptAlive clock random (id p) frames w ->
  let w14 := fst (run clock random frames w) in
  (exists q, In q (trackedPeople w14) /\ id q = id p
             /\ crossed q = true /\ framesSinceCrossing q = 14%nat
             /\ direction q = direction p
             /\ ((clock (S (clockReads w14)) - lastSeen q <= TRACKING_TIMEOUT)%Z ->
                 exists q',
                   In q' (trackedPeople (beforeAssociation clock predictions w14))
                   /\ id q' = id p /\ crossed q' = false
                   /\ direction q' = None /\ framesSinceCrossing q' = 0%nat))
  /\ coolingAt (id p) 14 (direction p) (trackedPeople w14)
  /\ forall q, In q (trackedPeople (beforeAssociation clock predictions w14)) ->
               id q = id p ->
               crossed q = false /\ direction q = None
               /\ framesSinceCrossing q = 0%nat.
Proof.
  intros Hnd Hp Hnr Hcr Hf Hlen Hkept; cbv zeta.
  assert (H14 : List.length frames = 14%nat)
    by (unfold CROSSING_COOLDOWN in Hlen; lia).
  pose proof (coolingAt_of_track (trackedPeople w) p Hnd Hp Hcr) as Hcool.
  rewrite Hf in Hcool.
  destruct (run_cooling_state (id p) (direction p) frames 0 w Hnr Hcool)
    as [Hc _].
  { unfold CROSSING_COOLDOWN. lia. }
  rewrite H14 in Hc. simpl in Hc.
  destruct (run_present (id p) frames w Hnd) as (_ & q & Hq & Hid);
    [eauto | exact Hkept |].
  assert (Hrel : forall q0,
             In q0 (trackedPeople (beforeAssociation clock predictions
                                     (fst (run clock random frames w)))) ->
             id q0 = id p ->
             crossed q0 = false /\ direction q0 = None
             /\ framesSinceCrossing q0 = 0%nat).
  { intros q0 Hq0 Hid0.
    apply beforeAssociation_In in Hq0 as (p0 & Hp0 & -> & _).
    rewrite cooldownTick_id in Hid0.
    destruct (Hc p0 Hp0 Hid0) as (Hcr0 & Hf0 & _).
    rewrite cooldownTick_expired
      by (rewrite ?Hf0; unfold CROSSING_COOLDOWN; auto).
    simpl. auto. }
  split; [| split; [exact Hc | exact Hrel]].
  exists q. destruct (Hc q Hq Hid) as (Hcq & Hfq & Hdq).
  repeat (split; [assumption |]).
  intros Hfresh. exists (cooldownTick q).
  assert (Hin : In (cooldownTick q)
                   (trackedPeople (beforeAssociation clock predictions
                                     (fst (run clock random frames w))))).
  { apply beforeAssociation_keeps; [exact Hq |].
    unfold isStale. rewrite Z.gtb_ltb. apply Z.ltb_ge. lia. }
  split; [exact Hin |]. rewrite cooldownTick_id. split; [exact Hid |].
  apply Hrel; [exact Hin | now rewrite cooldownTick_id].
Qed.

End CooldownEnd.

Lemma clockTick_steps (i j : nat) :
  (i <= j <= i + 2)%nat -> (clockTick j - clockTick i <= TRACKING_TIMEOUT)%Z.
Proof. unfold clockTick, TRACKING_TIMEOUT. lia. Qed.

Lemma random0_notRedrawn : notRedrawn random0 (id walker) 0.
Proof. intros j _. unfold random0. simpl. discriminate. Qed.

(** The walker, counted at (100, 120), stands there and is detected in each
    of the next fourteen frames, 300 ms apart. *)
Lemma cooldown_ends_at_fifteenth_frame_witness :
  let w14 := fst (run clockTick random0 (repeat ([seenBelow], 200) 14)
                      (mkWorld [walkerCounted] 3 0)) in
  exists q, In q (trackedPeople w14) /\ id q = id walker
            /\ crossed q = true /\ framesSinceCrossing q = 14%nat
            /\ direction q = Some dir_in.
Proof.
  cbv zeta.
  destruct (cooldown_ends_at_fifteenth_frame clockTick random0 walkerCounted
              (repeat ([seenBelow], 200) 14) [seenBelow]
              (mkWorld [walkerCounted] 3 0))
    as ((q & Hq & Hid & Hcr & Hf & Hd & _) & _).
  - simpl. constructor; [easy | constructor].
  - now left.
  - exact random0_notRedrawn.
  - reflexivity.
  - reflexivity.
  - reflexivity.
  - apply stationary_keptAlive.
    + apply isPerson_person. lra.
    + simpl. lra.
    + simpl. lra.
    + exact clockTick_steps.
    + reflexivity.
    + reflexivity.
    + unfold detCenterX. simpl. lra.
    + unfold detCenterY. simpl. lra.
    + unfold clockTick, TRACKING_TIMEOUT. simpl. lia.
  - exists q. auto.
Defined.

(** ** The centre of a track *)

Lemma cooldownTick_centred (p : TrackedPerson) :
  centred p -> centred (cooldownTick p).
Proof.
  unfold cooldownTick. destruct (crossed p); [| easy].
  destruct (CROSSING_COOLDOWN <=? _)%nat; easy.
Qed.

Lemma checkCrossing_centred (lineY pcx : R) (p : TrackedPerson) :
  centred p -> centred (fst (checkCrossing lineY pcx p)).
Proof.
  intros Hp. destruct (snd (checkCrossing lineY pcx p)) as [d |] eqn:Hev.
  - apply checkCrossing_Some in Hev as [_ ->]. exact Hp.
  - apply checkCrossing_None in Hev. now rewrite Hev.
Qed.

Section Centre.

Variable clock : nat -> Z.
Variable random : nat -> string.

Lemma processDetection_centred (lineY : R) (st : FrameState) (d : Detection) :
  Forall centred (trackedPeople (fs_world st)) ->
  Forall centred
    (trackedPeople (fs_world (processDetection clock random lineY st d))).
Proof.
  intros Hall.
  destruct (processDetection_cases clock random lineY st d)
    as [(p & _ & _ & _ & Hst) | [(p & _ & _ & Hst) | (_ & Hst)]];
    cbv zeta in Hst; rewrite Hst; simpl; auto.
  - apply Forall_map_set; [exact Hall |].
    apply checkCrossing_centred. split; reflexivity.
  - apply Forall_map_set; [exact Hall |]. split; reflexivity.
Qed.

Lemma frame_centred (predictions : list Detection) (frameHeight : R) (w : World) :
  Forall centred (trackedPeople w) ->
  Forall centred
    (trackedPeople (snd (fst (detectPeopleWithCrossing clock random predictions
                                                       frameHeight w)))).
Proof.
  intros Hall. rewrite frame_world.
  assert (Hst : Forall centred
                  (trackedPeople
                     (fs_world (frameState clock random predictions
                                           frameHeight w)))).
  { unfold frameState, associate.
    apply (fold_left_inv (processDetection clock random _)
             (fun st => Forall centred (trackedPeople (fs_world st)))).
    - intros st d. apply processDetection_centred.
    - simpl. apply Forall_forall. intros q Hq.
      apply in_map_iff in Hq as (p & <- & Hp). apply filter_In in Hp as [Hp _].
      apply cooldownTick_centred. rewrite Forall_forall in Hall. auto. }
  apply Forall_forall. intros q Hq. apply removeUnmatched_In in Hq as [Hq _].
  rewrite Forall_forall in Hst. auto.
Qed.

(** X11. Every frame keeps the stored centre of each track at the centre of
    its stored box, so that the distance and the overlap that
    [findClosestPerson] scores are taken from the same position; this holds
    after any run of frames that starts from such a registry, the empty one
    in particular. *)
Theorem tracks_stay_centred (frames : list (list Detection * R)) (w : World) :
  Forall centred (trackedPeople w) ->
  Forall centred (trackedPeople (fst (run clock random frames w))).
Proof.
  revert w. induction frames as [| [predictions frameHeight] rest IH];
    intros w Hall; [exact Hall |].
  rewrite run_cons. cbn [fst]. apply IH. now apply frame_centred.
Qed.

End Centre.

Lemma tracks_stay_centred_witness :
  Forall centred
    (trackedPeople (fst (run clock0 random0 [([seenBelow], 200); ([], 200)]
                             world1))).
Proof.
  apply (tracks_stay_centred clock0 random0 [([seenBelow], 200); ([], 200)] world1).
  constructor; [| constructor]. unfold centred; simpl. lra.
Defined.

(** ** Symmetry of the crossing evaluation *)

Lemma Rlt_b_mirror (lineY y : R) : Rlt_b (2 * lineY - y) lineY = Rgt_b y lineY.
Proof.
  unfold Rgt_b.
  destruct (Rlt_b (2 * lineY - y) lineY) eqn:H1; destruct (Rlt_b lineY y) eqn:H2;
    try reflexivity;
    [apply Rlt_b_true in H1; apply Rlt_b_false in H2
    | apply Rlt_b_false in H1; apply Rlt_b_true in H2]; lra.
Qed.

Lemma Rgt_b_mirror (lineY y : R) : Rgt_b (2 * lineY - y) lineY = Rlt_b y lineY.
Proof.
  unfold Rgt_b.
  destruct (Rlt_b lineY (2 * lineY - y)) eqn:H1; destruct (Rlt_b y lineY) eqn:H2;
    try reflexivity;
    [apply Rlt_b_true in H1; apply Rlt_b_false in H2
    | apply Rlt_b_false in H1; apply Rlt_b_true in H2]; lra.
Qed.

(** X12. The evaluation of a crossing is symmetric about the line: the track
    reflected in the line is counted exactly when the track is, in the
    opposite direction.  A centre that is on the line is on neither side: a
    track whose centre was or is exactly on the line is not counted. *)
Theorem checkCrossing_is_symmetric_about_the_line
    (lineY previousCenterX : R) (person : TrackedPerson) :
  snd (checkCrossing lineY previousCenterX (mirrored lineY person))
  = option_map opposite (snd (checkCrossing lineY previousCenterX person))
  /\ (previousY person = lineY \/ centerY person = lineY ->
      checkCrossing lineY previousCenterX person = (person, None)).
Proof.
  split.
  - unfold checkCrossing.
    cbn [mirrored crossed centerY previousY centerX].
    rewrite Rlt_b_mirror, Rgt_b_mirror, Rlt_b_mirror, Rgt_b_mirror.
    replace (2 * lineY - centerY person - (2 * lineY - previousY person))
      with (- (centerY person - previousY person)) by ring.
    rewrite Rabs_Ropp.
    destruct (crossed person); simpl; [reflexivity |].
    destruct (Rgt_b (Rabs (centerY person - previousY person))
                MIN_DISTANCE_FOR_CROSSING
              && Rgt_b (Rabs (centerY person - previousY person))
                   (Rabs (centerX person - previousCenterX) * 0.1));
      [| reflexivity].
    destruct (Rgt_b (previousY person) lineY) eqn:Hp;
      destruct (Rlt_b (previousY person) lineY) eqn:Hp';
      destruct (Rlt_b (centerY person) lineY) eqn:Hc;
      destruct (Rgt_b (centerY person) lineY) eqn:Hc'; simpl; try reflexivity;
      exfalso;
      repeat match goal with
             | H : Rgt_b _ _ = true |- _ => apply Rgt_b_true in H
             | H : Rgt_b _ _ = false |- _ => apply Rgt_b_false in H
             | H : Rlt_b _ _ = true |- _ => apply Rlt_b_true in H
             | H : Rlt_b _ _ = false |- _ => apply Rlt_b_false in H
             end; lra.
  - intros Hon. unfold checkCrossing.
    destruct (crossed person); simpl; [reflexivity |].
    assert (Hd : Rlt_b (previousY person) lineY
                 && Rgt_b (centerY person) lineY = false).
    { destruct Hon as [-> | ->].
      - rewrite (proj2 (Rlt_b_false lineY lineY)) by lra. reflexivity.
      - rewrite (proj2 (Rgt_b_false lineY lineY)) by lra. apply andb_false_r. }
    assert (Hu : Rgt_b (previousY person) lineY
                 && Rlt_b (centerY person) lineY = false).
    { destruct Hon as [-> | ->].
      - rewrite (proj2 (Rgt_b_false lineY lineY)) by lra. reflexivity.
      - rewrite (proj2 (Rlt_b_false lineY lineY)) by lra. apply andb_false_r. }
    rewrite Hd, Hu. clear Hd Hu.
    destruct (Rgt_b _ MIN_DISTANCE_FOR_CROSSING && _); reflexivity.
Qed.

(** ** A scene that moves slowly *)

Lemma cooldownTick_centerY (p : TrackedPerson) :
  centerY (cooldownTick p) = centerY p.
Proof.
  unfold cooldownTick. destruct (crossed p); [| reflexivity].
  destruct (CROSSING_COOLDOWN <=? _)%nat; reflexivity.
Qed.

Section SlowScene.

Variable clock : nat -> Z.
Variable random : nat -> string.

(** X13. A frame counts nothing when the centres of all the tracks and of all
    the people detected lie, vertically, within a band of
    [MIN_DISTANCE_FOR_CROSSING] = 5 pixels, wherever the line is: people who
    drift across the line by no more than 5 pixels from one sighting to the
    next are not counted.  The tracks are still in the band afterwards. *)
Theorem slow_scene_counts_nothing (predictions : list Detection)
    (frameHeight : R) (w : World) (y : R) :
  (forall p, In p (trackedPeople w) ->
             y <= centerY p <= y + MIN_DISTANCE_FOR_CROSSING) ->
  (forall d, In d predictions -> isPerson d = true ->
             y <= detCenterY d <= y + MIN_DISTANCE_FOR_CROSSING) ->
  let r := detectPeopleWithCrossing clock random predictions frameHeight w in
  snd r = []
  /\ out_countIn (fst (fst r)) = 0%nat /\ out_countOut (fst (fst r)) = 0%nat
  /\ forall q, In q (trackedPeople (snd (fst r))) ->
               y <= centerY q <= y + MIN_DISTANCE_FOR_CROSSING.
Proof.
  intros Htracks Hdets; cbv zeta.
  assert (Hst : let st := frameState clock random predictions frameHeight w in
                (forall q, In q (trackedPeople (fs_world st)) ->
                           y <= centerY q <= y + MIN_DISTANCE_FOR_CROSSING)
                /\ fs_events st = []).
  { cbv zeta. unfold frameState, associate.
    apply (fold_left_inv_In (processDetection clock random _)
             (fun st => (forall q, In q (trackedPeople (fs_world st)) ->
                                   y <= centerY q <= y + MIN_DISTANCE_FOR_CROSSING)
                        /\ fs_events st = [])).
    - intros st d Hd (Hband & Hev).
      assert (Hdy : y <= detCenterY d <= y + MIN_DISTANCE_FOR_CROSSING).
      { apply (Permutation_in _ (Permutation_sym (sortByScore_perm _))) in Hd.
        simpl in Hd. apply filter_In in Hd as [Hd Hp]. now apply Hdets. }
      destruct (processDetection_cases clock random
                  (frameHeight * CROSSING_LINE_POSITION) st d)
        as [(p & _ & Hin & _ & Hst) | [(p & _ & _ & Hst) | (_ & Hst)]];
        cbv zeta in Hst; rewrite Hst; [| auto |].
      + set (moved := moveTo p _ _ _ _).
        assert (Hc : checkCrossing (frameHeight * CROSSING_LINE_POSITION)
                       (centerX p) moved = (moved, None)).
        { unfold checkCrossing. destruct (crossed moved); simpl; [reflexivity |].
          assert (Hv : Rabs (detCenterY d - centerY p)
                       <= MIN_DISTANCE_FOR_CROSSING).
          { specialize (Hband p Hin). apply Rabs_le. lra. }
          rewrite (proj2 (Rgt_b_false _ _) Hv). reflexivity. }
        rewrite Hc. simpl. split; [| exact Hev].
        intros q Hq. destruct (In_map_set _ _ _ Hq) as [-> | Hq']; auto.
      + simpl. split; [| exact Hev].
        intros q Hq. destruct (In_map_set _ _ _ Hq) as [-> | Hq']; auto.
    - simpl. split; [| reflexivity].
      intros q Hq. apply in_map_iff in Hq as (p & <- & Hp).
      apply filter_In in Hp as [Hp _]. rewrite cooldownTick_centerY. auto. }
  cbv zeta in Hst. destruct Hst as [Hband Hev].
  destruct (frameState_assocInv clock random predictions frameHeight w)
    as [_ _ _ _ _ _ _ A5 A6].
  rewrite frame_events, frame_world.
  change (out_countIn (fst (fst (detectPeopleWithCrossing clock random
                                   predictions frameHeight w))))
    with (countIn (frameState clock random predictions frameHeight w)).
  change (out_countOut (fst (fst (detectPeopleWithCrossing clock random
                                    predictions frameHeight w))))
    with (countOut (frameState clock random predictions frameHeight w)).
  rewrite A5, A6, Hev. simpl.
  repeat split; auto; apply removeUnmatched_In in H as [Hq _];
    now apply Hband.
Qed.

End SlowScene.

(** The loiterer, at y = 98, is detected at y = 102, across the line at
    y = 100. *)
Lemma slow_scene_counts_nothing_witness :
  let r := detectPeopleWithCrossing clock0 random0 [nudged] 200
             (mkWorld [loiterer] 0 0) in
  snd r = []
  /\ out_countIn (fst (fst r)) = 0%nat /\ out_countOut (fst (fst r)) = 0%nat
  /\ forall q, In q (trackedPeople (snd (fst r))) ->
               98 <= centerY q <= 98 + MIN_DISTANCE_FOR_CROSSING.
Proof.
  apply (slow_scene_counts_nothing clock0 random0 [nudged] 200
           (mkWorld [loiterer] 0 0) 98).
  - intros p [<- | []]. unfold MIN_DISTANCE_FOR_CROSSING. simpl. lra.
  - intros d [<- | []] _. unfold MIN_DISTANCE_FOR_CROSSING, detCenterY. simpl. lra.
Defined.

(** * Properties of the errors and the live feed *)

(** ** Errors of the backend *)

Lemma toLowerAscii_idem (c : Ascii.ascii) :
  toLowerAscii (toLowerAscii c) = toLowerAscii c.
Proof.
  destruct c as [[] [] [] [] [] [] [] []]; reflexivity.
Qed.

Lemma toLowerCase_idem (s : string) : toLowerCase (toLowerCase s) = toLowerCase s.
Proof.
  induction s as [| c rest IH]; simpl; [reflexivity |].
  now rewrite toLowerAscii_idem, IH.
Qed.

(** X15. Every error that [isTableError] of the live feed accepts,
    [isInvalidKeyError] of the client accepts too, and both read the message
    without regard to the case of its letters: the error with the message in
    lower case is judged the same. *)
Theorem table_errors_are_invalid_key_errors (e : ErrorObj) :
  let lowered :=
    mkErrorObj (option_map toLowerCase (err_message e)) (err_code e)
      (err_status e) in
  (isTableError (Some e) = true -> isInvalidKeyError (Some e) = true)
  /\ isTableError (Some lowered) = isTableError (Some e)
  /\ isInvalidKeyError (Some lowered) = isInvalidKeyError (Some e).
Proof.
  cbv zeta. split.
  - simpl. intros H.
    repeat (apply orb_true_iff in H; destruct H as [H | H]);
      rewrite H; repeat rewrite ?orb_true_r, ?orb_true_l; reflexivity.
  - assert (Hm : lowerMessage
                   (mkErrorObj (option_map toLowerCase (err_message e))
                      (err_code e) (err_status e))
                 = lowerMessage e).
    { unfold lowerMessage. simpl. destruct (err_message e); simpl;
        [apply toLowerCase_idem | reflexivity]. }
    unfold isTableError, isInvalidKeyError. rewrite Hm. split; reflexivity.
Qed.

(** ** The counters of the live feed *)

Lemma applyResult_refs (result : FrameOutput) (s : Feed) :
  let cIn := Z.of_nat (out_countIn result) in
  let cOut := Z.of_nat (out_countOut result) in
  countInRef (applyResult result s) = (countInRef s + cIn)%Z
  /\ countOutRef (applyResult result s) = (countOutRef s + cOut)%Z
  /\ ((0 <= totalCountRef s)%Z ->
      totalCountRef (applyResult result s)
      = Z.max 0 (totalCountRef s + cIn - cOut))
  /\ tracking (applyResult result s) = tracking s.
Proof.
  cbv zeta. unfold applyResult.
  destruct (Z.of_nat (out_countIn result) >? 0)%Z eqn:Hi;
    destruct (Z.of_nat (out_countOut result) >? 0)%Z eqn:Ho; simpl;
    rewrite ?Z.gtb_ltb, ?Z.ltb_lt, ?Z.ltb_ge in Hi, Ho;
    repeat split; try lia; intros; try f_equal; lia.
Qed.

Section FeedCounters.

Variable clock : nat -> Z.
Variable random : nat -> string.

(** A call of [runDetection] that passes the two checks. *)
Lemma runDetection_processed (env : Env) (s : Feed) (v : VideoElement) :
  pickVideo env = Some v ->
  videoHeight v <> 0 -> videoWidth v <> 0 ->
  fromFile (videoSource env) && paused v = false ->
  let r := detectPeopleWithCrossing clock random (currentPredictions v)
             (videoHeight v) (tracking s) in
  let result := fst (fst r) in
  let s1 := applyResult result s in
  fst (runDetection clock random env s)
  = mkFeed (countInRef s1) (countOutRef s1) (totalCountRef s1)
      (countInRef s1) (countOutRef s1) (totalCountRef s1) (snd (fst r))
  /\ snd (runDetection clock random env s)
     = ((match canvasRef env with
         | Some canvas =>
             [eff_draw (drawDetections
                          (mkCanvas (videoWidth v) (videoHeight v)
                             (canvas_context canvas))
                          (out_detections result) true)]
         | None => []
         end)
        ++ (if ((Z.of_nat (out_countIn result) >? 0)%Z
                || (Z.of_nat (out_countOut result) >? 0)%Z)
               && truthy (selectedCamera env)
            then [eff_logCount (countInRef s1) (countOutRef s1)
                    (totalCountRef s1)]
            else []))%list.
Proof.
  intros Hv Hh Hw Hp; cbv zeta. unfold runDetection. rewrite Hv.
  unfold isZero.
  destruct (Req_dec_T (videoHeight v) 0); [contradiction |].
  destruct (Req_dec_T (videoWidth v) 0); [contradiction |].
  cbn [orb]. rewrite Hp.
  destruct (detectPeopleWithCrossing clock random (currentPredictions v)
              (videoHeight v) (tracking s)) as [[result w'] evs].
  split; reflexivity.
Qed.

(** A call of [runDetection] either returns early, or processes the frame of
    a video element of non-zero dimensions. *)
Lemma runDetection_cases (env : Env) (s : Feed) :
  (fst (runDetection clock random env s) = s
   /\ (snd (runDetection clock random env s) = []
       \/ snd (runDetection clock random env s) = [eff_play]))
  \/ exists v,
       pickVideo env = Some v
       /\ videoHeight v <> 0 /\ videoWidth v <> 0
       /\ fromFile (videoSource env) && paused v = false.
Proof.
  unfold runDetection.
  destruct (pickVideo env) as [v |]; [| left; auto].
  unfold isZero.
  destruct (Req_dec_T (videoHeight v) 0) as [Hh | Hh]; [left; auto |].
  destruct (Req_dec_T (videoWidth v) 0) as [Hw | Hw]; [left; auto |].
  cbn [orb].
  destruct (fromFile (videoSource env) && paused v) eqn:Hp; [left; auto |].
  right. exists v. auto.
Qed.

Lemma runDetection_countersOk (env : Env) (s : Feed) :
  countersOk s -> countersOk (fst (runDetection clock random env s)).
Proof.
  intros Hs.
  destruct (runDetection_cases env s) as [[-> _] | (v & Hv & Hh & Hw & Hp)];
    [exact Hs |].
  destruct (runDetection_processed env s v Hv Hh Hw Hp) as [-> _].
  destruct Hs as (Ho & Ht & Hd & _).
  match goal with |- context [applyResult ?r s] =>
    destruct (applyResult_refs r s) as (Hi' & Ho' & Ht' & _) end.
  cbv zeta in *. specialize (Ht' (proj1 Ht)).
  unfold countersOk;
    cbn [countInRef countOutRef totalCountRef countInShown countOutShown
         totalCountShown].
  rewrite Hi', Ho', Ht'. lia.
Qed.

(** X16. From a reset on, whatever the calls of [runDetection] find, the
    counts shown are the refs, the total is not negative and not above the
    number of entries, and it is not below entries minus exits. *)
Theorem feed_counters_invariant (envs : list Env) (canvas : option Canvas)
    (s0 : Feed) :
  let s := runFeed clock random envs (fst (resetCount canvas s0)) in
  (0 <= countOutRef s)%Z
  /\ (0 <= totalCountRef s <= countInRef s)%Z
  /\ (countInRef s - countOutRef s <= totalCountRef s)%Z
  /\ countInShown s = countInRef s
  /\ countOutShown s = countOutRef s
  /\ totalCountShown s = totalCountRef s.
Proof.
  cbv zeta. unfold runFeed.
  apply (fold_left_inv (fun s' env => fst (runDetection clock random env s'))
           countersOk).
  - intros s env. apply runDetection_countersOk.
  - unfold countersOk; simpl. lia.
Qed.

Lemma runDetection_drift (env : Env) (s : Feed) :
  (0 <= totalCountRef s)%Z ->
  let s' := fst (runDetection clock random env s) in
  (0 <= totalCountRef s')%Z
  /\ (totalCountRef s - (countInRef s - countOutRef s)
      <= totalCountRef s' - (countInRef s' - countOutRef s'))%Z.
Proof.
  intros Ht; cbv zeta.
  destruct (runDetection_cases env s) as [[-> _] | (v & Hv & Hh & Hw & Hp)];
    [lia |].
  destruct (runDetection_processed env s v Hv Hh Hw Hp) as [-> _].
  match goal with |- context [applyResult ?r s] =>
    destruct (applyResult_refs r s) as (Hi' & Ho' & Ht' & _) end.
  cbv zeta in *. specialize (Ht' Ht).
  cbn [countInRef countOutRef totalCountRef]. rewrite Hi', Ho', Ht'. lia.
Qed.

(** X17. The total is clamped at zero when more exits are counted than the
    total holds, and what is clamped is never made up for: the excess of the
    total over entries minus exits does not decrease, whatever is processed
    afterwards. *)
Theorem total_never_recovers_from_clamping (envs : list Env) (s : Feed) :
  (0 <= totalCountRef s)%Z ->
  let s' := runFeed clock random envs s in
  (0 <= totalCountRef s')%Z
  /\ (totalCountRef s - (countInRef s - countOutRef s)
      <= totalCountRef s' - (countInRef s' - countOutRef s'))%Z.
Proof.
  cbv zeta. unfold runFeed. revert s.
  induction envs as [| env rest IH]; intros s Ht; simpl; [lia |].
  destruct (runDetection_drift env s Ht) as [Ht' Hd]. cbv zeta in *.
  destruct (IH _ Ht') as [Ht'' Hd']. lia.
Qed.

End FeedCounters.

Section FeedTick.

Variable clock : nat -> Z.
Variable random : nat -> string.

Lemma frame_counts_events (predictions : list Detection) (frameHeight : R)
    (w : World) :
  let r := detectPeopleWithCrossing clock random predictions frameHeight w in
  out_countIn (fst (fst r)) = List.length (filter isEntering (snd r))
  /\ out_countOut (fst (fst r)) = List.length (filter isExiting (snd r)).
Proof.
  cbv zeta. rewrite frame_events.
  destruct (frameState_assocInv clock random predictions frameHeight w)
    as [_ _ _ _ _ _ _ A5 A6].
  split; [exact A5 | exact A6].
Qed.

(** X18. A call of [runDetection] that finds a video element of non-zero
    dimensions, not a paused file or stream, processes its frame: the
    tracking state is the one the frame leaves; the entries and exits counted
    in the frame, one for each of its events, are added to the refs; the total
    becomes [max(0, total + entries - exits)]; [logCount] is requested, with
    the counts so updated, exactly when the frame counted something and a
    camera is selected; and on a canvas with a context the line is drawn at
    [CROSSING_LINE_POSITION] of the frame height, where the frame was counted
    at.  A webcam is processed whether it is paused or not. *)
Theorem processed_tick_updates_the_refs (env : Env) (s : Feed) (v : VideoElement) :
  pickVideo env = Some v ->
  videoHeight v <> 0 -> videoWidth v <> 0 ->
  videoSource env = webcam \/ paused v = false ->
  (0 <= totalCountRef s)%Z ->
  let r := detectPeopleWithCrossing clock random (currentPredictions v)
             (videoHeight v) (tracking s) in
  let entries := Z.of_nat (List.length (filter isEntering (snd r))) in
  let exits := Z.of_nat (List.length (filter isExiting (snd r))) in
  let s' := fst (runDetection clock random env s) in
  let effects := snd (runDetection clock random env s) in
  tracking s' = snd (fst r)
  /\ countInRef s' = (countInRef s + entries)%Z
  /\ countOutRef s' = (countOutRef s + exits)%Z
  /\ totalCountRef s' = Z.max 0 (totalCountRef s + entries - exits)
  /\ (forall a b c,
         In (eff_logCount a b c) effects <->
         snd r <> [] /\ truthy (selectedCamera env) = true
         /\ a = countInRef s' /\ b = countOutRef s' /\ c = totalCountRef s')
  /\ (forall canvas,
         canvasRef env = Some canvas -> canvas_context canvas = true ->
         exists ops,
           In (eff_draw ops) effects
           /\ In (op_moveTo 0 (videoHeight v * CROSSING_LINE_POSITION)) ops
           /\ In (op_lineTo (videoWidth v)
                    (videoHeight v * CROSSING_LINE_POSITION)) ops).
Proof.
  intros Hv Hh Hw Hp Ht; cbv zeta.
  assert (Hf : fromFile (videoSource env) && paused v = false).
  { destruct Hp as [-> | ->]; [reflexivity | apply andb_false_r]. }
  pose proof (runDetection_processed clock random env s v Hv Hh Hw Hf) as Hr.
  cbv zeta in Hr. destruct Hr as [Hs' He]. rewrite Hs', He. clear Hs' He.
  destruct (frame_counts_events (currentPredictions v) (videoHeight v) (tracking s))
    as [Hci Hco].
  cbv zeta in Hci, Hco.
  set (r := detectPeopleWithCrossing clock random (currentPredictions v)
              (videoHeight v) (tracking s)) in *.
  destruct (applyResult_refs (fst (fst r)) s) as (Hi' & Ho' & Ht' & _).
  cbv zeta in *. specialize (Ht' Ht).
  cbn [countInRef countOutRef totalCountRef tracking].
  rewrite Hi', Ho', Ht', Hci, Hco.
  split; [reflexivity |]. split; [reflexivity |]. split; [reflexivity |].
  split; [reflexivity |].
  pose proof (events_split_length (snd r)) as Hsplit.
  assert (Hany : ((Z.of_nat (List.length (filter isEntering (snd r))) >? 0)%Z
                  || (Z.of_nat (List.length (filter isExiting (snd r))) >? 0)%Z)
                 = true <-> snd r <> []).
  { rewrite orb_true_iff, !Z.gtb_ltb, !Z.ltb_lt.
    destruct (snd r) as [| e rest]; simpl.
    - split; [lia | easy].
    - split; [easy |]. intros _. unfold isEntering at 1, isExiting at 1.
      destruct (ev_dir e); simpl; lia. }
  split.
  - intros a b c. rewrite in_app_iff. split.
    + intros [Hin | Hin].
      * destruct (canvasRef env); simpl in Hin; [| easy].
        destruct Hin as [Hin | []]. discriminate.
      * destruct (_ && truthy _) eqn:Hc; simpl in Hin; [| easy].
        destruct Hin as [Hin | []]. injection Hin as <- <- <-.
        apply andb_true_iff in Hc as [Hc1 Hc2]. apply Hany in Hc1. auto.
    + intros (Hne & Hcam & -> & -> & ->). right.
      rewrite (proj2 Hany Hne), Hcam. simpl. now left.
  - intros canvas Hc Hctx. rewrite Hc. eexists. split.
    + apply in_app_iff. left. now left.
    + unfold drawDetections. cbn [canvas_context canvas_width canvas_height].
      rewrite Hctx. simpl. auto 40.
Qed.

(** X19. A call of [runDetection] that finds no video element, or one with a
    zero height or width, or a file or stream that is paused, changes nothing:
    the refs, the counts shown and the tracking state are as before, so that
    no cooldown advances, and nothing is drawn or logged; the only effect is
    the request to play a paused file or stream. *)
Theorem skipped_tick_changes_nothing (env : Env) (s : Feed) :
  pickVideo env = None
  \/ (exists v, pickVideo env = Some v
                /\ (videoHeight v = 0 \/ videoWidth v = 0
                    \/ (videoSource env <> webcam /\ paused v = true))) ->
  fst (runDetection clock random env s) = s
  /\ forall e, In e (snd (runDetection clock random env s)) -> e = eff_play.
Proof.
  intros Hskip. unfold runDetection.
  destruct Hskip as [-> | (v & -> & Hv)]; [split; [reflexivity | intros e []] |].
  unfold isZero.
  destruct (Req_dec_T (videoHeight v) 0) as [Hh | Hh];
    [split; [reflexivity | intros e []] |].
  destruct (Req_dec_T (videoWidth v) 0) as [Hw | Hw];
    [split; [reflexivity | intros e []] |].
  cbn [orb].
  destruct Hv as [Hv | [Hv | [Hsrc Hp]]]; try contradiction.
  rewrite Hp. destruct (videoSource env); [contradiction | |]; simpl;
    (split; [reflexivity | intros e [<- | []]; reflexivity]).
Qed.

(** X20. After [resetCount] the refs and the counts shown are zero and no
    track is left, and the next call of [runDetection], whatever it finds,
    leaves the refs at zero and requests no log: the first frame after a
    reset only starts tracks. *)
Theorem first_tick_after_reset_counts_nothing (env : Env)
    (canvas : option Canvas) (s0 : Feed) :
  let s := fst (resetCount canvas s0) in
  let s' := fst (runDetection clock random env s) in
  trackedPeople (tracking s) = []
  /\ (countInRef s, countOutRef s, totalCountRef s) = (0, 0, 0)%Z
  /\ (countInShown s, countOutShown s, totalCountShown s) = (0, 0, 0)%Z
  /\ (countInRef s', countOutRef s', totalCountRef s') = (0, 0, 0)%Z
  /\ forall a b c,
       ~ In (eff_logCount a b c) (snd (runDetection clock random env s)).
Proof.
  cbv zeta. split; [reflexivity |]. split; [reflexivity |].
  split; [reflexivity |].
  set (s := fst (resetCount canvas s0)).
  destruct (runDetection_cases clock random env s)
    as [[-> He] | (v & Hv & Hh & Hw & Hp)].
  - split; [reflexivity |]. intros a b c Hin.
    destruct He as [He | He]; rewrite He in Hin; simpl in Hin;
      [easy | destruct Hin as [Hin | []]; discriminate].
  - destruct (runDetection_processed clock random env s v Hv Hh Hw Hp)
      as [-> ->].
    destruct (frame_bounds clock random (currentPredictions v) (videoHeight v)
                (tracking s)) as (_ & _ & _ & Hle & _).
    cbv zeta in Hle. change (trackedPeople (tracking s)) with (@nil TrackedPerson) in Hle.
    simpl List.length in Hle.
    set (result := fst (fst (detectPeopleWithCrossing clock random
                               (currentPredictions v) (videoHeight v)
                               (tracking s)))) in *.
    assert (Hi : out_countIn result = 0%nat) by lia.
    assert (Ho : out_countOut result = 0%nat) by lia.
    unfold applyResult. rewrite Hi, Ho. simpl. split; [reflexivity |].
    intros a b c Hin. apply in_app_iff in Hin as [Hin | []].
    destruct (canvasRef env); simpl in Hin; [| easy].
    destruct Hin as [Hin | []]. discriminate.
Qed.

End FeedTick.

(** ** Logging a count *)

Lemma slice_last_length {A : Type} (n : nat) (l : list A) :
  List.length (slice_last n l) = Nat.min n (List.length l).
Proof. unfold slice_last. rewrite length_skipn. lia. Qed.

Lemma slice_last_suffix {A : Type} (n : nat) (l : list A) :
  exists dropped, l = (dropped ++ slice_last n l)%list
                  /\ List.length dropped = (List.length l - n)%nat.
Proof.
  exists (firstn (List.length l - n) l). unfold slice_last.
  rewrite firstn_skipn. split; [reflexivity |].
  rewrite length_firstn. lia.
Qed.

Lemma slice_last_snoc {A : Type} (n : nat) (l : list A) (x : A) :
  slice_last (S n) (l ++ [x]) = (slice_last n l ++ [x])%list.
Proof.
  unfold slice_last. rewrite length_app. simpl List.length.
  replace (List.length l + 1 - S n)%nat with (List.length l - n)%nat by lia.
  rewrite skipn_app.
  replace (List.length l - n - List.length l)%nat with 0%nat by lia.
  reflexivity.
Qed.

(** When the log is written: the item parses and the storage accepts the new
    value, which is the last 999 logs that were there and this one. *)
Lemma storeLog_Some (countLog : CountLog) (st st' : Stores) :
  storeLog countLog st = Some st' ->
  let existingLogs :=
    match storedLogs st with item_array l => l | _ => [] end in
  storedLogs st' = item_array (slice_last 999 existingLogs ++ [countLog])%list
  /\ accepts st' = accepts st /\ alerts st' = alerts st.
Proof.
  cbv zeta. unfold storeLog.
  destruct (storedLogs st) as [| l |]; try discriminate;
    destruct (accepts st _); try discriminate; intros [= <-]; simpl;
    rewrite ?(slice_last_snoc 999); auto.
Qed.

(** When it is not: the item does not parse to an array, or the storage
    refuses the new value. *)
Lemma storeLog_None (countLog : CountLog) (st : Stores) :
  let existingLogs :=
    match storedLogs st with item_array l => l | _ => [] end in
  storeLog countLog st = None
  <-> storedLogs st = item_malformed
      \/ accepts st (slice_last 1000 (existingLogs ++ [countLog])%list) = false.
Proof.
  cbv zeta. unfold storeLog.
  destruct (storedLogs st) as [| l |]; simpl;
    try destruct (accepts st _); split; auto; try discriminate;
    intros [H | H]; discriminate.
Qed.

Lemma logCount_no_camera (supabase : Client) (selectedCamera : option string)
    (cIn cOut total : Z) (st : Stores) :
  truthy selectedCamera = false ->
  logCount supabase selectedCamera cIn cOut total st = fulfilled st.
Proof.
  unfold truthy, logCount. destruct selectedCamera as [camera |]; [| reflexivity].
  destruct (String.eqb camera ""); [reflexivity | discriminate].
Qed.

Lemma logCount_unfold (supabase : Client) (camera : string)
    (cIn cOut total : Z) (st : Stores) :
  camera <> "" ->
  let countLog := mkCountLog camera cIn cOut total in
  logCount supabase (Some camera) cIn cOut total st
  = match insertCountLog supabase countLog with
    | thrown => catchBlock countLog st
    | resolved _ error =>
        match (match error with
               | Some err =>
                   if isTableError (Some err) then storeLog countLog st
                   else Some st
               | None => storeLog countLog st
               end) with
        | Some st1 => afterInsertion supabase camera countLog total st1
        | None => catchBlock countLog st
        end
    end.
Proof.
  intros Hc; cbv zeta. unfold logCount.
  apply String.eqb_neq in Hc. now rewrite Hc.
Qed.

(** What a block leaves in the item of the logs: what it found, or what
    writing the log once to what it found leaves. *)
Lemma catchBlock_stored (countLog : CountLog) (st : Stores) :
  stateOf (catchBlock countLog st) = st
  \/ storeLog countLog st = Some (stateOf (catchBlock countLog st)).
Proof.
  unfold catchBlock. destruct (storeLog countLog st); simpl; auto.
Qed.

Lemma afterInsertion_stored (supabase : Client) (camera : string)
    (countLog : CountLog) (total : Z) (st1 : Stores) :
  let st' := stateOf (afterInsertion supabase camera countLog total st1) in
  storedLogs st' = storedLogs st1
  \/ exists st2, storeLog countLog st1 = Some st2
                 /\ storedLogs st' = storedLogs st2.
Proof.
  cbv zeta. unfold afterInsertion.
  assert (Hcatch : storedLogs (stateOf (catchBlock countLog st1)) = storedLogs st1
                   \/ exists st2, storeLog countLog st1 = Some st2
                                  /\ storedLogs (stateOf (catchBlock countLog st1))
                                     = storedLogs st2).
  { destruct (catchBlock_stored countLog st1) as [-> | H]; eauto. }
  destruct (selectSettings supabase camera) as [[settings |] e |]; auto.
  destruct (alert_enabled settings && _); auto.
  destruct (insertAlert supabase _); auto.
Qed.

(** X21. [logCount] leaves the local storage as it was, or leaves in it at
    most 1000 logs that end with the log of this call: the logs that were
    there but for the oldest, then this log, once or twice. *)
Theorem logCount_keeps_the_last_thousand (supabase : Client)
    (selectedCamera : option string) (cIn cOut total : Z) (st : Stores) :
  let st' := stateOf (logCount supabase selectedCamera cIn cOut total st) in
  let existingLogs :=
    match storedLogs st with item_array l => l | _ => [] end in
  storedLogs st' = storedLogs st
  \/ exists camera kept logs,
       selectedCamera = Some camera
       /\ storedLogs st' = item_array logs
       /\ (List.length logs <= 1000)%nat
       /\ (exists dropped, existingLogs = dropped ++ kept)%list
       /\ (logs = kept ++ [mkCountLog camera cIn cOut total]
           \/ logs = kept ++ [mkCountLog camera cIn cOut total;
                              mkCountLog camera cIn cOut total])%list.
Proof.
  cbv zeta.
  destruct (truthy selectedCamera) eqn:Hsel;
    [| left; now rewrite logCount_no_camera].
  destruct selectedCamera as [camera |]; [| discriminate].
  assert (Hne : camera <> "").
  { simpl in Hsel. apply negb_true_iff in Hsel. now apply String.eqb_neq. }
  set (x := mkCountLog camera cIn cOut total).
  set (old := match storedLogs st with item_array l => l | _ => [] end).
  (* the two ways the item can have changed *)
  assert (Honce : forall st1 st', storeLog x st = Some st1 ->
             storedLogs st' = storedLogs st1 ->
             exists camera0 kept logs,
               Some camera = Some camera0
               /\ storedLogs st' = item_array logs
               /\ (List.length logs <= 1000)%nat
               /\ (exists dropped, old = dropped ++ kept)%list
               /\ (logs = kept ++ [mkCountLog camera0 cIn cOut total]
                   \/ logs = kept ++ [mkCountLog camera0 cIn cOut total;
                                      mkCountLog camera0 cIn cOut total])%list).
  { intros st1 st' H1 Heq. apply storeLog_Some in H1 as (Hs & _).
    cbv zeta in Hs. fold old in Hs. rewrite Heq, Hs.
    exists camera, (slice_last 999 old), (slice_last 999 old ++ [x])%list.
    split; [reflexivity |]. split; [reflexivity |]. split.
    - rewrite length_app, slice_last_length. cbn [List.length]. lia.
    - split; [| now left].
      destruct (slice_last_suffix 999 old) as (dropped & Hd & _). eauto. }
  assert (Htwice : forall st1 st2 st', storeLog x st = Some st1 ->
             storeLog x st1 = Some st2 ->
             storedLogs st' = storedLogs st2 ->
             exists camera0 kept logs,
               Some camera = Some camera0
               /\ storedLogs st' = item_array logs
               /\ (List.length logs <= 1000)%nat
               /\ (exists dropped, old = dropped ++ kept)%list
               /\ (logs = kept ++ [mkCountLog camera0 cIn cOut total]
                   \/ logs = kept ++ [mkCountLog camera0 cIn cOut total;
                                      mkCountLog camera0 cIn cOut total])%list).
  { intros st1 st2 st' H1 H2 Heq.
    apply storeLog_Some in H1 as (Hs1 & _).
    apply storeLog_Some in H2 as (Hs2 & _).
    cbv zeta in Hs1, Hs2. fold old in Hs1. rewrite Hs1 in Hs2.
    rewrite Heq, Hs2.
    destruct (Nat.le_gt_cases 999 (List.length old)) as [Hlong | Hshort].
    - assert (Hk : slice_last 999 (slice_last 999 old ++ [x])
                   = (slice_last 998 old ++ [x])%list).
      { rewrite (slice_last_snoc 998). f_equal.
        unfold slice_last. rewrite length_skipn, skipn_skipn. f_equal. lia. }
      rewrite Hk.
      exists camera, (slice_last 998 old), ((slice_last 998 old ++ [x]) ++ [x])%list.
      split; [reflexivity |]. split; [reflexivity |]. split.
      + rewrite !length_app, slice_last_length. cbn [List.length]. lia.
      + split; [| right; now rewrite <- app_assoc].
        destruct (slice_last_suffix 998 old) as (dropped & Hd & _). eauto.
    - assert (Hk : slice_last 999 (slice_last 999 old ++ [x])
                   = (old ++ [x])%list).
      { unfold slice_last. rewrite length_app, length_skipn. simpl List.length.
        replace (List.length old - 999)%nat with 0%nat by lia. simpl.
        replace (List.length old - 0 + 1 - 999)%nat with 0%nat by lia.
        reflexivity. }
      rewrite Hk.
      exists camera, old, ((old ++ [x]) ++ [x])%list.
      split; [reflexivity |]. split; [reflexivity |]. split.
      + rewrite !length_app. cbn [List.length]. lia.
      + split; [exists []; reflexivity | right; now rewrite <- app_assoc]. }
  assert (Hcatch : storedLogs (stateOf (catchBlock x st)) = storedLogs st
                   \/ exists camera0 kept logs,
                        Some camera = Some camera0
                        /\ storedLogs (stateOf (catchBlock x st))
                           = item_array logs
                        /\ (List.length logs <= 1000)%nat
                        /\ (exists dropped, old = dropped ++ kept)%list
                        /\ (logs = kept ++ [mkCountLog camera0 cIn cOut total]
                            \/ logs = kept ++ [mkCountLog camera0 cIn cOut total;
                                               mkCountLog camera0 cIn cOut
                                                 total])%list).
  { destruct (catchBlock_stored x st) as [-> | H]; [now left | right].
    now apply (Honce _ _ H). }
  assert (Hafter0 : let st' := stateOf (afterInsertion supabase camera x total st) in
                    storedLogs st' = storedLogs st
                    \/ exists camera0 kept logs,
                         Some camera = Some camera0
                         /\ storedLogs st' = item_array logs
                         /\ (List.length logs <= 1000)%nat
                         /\ (exists dropped, old = dropped ++ kept)%list
                         /\ (logs = kept ++ [mkCountLog camera0 cIn cOut total]
                             \/ logs = kept ++ [mkCountLog camera0 cIn cOut total;
                                                mkCountLog camera0 cIn cOut
                                                  total])%list).
  { cbv zeta.
    destruct (afterInsertion_stored supabase camera x total st)
      as [H | (st2 & H2 & H)]; cbv zeta in H; [now left | right].
    now apply (Honce _ _ H2). }
  assert (Hafter1 : forall st1, storeLog x st = Some st1 ->
                    let st' := stateOf (afterInsertion supabase camera x total st1) in
                    exists camera0 kept logs,
                      Some camera = Some camera0
                      /\ storedLogs st' = item_array logs
                      /\ (List.length logs <= 1000)%nat
                      /\ (exists dropped, old = dropped ++ kept)%list
                      /\ (logs = kept ++ [mkCountLog camera0 cIn cOut total]
                          \/ logs = kept ++ [mkCountLog camera0 cIn cOut total;
                                             mkCountLog camera0 cIn cOut
                                               total])%list).
  { intros st1 H1; cbv zeta.
    destruct (afterInsertion_stored supabase camera x total st1)
      as [H | (st2 & H2 & H)]; cbv zeta in H.
    - now apply (Honce _ _ H1).
    - now apply (Htwice _ _ _ H1 H2). }
  rewrite logCount_unfold by exact Hne. cbv zeta. fold x.
  destruct (insertCountLog supabase x) as [d [e |] |]; [| | exact Hcatch].
  - destruct (isTableError (Some e)); [| exact Hafter0].
    destruct (storeLog x st) as [st1 |] eqn:H1; [| exact Hcatch].
    right. now apply Hafter1.
  - destruct (storeLog x st) as [st1 |] eqn:H1; [| exact Hcatch].
    right. now apply Hafter1.
Qed.

(** What the requests after the insertion decide. *)
Lemma afterInsertion_by_response (supabase : Client) (camera : string)
    (countLog : CountLog) (total : Z) (st1 : Stores) :
  let laterThrows :=
    selectSettings supabase camera = thrown
    \/ exists settings e,
         selectSettings supabase camera = resolved (Some settings) e
         /\ alert_enabled settings = true
         /\ (total > threshold_limit settings)%Z
         /\ insertAlert supabase (mkAlert camera total (threshold_limit settings))
            = thrown in
  (~ laterThrows ->
   exists st', afterInsertion supabase camera countLog total st1 = fulfilled st'
               /\ storedLogs st' = storedLogs st1)
  /\ (laterThrows ->
      afterInsertion supabase camera countLog total st1
      = catchBlock countLog st1).
Proof.
  cbv zeta. unfold afterInsertion.
  destruct (selectSettings supabase camera) as [[settings |] e |] eqn:Hs.
  - destruct (alert_enabled settings) eqn:Ha; simpl.
    + destruct (total >? threshold_limit settings)%Z eqn:Hgt.
      * apply Z.gtb_lt in Hgt.
        destruct (insertAlert supabase _) as [d' e' |] eqn:Hi.
        -- split; [eauto |].
           intros [Hx | (s' & e'' & Hx & _ & _ & Hthrown)]; [discriminate |].
           injection Hx as <- <-. congruence.
        -- split; [| reflexivity]. intros Hno. exfalso. apply Hno. right.
           exists settings, e. repeat split; auto. lia.
      * split; [eauto |].
        intros [Hx | (s' & e'' & Hx & _ & Hgt' & _)]; [discriminate |].
        injection Hx as <- <-.
        rewrite Z.gtb_ltb in Hgt. apply Z.ltb_ge in Hgt. lia.
    + split; [eauto |].
      intros [Hx | (s' & e'' & Hx & Ha' & _)]; [discriminate |].
      injection Hx as <- <-. congruence.
  - split; [eauto |].
    intros [Hx | (s' & e'' & Hx & _)]; discriminate.
  - split; [| reflexivity]. intros Hno. exfalso. apply Hno. now left.
Qed.

(** X22. What happens to the log depends on how the requests end and on the
    local storage.  Writing the log throws, and writes nothing, exactly when
    the item of the logs does not parse to an array or the storage refuses
    the new value.  With a camera selected:
    - when writing the log throws, nothing is written; the promise is
      rejected, and the settings are not read, unless the insertion was
      rejected with an error that is not a table error and no later request
      throws;
    - otherwise, when the insertion is rejected with an error that is not a
      table error and no later request throws, the log is not written: it is
      kept nowhere; if a later request throws, it is written once;
    - otherwise, when the insertion succeeds or fails with a table error,
      the log is written once; if a later request throws it is written a
      second time, or the promise is rejected when that writing throws;
    - otherwise, when the insertion throws, the log is written once.
    With the client of [createMockClient] the log is written once, or the
    promise is rejected and nothing is written. *)
Theorem logCount_writes_by_response (supabase : Client) (camera : string)
    (cIn cOut total : Z) (st : Stores) :
  camera <> "" ->
  let countLog := mkCountLog camera cIn cOut total in
  let outcome := logCount supabase (Some camera) cIn cOut total st in
  let existingLogs :=
    match storedLogs st with item_array l => l | _ => [] end in
  let laterThrows :=
    selectSettings supabase camera = thrown
    \/ exists settings e,
         selectSettings supabase camera = resolved (Some settings) e
         /\ alert_enabled settings = true
         /\ (total > threshold_limit settings)%Z
         /\ insertAlert supabase (mkAlert camera total (threshold_limit settings))
            = thrown in
  let rejectedUntabled :=
    exists d e, insertCountLog supabase countLog = resolved d (Some e)
                /\ isTableError (Some e) = false in
  (storeLog countLog st = None
   <-> storedLogs st = item_malformed
       \/ accepts st (slice_last 1000 (existingLogs ++ [countLog])%list) = false)
  /\ (storeLog countLog st = None ->
      storedLogs (stateOf outcome) = storedLogs st
      /\ (~ rejectedUntabled \/ laterThrows -> outcome = rejected st)
      /\ (rejectedUntabled -> ~ laterThrows ->
          exists st', outcome = fulfilled st'))
  /\ (forall once, storeLog countLog st = Some once ->
        storedLogs once
        = item_array (slice_last 999 existingLogs ++ [countLog])%list
        /\ (rejectedUntabled ->
            (~ laterThrows ->
             exists st', outcome = fulfilled st'
                         /\ storedLogs st' = storedLogs st)
            /\ (laterThrows -> outcome = fulfilled once))
        /\ (forall d e, insertCountLog supabase countLog = resolved d e ->
                        e = None \/ isTableError e = true ->
                        (~ laterThrows ->
                         exists st', outcome = fulfilled st'
                                     /\ storedLogs st' = storedLogs once)
                        /\ (laterThrows ->
                            forall twice, storeLog countLog once = Some twice ->
                                          outcome = fulfilled twice)
                        /\ (laterThrows -> storeLog countLog once = None ->
                            outcome = rejected once))
        /\ (insertCountLog supabase countLog = thrown ->
            outcome = fulfilled once))
  /\ logCount createMockClient (Some camera) cIn cOut total st
     = match storeLog countLog st with
       | Some once => fulfilled once
       | None => rejected st
       end.
Proof.
  intros Hc; cbv zeta. rewrite !logCount_unfold by exact Hc. cbv zeta.
  set (countLog := mkCountLog camera cIn cOut total).
  pose proof (afterInsertion_by_response supabase camera countLog total) as Hafter.
  cbv zeta in Hafter.
  split; [exact (storeLog_None countLog st) |].
  split; [| split].
  - intros Hnone.
    assert (Hcatch : catchBlock countLog st = rejected st).
    { unfold catchBlock. now rewrite Hnone. }
    split; [| split].
    + destruct (insertCountLog supabase countLog) as [d [e |] |].
      * destruct (isTableError (Some e)); [rewrite Hnone, Hcatch; reflexivity |].
        destruct (afterInsertion_stored supabase camera countLog total st)
          as [H | (st2 & H2 & _)]; [exact H | congruence].
      * rewrite Hnone, Hcatch. reflexivity.
      * rewrite Hcatch. reflexivity.
    + intros Hcase.
      destruct (insertCountLog supabase countLog) as [d [e |] |] eqn:Hi;
        [| now rewrite Hnone | exact Hcatch].
      destruct (isTableError (Some e)) eqn:Ht; [now rewrite Hnone |].
      destruct Hcase as [Hnot | Hlater].
      * exfalso. apply Hnot. eauto.
      * rewrite (proj2 (Hafter st) Hlater). exact Hcatch.
    + intros (d & e & Hi & Ht) Hlater. rewrite Hi, Ht.
      destruct (proj1 (Hafter st) Hlater) as (st' & -> & _). eauto.
  - intros once Honce.
    split; [exact (proj1 (storeLog_Some _ _ _ Honce)) |].
    split; [| split].
    + intros (d & e & Hi & Ht). rewrite Hi, Ht. split.
      * intros Hlater. destruct (proj1 (Hafter st) Hlater) as (st' & -> & Hs).
        eauto.
      * intros Hlater. rewrite (proj2 (Hafter st) Hlater).
        unfold catchBlock. now rewrite Honce.
    + intros d e Hi He. rewrite Hi.
      assert (Hw : match e with
                   | Some err =>
                       if isTableError (Some err) then storeLog countLog st
                       else Some st
                   | None => storeLog countLog st
                   end = Some once).
      { destruct e as [e |]; [| exact Honce].
        destruct He as [He | He]; [discriminate |]. now rewrite He. }
      rewrite Hw. split; [| split].
      * intros Hlater.
        destruct (proj1 (Hafter once) Hlater) as (st' & -> & Hs). eauto.
      * intros Hlater twice Htwice. rewrite (proj2 (Hafter once) Hlater).
        unfold catchBlock. now rewrite Htwice.
      * intros Hlater Htwice. rewrite (proj2 (Hafter once) Hlater).
        unfold catchBlock. now rewrite Htwice.
    + intros Hi. rewrite Hi. unfold catchBlock. now rewrite Honce.
  - simpl. unfold catchBlock.
    destruct (storeLog countLog st); reflexivity.
Qed.

Lemma afterInsertion_alerts (supabase : Client) (camera : string)
    (countLog : CountLog) (total : Z) (st1 : Stores) :
  let st' := stateOf (afterInsertion supabase camera countLog total st1) in
  alerts st' = alerts st1
  \/ exists settings e,
       selectSettings supabase camera = resolved (Some settings) e
       /\ alert_enabled settings = true
       /\ (total > threshold_limit settings)%Z
       /\ alerts st'
          = (alerts st1 ++ [mkAlert camera total (threshold_limit settings)])%list.
Proof.
  cbv zeta. unfold afterInsertion.
  assert (Hcatch : alerts (stateOf (catchBlock countLog st1)) = alerts st1).
  { unfold catchBlock. destruct (storeLog countLog st1) as [st2 |] eqn:H;
      [| reflexivity].
    now apply storeLog_Some in H as (_ & _ & Ha). }
  destruct (selectSettings supabase camera) as [[settings |] e |] eqn:Hs; auto.
  destruct (alert_enabled settings) eqn:Ha; simpl; auto.
  destruct (total >? threshold_limit settings)%Z eqn:Hgt; auto.
  destruct (insertAlert supabase _); auto.
  right. exists settings, e. apply Z.gtb_lt in Hgt. repeat split; auto. lia.
Qed.

(** X23. [logCount] raises at most one alert, never removes one, and raises
    one only for the camera selected, when the settings read for it enable
    alerts and the total is greater than their limit, the alert carrying that
    total and that limit: a total equal to the limit raises none.  When no
    request throws and the log is written without an exception, or is not to
    be written because the insertion was rejected with an error that is not a
    table error, it raises one exactly then.  When the writing of the log
    throws, the settings are not read and no alert is raised. *)
Theorem alert_only_above_the_limit (supabase : Client)
    (selectedCamera : option string) (cIn cOut total : Z) (st : Stores) :
  let st' := stateOf (logCount supabase selectedCamera cIn cOut total st) in
  (alerts st' = alerts st
   \/ exists camera settings e,
        selectedCamera = Some camera
        /\ selectSettings supabase camera = resolved (Some settings) e
        /\ alert_enabled settings = true
        /\ (threshold_limit settings < total)%Z
        /\ alerts st'
           = (alerts st ++ [mkAlert camera total (threshold_limit settings)])%list)
  /\ (forall camera settings d e e' d'' e'',
         selectedCamera = Some camera -> camera <> "" ->
         insertCountLog supabase (mkCountLog camera cIn cOut total)
         = resolved d e ->
         (exists once,
             storeLog (mkCountLog camera cIn cOut total) st = Some once)
         \/ (exists err, e = Some err /\ isTableError (Some err) = false) ->
         selectSettings supabase camera = resolved (Some settings) e' ->
         insertAlert supabase (mkAlert camera total (threshold_limit settings))
         = resolved d'' e'' ->
         alerts st'
         = if alert_enabled settings && (threshold_limit settings <? total)%Z
           then (alerts st
                 ++ [mkAlert camera total (threshold_limit settings)])%list
           else alerts st)
  /\ (forall camera d e,
         selectedCamera = Some camera -> camera <> "" ->
         insertCountLog supabase (mkCountLog camera cIn cOut total)
         = resolved d e ->
         e = None \/ isTableError e = true ->
         storeLog (mkCountLog camera cIn cOut total) st = None ->
         alerts st' = alerts st).
Proof.
  cbv zeta. split; [| split].
  - destruct (truthy selectedCamera) eqn:Hsel;
      [| left; now rewrite logCount_no_camera].
    destruct selectedCamera as [camera |]; [| discriminate].
    assert (Hne : camera <> "").
    { simpl in Hsel. apply negb_true_iff in Hsel. now apply String.eqb_neq. }
    rewrite logCount_unfold by exact Hne. cbv zeta.
    set (countLog := mkCountLog camera cIn cOut total).
    assert (Hafter : forall st1, alerts st1 = alerts st ->
               alerts (stateOf (afterInsertion supabase camera countLog total st1))
               = alerts st
               \/ exists camera0 settings e,
                    Some camera = Some camera0
                    /\ selectSettings supabase camera0 = resolved (Some settings) e
                    /\ alert_enabled settings = true
                    /\ (threshold_limit settings < total)%Z
                    /\ alerts (stateOf (afterInsertion supabase camera countLog
                                          total st1))
                       = (alerts st
                          ++ [mkAlert camera0 total
                                (threshold_limit settings)])%list).
    { intros st1 H1.
      destruct (afterInsertion_alerts supabase camera countLog total st1)
        as [H | (settings & e & Hs & Ha & Hgt & H)]; cbv zeta in H.
      - left. congruence.
      - right. exists camera, settings, e. rewrite H, H1.
        repeat split; auto. lia. }
    assert (Hcatch : alerts (stateOf (catchBlock countLog st)) = alerts st).
    { unfold catchBlock. destruct (storeLog countLog st) as [st2 |] eqn:H;
        [| reflexivity].
      now apply storeLog_Some in H as (_ & _ & Ha). }
    assert (Hwritten : forall st1, storeLog countLog st = Some st1 ->
                                   alerts st1 = alerts st).
    { intros st1 H. now apply storeLog_Some in H as (_ & _ & Ha). }
    destruct (insertCountLog supabase countLog) as [d [e |] |];
      [| | now left].
    + destruct (isTableError (Some e)); [| now apply Hafter].
      destruct (storeLog countLog st) as [st1 |] eqn:H1; [| now left].
      apply Hafter. now apply Hwritten.
    + destruct (storeLog countLog st) as [st1 |] eqn:H1; [| now left].
      apply Hafter. now apply Hwritten.
  - intros camera settings d e e' d'' e'' -> Hne Hi Hw Hs Ha.
    rewrite logCount_unfold by exact Hne. cbv zeta. rewrite Hi.
    set (countLog := mkCountLog camera cIn cOut total).
    assert (Hafter : forall st1, alerts st1 = alerts st ->
               alerts (stateOf (afterInsertion supabase camera countLog total st1))
               = if alert_enabled settings && (threshold_limit settings <? total)%Z
                 then (alerts st
                       ++ [mkAlert camera total (threshold_limit settings)])%list
                 else alerts st).
    { intros st1 H1. unfold afterInsertion. rewrite Hs, Z.gtb_ltb.
      destruct (alert_enabled settings && _); [| exact H1].
      rewrite Ha. simpl. now rewrite H1. }
    assert (Hwritten : forall st1, storeLog countLog st = Some st1 ->
                                   alerts st1 = alerts st).
    { intros st1 H. now apply storeLog_Some in H as (_ & _ & Hal). }
    destruct Hw as [(once & Honce) | (err & -> & Ht)].
    + fold countLog in Honce. destruct e as [e |].
      * destruct (isTableError (Some e)); [rewrite Honce |];
          apply Hafter; auto.
      * rewrite Honce. apply Hafter; auto.
    + rewrite Ht. now apply Hafter.
  - intros camera d e -> Hne Hi He Hnone.
    rewrite logCount_unfold by exact Hne. cbv zeta. rewrite Hi.
    assert (Hcatch : catchBlock (mkCountLog camera cIn cOut total) st
                     = rejected st).
    { unfold catchBlock. now rewrite Hnone. }
    destruct e as [e |].
    + destruct He as [He | He]; [discriminate |].
      rewrite He, Hnone, Hcatch. reflexivity.
    + rewrite Hnone, Hcatch. reflexivity.
Qed.

(** ** Instances for the live feed *)

Lemma total_never_recovers_from_clamping_witness :
  let s' := runFeed clock0 random0 [webcamEnv; pausedUploadEnv] feed1 in
  (0 <= totalCountRef s')%Z
  /\ (totalCountRef feed1 - (countInRef feed1 - countOutRef feed1)
      <= totalCountRef s' - (countInRef s' - countOutRef s'))%Z.
Proof.
  apply (total_never_recovers_from_clamping clock0 random0
           [webcamEnv; pausedUploadEnv] feed1).
  simpl. lia.
Defined.

(** The walker seen below the line by the webcam: the entry is added to the
    refs and logged for the camera selected. *)
Lemma processed_tick_updates_the_refs_witness :
  let r := detectPeopleWithCrossing clock0 random0 [seenBelow] 200 world1 in
  let s' := fst (runDetection clock0 random0 webcamEnv feed1) in
  snd r = [mkEvent (id walker) dir_in]
  /\ tracking s' = snd (fst r)
  /\ (countInRef s', countOutRef s', totalCountRef s') = (1, 0, 1)%Z
  /\ In (eff_logCount 1 0 1) (snd (runDetection clock0 random0 webcamEnv feed1)).
Proof.
  cbv zeta.
  assert (Hev : snd (detectPeopleWithCrossing clock0 random0 [seenBelow] 200 world1)
                = [mkEvent (id walker) dir_in]).
  { rewrite frame_events, walker_frameState. reflexivity. }
  destruct (processed_tick_updates_the_refs clock0 random0 webcamEnv feed1
              webcamFrame) as (Htr & Hin & Hout & Htot & Hlog & _).
  - reflexivity.
  - simpl. lra.
  - simpl. lra.
  - now left.
  - simpl. lia.
  - cbv zeta in *.
    change (currentPredictions webcamFrame) with [seenBelow] in *.
    change (videoHeight webcamFrame) with 200 in *.
    change (tracking feed1) with world1 in *.
    rewrite Hev in *. simpl in Hin, Hout, Htot.
    split; [reflexivity |]. split; [exact Htr |].
    split; [now rewrite Hin, Hout, Htot |].
    apply Hlog. rewrite Hin, Hout, Htot. repeat split. discriminate.
Defined.

Lemma skipped_tick_changes_nothing_witness :
  fst (runDetection clock0 random0 pausedUploadEnv feed1) = feed1
  /\ forall e,
       In e (snd (runDetection clock0 random0 pausedUploadEnv feed1)) ->
       e = eff_play.
Proof.
  apply (skipped_tick_changes_nothing clock0 random0 pausedUploadEnv feed1).
  right. exists (mkVideoElement 200 300 true [seenBelow]).
  split; [reflexivity |]. right; right. split; [discriminate | reflexivity].
Defined.

(** An insertion that is rejected for another reason than a missing table:
    the log is not kept.  An item that is no JSON: the promise is rejected,
    also with the client of the demo mode. *)
Lemma logCount_writes_by_response_witness :
  (exists st',
      logCount rejectingClient (Some "demo-camera") 1 0 1
        (mkStores item_absent (fun _ => true) [])
      = fulfilled st'
      /\ storedLogs st' = item_absent)
  /\ logCount createMockClient (Some "demo-camera") 1 0 1
       (mkStores item_malformed (fun _ => true) [])
     = rejected (mkStores item_malformed (fun _ => true) []).
Proof.
  assert (Hne : "demo-camera" <> "") by discriminate.
  split.
  - destruct (logCount_writes_by_response rejectingClient "demo-camera" 1 0 1
                (mkStores item_absent (fun _ => true) []) Hne)
      as (_ & _ & Hwritten & _).
    cbv zeta in Hwritten.
    destruct (Hwritten _ eq_refl) as (_ & Hlost & _).
    apply Hlost.
    + exists None, (mkErrorObj (Some "permission denied") (Some "42501")
                      (Some 403%Z)).
      split; reflexivity.
    + intros [H | (settings & e & H & _)]; discriminate.
  - destruct (logCount_writes_by_response createMockClient "demo-camera" 1 0 1
                (mkStores item_malformed (fun _ => true) []) Hne)
      as (_ & Hthrows & _).
    cbv zeta in Hthrows.
    destruct (Hthrows eq_refl) as (_ & Hrejected & _).
    apply Hrejected. left.
    intros (d & e & H & _). discriminate.
Defined.

(** ** Loading the cameras *)

(** X24. [loadCameras] rejects, having set no camera, exactly when the
    backend does not answer with at least one camera and no error and the
    item of the local storage does not parse to an array: the exception of
    the [else] branch is thrown again by the [catch] block.  In every other
    case it leaves a list of cameras that is not empty and selects the first
    of them: the cameras of the backend when it answers with at least one and
    no error; otherwise the active cameras of the local storage, in their
    order, when there is one; and only otherwise the demo camera. *)
Theorem loadCameras_selects_a_camera_or_rejects
    (response : Response (list CameraChoice)) (stored : Item StoredCamera) :
  let active :=
    map (fun cam => mkCameraChoice (stored_id cam) (stored_name cam))
        (filter is_active
                (match stored with item_array l => l | _ => [] end)) in
  let answered :=
    exists first rest, response = resolved (Some (first :: rest)) None in
  (loadCameras response stored = None <-> stored = item_malformed /\ ~ answered)
  /\ (forall cameras selectedCamera,
         loadCameras response stored = Some (cameras, selectedCamera) ->
         (exists first rest,
             cameras = first :: rest /\ selectedCamera = Some (choice_id first))
         /\ (forall data, response = resolved (Some data) None -> data <> [] ->
                          cameras = data)
         /\ (~ answered ->
             (active <> [] -> cameras = active)
             /\ (active = [] -> cameras = [demoCamera]))).
Proof.
  cbv zeta.
  assert (Hstorage :
            (camerasFromStorage stored = None <-> stored = item_malformed)
            /\ forall cameras selectedCamera,
                 camerasFromStorage stored = Some (cameras, selectedCamera) ->
                 (exists first rest,
                     cameras = first :: rest
                     /\ selectedCamera = Some (choice_id first))
                 /\ (map (fun cam => mkCameraChoice (stored_id cam)
                                       (stored_name cam))
                         (filter is_active
                                 (match stored with
                                  | item_array l => l
                                  | _ => []
                                  end)) <> [] ->
                     cameras
                     = map (fun cam => mkCameraChoice (stored_id cam)
                                         (stored_name cam))
                           (filter is_active
                                   (match stored with
                                    | item_array l => l
                                    | _ => []
                                    end)))
                 /\ (map (fun cam => mkCameraChoice (stored_id cam)
                                       (stored_name cam))
                         (filter is_active
                                 (match stored with
                                  | item_array l => l
                                  | _ => []
                                  end)) = [] ->
                     cameras = [demoCamera])).
  { unfold camerasFromStorage. destruct stored as [| l |]; simpl.
    - split; [split; discriminate |].
      intros cameras sel [= <- <-]. split; [eauto | split; [easy | reflexivity]].
    - destruct (map _ (filter is_active l)) as [| c rest]; simpl.
      + split; [split; discriminate |].
        intros cameras sel [= <- <-].
        split; [eauto | split; [easy | reflexivity]].
      + split; [split; discriminate |].
        intros cameras sel [= <- <-].
        split; [eauto | split; [reflexivity | discriminate]].
    - split; [split; reflexivity |]. intros cameras sel [=]. }
  destruct Hstorage as (Hnone & Hsome).
  destruct response as [[[| first rest] |] [e |] |]; simpl.
  all: try (split;
            [ rewrite Hnone; split;
              [ intros ->; split; [reflexivity |];
                intros (f & r & [=])
              | intros [-> _]; reflexivity ]
            | intros cameras sel Hl;
              destruct (Hsome cameras sel Hl) as (Hsel & Hact & Hdemo);
              split; [exact Hsel |];
              split; [intros data [= <-]; try easy |];
              intros _; split; [exact Hact | exact Hdemo] ]).
  split.
  - split; [discriminate |]. intros [_ Hno]. exfalso. apply Hno. eauto.
  - intros cameras sel [= <- <-].
    split; [eauto |]. split; [intros data [= <-] _; reflexivity |].
    intros Hno. exfalso. apply Hno. eauto.
Qed.
